(** * Cosmetics regulatory API: bearer tokens, query building, extraction

    A shallow embedding of [app.py] (token store, [require_auth],
    [get_token], the product list handlers, the lookup by identifier, the
    brand and type aggregates and the comparison query), of
    [extract_data.py] ([extract_from_files], [extract_from_api],
    [extract_from_database], [save_raw], [main]) and of the script
    [sql/run_queries.py].

    Conventions.
    - Python dictionaries keyed by strings are [gmap string _].
    - [time.time()] is an input of every function that reads the clock; an
      instant is a number of clock ticks, an integer, and sums of instants
      are exact.
    - Values drawn from the environment (the OS entropy behind
      [secrets.token_urlsafe], the HTTP replies of the remote API, the
      answers of the database driver) are explicit arguments. *)

From Stdlib Require Import ZArith Lia Ascii String.
From Stdlib.Strings Require Import Byte.
From stdpp Require Import base option list gmap strings pretty fin_maps sorting.

Set Warnings "-register-all".

Local Open Scope string_scope.
Local Open Scope Z_scope.
Local Open Scope list_scope.

(* ===================================================================== *)
(** ** Python strings                                                     *)
(* ===================================================================== *)

Module PyStr.

(** [s.startswith(p)]. *)
Fixpoint startswith (s p : string) {struct p} : bool :=
  match p with
  | EmptyString => true
  | String c p' =>
      match s with
      | EmptyString => false
      | String d s' => Ascii.eqb c d && startswith s' p'
      end
  end.

(** [s.split(sep)] for a one-character separator: every occurrence of the
    separator cuts, empty fields are kept, and the result is never empty. *)
Fixpoint split (sep : ascii) (s : string) : list string :=
  match s with
  | EmptyString => [EmptyString]
  | String c r =>
      if Ascii.eqb c sep then EmptyString :: split sep r
      else match split sep r with
           | [] => [String c EmptyString]
           | w :: ws => String c w :: ws
           end
  end.

(** [c in s] for a character. *)
Fixpoint mem (c : ascii) (s : string) : bool :=
  match s with
  | EmptyString => false
  | String d r => Ascii.eqb d c || mem c r
  end.

(** Truthiness of a string: [bool(s)]. *)
Definition truthy (s : string) : bool :=
  match s with EmptyString => false | String _ _ => true end.

(** Number of (possibly overlapping) occurrences of [pat] in [s]. *)
Fixpoint occurrences (pat s : string) : nat :=
  match s with
  | EmptyString => if startswith EmptyString pat then 1%nat else 0%nat
  | String _ r =>
      ((if startswith s pat then 1 else 0) + occurrences pat r)%nat
  end.

End PyStr.

(* ===================================================================== *)
(** ** [secrets.token_urlsafe]                                            *)
(* ===================================================================== *)

Module Secrets.

Definition alphabet : string :=
  "ABCDEFGHIJKLMNOPQRSTUVWXYZabcdefghijklmnopqrstuvwxyz0123456789-_".

(** The character of a sextet in the URL-safe base64 alphabet. *)
Definition sextet (n : N) : ascii :=
  match String.get (N.to_nat (n mod 64)) alphabet with
  | Some c => c
  | None => "A"%char
  end.

(** [base64.urlsafe_b64encode(bs).rstrip(b'=')]: three bytes give four
    characters, a trailing group of one or two bytes gives two or three. *)
Fixpoint urlsafe_b64 (bs : list byte) : string :=
  match bs with
  | [] => EmptyString
  | [a] =>
      let n := (Byte.to_N a * 16)%N in
      String (sextet (n / 64)) (String (sextet n) EmptyString)
  | [a; b] =>
      let n := ((Byte.to_N a * 256 + Byte.to_N b) * 4)%N in
      String (sextet (n / 4096))
        (String (sextet (n / 64)) (String (sextet n) EmptyString))
  | a :: b :: c :: rest =>
      let n := (Byte.to_N a * 65536 + Byte.to_N b * 256 + Byte.to_N c)%N in
      String (sextet (n / 262144))
        (String (sextet (n / 4096))
           (String (sextet (n / 64))
              (String (sextet n) (urlsafe_b64 rest))))
  end.

(** [secrets.token_urlsafe(nbytes)] on the [nbytes] bytes the operating
    system's generator returned. *)
Definition token_urlsafe (entropy : list byte) : string := urlsafe_b64 entropy.

End Secrets.

(* ===================================================================== *)
(** ** JSON bodies                                                        *)
(* ===================================================================== *)

Inductive json : Type :=
| JNull
| JBool (b : bool)
| JNumber (n : Z)
| JString (s : string)
| JArray (items : list json)
| JObject (members : list (string * json)).

Module Json.

(** Python truthiness of a decoded JSON value ([not data] is its negation). *)
Definition truthy (v : json) : bool :=
  match v with
  | JNull => false
  | JBool b => b
  | JNumber n => negb (n =? 0)
  | JString s => PyStr.truthy s
  | JArray l => match l with [] => false | _ => true end
  | JObject kv => match kv with [] => false | _ => true end
  end.

(** [d.get(key, default)] on a decoded object. *)
Fixpoint get (kv : list (string * json)) (key : string) (dflt : json) : json :=
  match kv with
  | [] => dflt
  | (k, v) :: rest => if String.eqb k key then v else get rest key dflt
  end.

(** [v != s] for a Python string [s]: only an equal JSON string is equal. *)
Definition ne_str (v : json) (s : string) : bool :=
  match v with
  | JString t => negb (String.eqb t s)
  | _ => true
  end.

End Json.

(* ===================================================================== *)
(** ** HTTP requests and responses                                        *)
(* ===================================================================== *)

(** Exceptions that the modelled code can meet. *)
Inductive exn : Type :=
| ValueError (literal : string)     (* int() on a non-numeric string *)
| AttributeError                    (* .get on a value that is no dict *)
| IndexError                        (* list index out of range *)
| DriverError (message : string).   (* raised by the database driver *)

Record request : Type := Request {
  headers : gmap string string;     (* request.headers *)
  args    : gmap string string;     (* request.args (query string) *)
  body    : option json             (* request.get_json(silent=True) *)
}.

(** JSON payloads the handlers build with [jsonify]. *)
Inductive payload (R : Type) : Type :=
| Error (message : string)                       (* {"error": "..."} *)
| ErrorOf (e : exn)                              (* {"error": str(e)} *)
| Token (token : string) (expires_in expires_at : Z)
| Page (data : list R) (count : nat) (limit offset : Z)
| Listing (data : list R) (count : nat)
| Uncaught (e : exn).                            (* exception left to Flask *)
Arguments Error {R} message.
Arguments ErrorOf {R} e.
Arguments Token {R} token expires_in expires_at.
Arguments Page {R} data count limit offset.
Arguments Listing {R} data count.
Arguments Uncaught {R} e.

(** A view's return value: the payload and the status code. An exception
    that no handler catches is answered by the framework with status 500. *)
Definition response (R : Type) : Type := (payload R * Z)%type.

Definition status {R} (r : response R) : Z := snd r.

(* ===================================================================== *)
(** ** Token store and authentication                                     *)
(* ===================================================================== *)

Module Auth.

(** Settings read from the environment when the module is loaded. *)
Record config : Type := Config {
  API_USERNAME : string;
  API_PASSWORD : string;
  TOKEN_EXPIRY_SECONDS : Z
}.

Definition default_config : config :=
  {| API_USERNAME := "admin"; API_PASSWORD := "admin123";
     TOKEN_EXPIRY_SECONDS := 3600 |}.

Definition msg_malformed : string :=
  "Authorization header manquant ou format incorrect. Utilisez : Bearer <token>".
Definition msg_unknown : string := "Token invalide ou inexistant.".
Definition msg_expired : string :=
  "Token expiré. Veuillez en obtenir un nouveau via POST /auth/token".
Definition msg_body_required : string :=
  "Body JSON requis avec username et password".
Definition msg_bad_credentials : string := "Identifiants incorrects".

(** What [decorated] returns: its own 401 answer, or whatever the wrapped
    view returned. *)
Inductive guarded (A : Type) : Type :=
| Refused (message : string) (code : Z)
| Raised (e : exn)
| Called (result : A).
Arguments Refused {A} message code.
Arguments Raised {A} e.
Arguments Called {A} result.

(** [require_auth(f)], as a function of the request, of the value
    [time.time()] returns if it is read, and of [active_tokens]. *)
Definition require_auth {A} (f : request → A) (req : request) (now : Z)
    (active_tokens : gmap string Z) : guarded A * gmap string Z :=
  let auth_header := default "" (headers req !! "Authorization") in
  if negb (PyStr.startswith auth_header "Bearer ") then
    (Refused msg_malformed 401, active_tokens)
  else
    match PyStr.split " " auth_header !! 1%nat with
    | None => (Raised IndexError, active_tokens)
    | Some token =>
        match active_tokens !! token with
        | None => (Refused msg_unknown 401, active_tokens)
        | Some expiry =>
            if now >? expiry then
              (Refused msg_expired 401, delete token active_tokens)
            else (Called (f req), active_tokens)
        end
    end.

(** The HTTP answer of a guarded view. *)
Definition answer {R} (g : guarded (response R)) : response R :=
  match g with
  | Refused m c => (Error m, c)
  | Raised e => (Uncaught e, 500)
  | Called r => r
  end.

(** [get_token()]: POST /auth/token. [entropy] is what the operating system
    hands to [secrets.token_urlsafe(32)], [now] what [time.time()] returns. *)
Definition get_token {R} (cfg : config) (req : request) (entropy : list byte)
    (now : Z) (active_tokens : gmap string Z)
    : response R * gmap string Z :=
  match body req with
  | None => ((Error msg_body_required, 400), active_tokens)
  | Some data =>
      if negb (Json.truthy data) then
        ((Error msg_body_required, 400), active_tokens)
      else
        match data with
        | JObject members =>
            let username := Json.get members "username" (JString "") in
            let password := Json.get members "password" (JString "") in
            if Json.ne_str username (API_USERNAME cfg)
               || Json.ne_str password (API_PASSWORD cfg)
            then ((Error msg_bad_credentials, 401), active_tokens)
            else
              let token := Secrets.token_urlsafe entropy in
              let expiry := now + TOKEN_EXPIRY_SECONDS cfg in
              ((Token token (TOKEN_EXPIRY_SECONDS cfg) expiry, 200),
               <[token := expiry]> active_tokens)
        | _ => ((Uncaught AttributeError, 500), active_tokens)
        end
  end.

(** A request that carries [token] in the documented header form. *)
Definition bearer (token : string) : request :=
  {| headers := {[ "Authorization" := "Bearer " +:+ token ]};
     args := ∅; body := None |}.

(** The calls that touch the token store, with the environment's inputs. *)
Inductive call : Type :=
| Issue (req : request) (entropy : list byte) (now : Z)
| Api (req : request) (now : Z).

Definition step (cfg : config) (store : gmap string Z) (c : call)
    : gmap string Z :=
  match c with
  | Issue req entropy now => snd (get_token (R := unit) cfg req entropy now store)
  | Api req now => snd (require_auth (fun _ => tt) req now store)
  end.

Definition run (cfg : config) (store : gmap string Z) (cs : list call)
    : gmap string Z :=
  fold_left (step cfg) cs store.

(** The token an [Issue] call would store (whether or not it succeeds). *)
Definition drawn (c : call) : option string :=
  match c with
  | Issue _ entropy _ => Some (Secrets.token_urlsafe entropy)
  | Api _ _ => None
  end.

(** The instant at which a call reads the clock. *)
Definition clock (c : call) : Z :=
  match c with Issue _ _ now => now | Api _ now => now end.

(** The wrapped view was called. *)
Definition accepted {A} (g : guarded A * gmap string Z) : bool :=
  match fst g with Called _ => true | _ => false end.

(** The token [decorated] reads from the request, when the header has the
    expected form. *)
Definition presented (req : request) : option string :=
  let auth_header := default "" (headers req !! "Authorization") in
  if PyStr.startswith auth_header "Bearer " then
    PyStr.split " " auth_header !! 1%nat
  else None.

End Auth.

(* ===================================================================== *)
(** ** [int(...)] on a query-string value                                 *)
(* ===================================================================== *)

Module PyInt.

(** White space that [int] strips on both sides of an ASCII string: tab,
    line feed, vertical tab, form feed, carriage return and space. *)
Definition is_space (c : ascii) : bool :=
  let n := nat_of_ascii c in
  ((9 <=? n) && (n <=? 13) || (n =? 32))%nat.

Definition is_digit (c : ascii) : bool :=
  let n := nat_of_ascii c in ((48 <=? n) && (n <=? 57))%nat.

Definition digit_value (c : ascii) : Z := Z.of_nat (nat_of_ascii c) - 48.

Fixpoint lstrip (l : list ascii) : list ascii :=
  match l with
  | c :: r => if is_space c then lstrip r else l
  | [] => []
  end.

Definition strip (l : list ascii) : list ascii :=
  rev (lstrip (rev (lstrip l))).

(** Decimal digits, where one underscore may stand between two digits. *)
Fixpoint digits (acc : Z) (after_digit : bool) (l : list ascii) : option Z :=
  match l with
  | [] => if after_digit then Some acc else None
  | c :: r =>
      if is_digit c then digits (10 * acc + digit_value c) true r
      else if Ascii.eqb c "_" then
        if after_digit then digits acc false r else None
      else None
  end.

Definition parse (l : list ascii) : option Z :=
  match strip l with
  | "-"%char :: r => Z.opp <$> digits 0 false r
  | "+"%char :: r => digits 0 false r
  | r => digits 0 false r
  end.

(** [int(s)] for a [str]: the value, or [ValueError] with the literal.
    Only ASCII is interpreted (a byte above 127 is no digit and no space),
    and the interpreter's bound on the number of digits is left out. *)
Definition int (s : string) : exn + Z :=
  match parse (list_ascii_of_string s) with
  | Some n => inr n
  | None => inl (ValueError s)
  end.

(** [int(request.args.get(name, dflt))] with an integer default. *)
Definition int_arg (args : gmap string string) (name : string) (dflt : Z)
    : exn + Z :=
  match args !! name with
  | Some s => int s
  | None => inr dflt
  end.

End PyInt.

(* ===================================================================== *)
(** ** Product list handlers and their query builder                      *)
(* ===================================================================== *)

(** Values bound to the named parameters of a statement. *)
Inductive value : Type :=
| VInt (n : Z)
| VStr (s : string).

Global Instance value_eq_dec : EqDecision value.
Proof. solve_decision. Defined.

Module Products.

(** [query] and [params] as they stand when [conn.execute] is called. *)
Definition statement : Type := (string * gmap string value)%type.

(** The truthiness test on [request.args.get(name, None)]. *)
Definition present (x : option string) : bool :=
  match x with
  | Some s => PyStr.truthy s
  | None => false
  end.

Definition sephora_select : string := "
            SELECT product_id, product_name, brand_name, product_type,
                   price_usd, rating, restricted_ingredient_count, cmr_count,
                   has_restricted_ingredient, has_cmr
            FROM sephora_products
            WHERE 1=1
        ".

Definition skincare_select : string := "
            SELECT brand, product_name, product_type, price, rating,
                   restricted_ingredient_count, cmr_count,
                   has_restricted_ingredient, has_cmr
            FROM skincare_products
            WHERE 1=1
        ".

(** The statement [get_sephora_products] builds between the reading of
    the arguments and [engine.connect()]. *)
Definition sephora_statement (limit offset : Z)
    (product_type brand : option string) : statement :=
  let query := sephora_select in
  let params : gmap string value := ∅ in
  let '(query, params) :=
    match product_type with
    | Some t =>
        if PyStr.truthy t then
          (query +:+ " AND product_type = :product_type",
           <["product_type" := VStr t]> params)
        else (query, params)
    | None => (query, params)
    end in
  let '(query, params) :=
    match brand with
    | Some b =>
        if PyStr.truthy b then
          (query +:+ " AND brand_name LIKE :brand",
           <["brand" := VStr ("%" +:+ b +:+ "%")]> params)
        else (query, params)
    | None => (query, params)
    end in
  let query :=
    query +:+ " ORDER BY brand_name ASC, product_name ASC LIMIT :limit OFFSET :offset" in
  let params := <["limit" := VInt limit]> params in
  let params := <["offset" := VInt offset]> params in
  (query, params).

(** The statement [get_skincare_products] builds. *)
Definition skincare_statement (limit offset : Z)
    (product_type brand : option string) : statement :=
  let query := skincare_select in
  let params : gmap string value := ∅ in
  let '(query, params) :=
    match product_type with
    | Some t =>
        if PyStr.truthy t then
          (query +:+ " AND product_type = :product_type",
           <["product_type" := VStr t]> params)
        else (query, params)
    | None => (query, params)
    end in
  let '(query, params) :=
    match brand with
    | Some b =>
        if PyStr.truthy b then
          (query +:+ " AND brand LIKE :brand",
           <["brand" := VStr ("%" +:+ b +:+ "%")]> params)
        else (query, params)
    | None => (query, params)
    end in
  let query :=
    query +:+ " ORDER BY brand ASC, product_name ASC LIMIT :limit OFFSET :offset" in
  let params := <["limit" := VInt limit]> params in
  let params := <["offset" := VInt offset]> params in
  (query, params).

Section Handlers.
(** The rows are the dictionaries [dict(row._mapping)]; [execute] is the
    driver: [engine.connect()] followed by [conn.execute(text(query),
    params)], which answers with rows or raises. *)
Context {R : Type}.
Variable execute : string → gmap string value → exn + list R.

(** [get_sephora_products()]: the [try] block, and the [except] clause
    that answers any exception with its text and status 500. *)
Definition get_sephora_products (req : request) : response R :=
  match PyInt.int_arg (args req) "limit" 50 with
  | inl e => (ErrorOf e, 500)
  | inr limit =>
      match PyInt.int_arg (args req) "offset" 0 with
      | inl e => (ErrorOf e, 500)
      | inr offset =>
          let product_type := args req !! "type" in
          let brand := args req !! "brand" in
          let '(query, params) :=
            sephora_statement limit offset product_type brand in
          match execute query params with
          | inl e => (ErrorOf e, 500)
          | inr rows => (Page rows (length rows) limit offset, 200)
          end
      end
  end.

(** [get_skincare_products()]. *)
Definition get_skincare_products (req : request) : response R :=
  match PyInt.int_arg (args req) "limit" 50 with
  | inl e => (ErrorOf e, 500)
  | inr limit =>
      match PyInt.int_arg (args req) "offset" 0 with
      | inl e => (ErrorOf e, 500)
      | inr offset =>
          let product_type := args req !! "type" in
          let brand := args req !! "brand" in
          let '(query, params) :=
            skincare_statement limit offset product_type brand in
          match execute query params with
          | inl e => (ErrorOf e, 500)
          | inr rows => (Page rows (length rows) limit offset, 200)
          end
      end
  end.

(** GET /api/sephora/products and /api/skincare/products behind
    [@require_auth]. *)
Definition api_sephora_products (req : request) (now : Z)
    (active_tokens : gmap string Z) : response R * gmap string Z :=
  let '(g, store) := Auth.require_auth get_sephora_products req now active_tokens in
  (Auth.answer g, store).

Definition api_skincare_products (req : request) (now : Z)
    (active_tokens : gmap string Z) : response R * gmap string Z :=
  let '(g, store) := Auth.require_auth get_skincare_products req now active_tokens in
  (Auth.answer g, store).
End Handlers.

End Products.

(* ===================================================================== *)
(** ** What the database answers                                          *)
(* ===================================================================== *)

(** The statements are text that the database engine interprets. Their
    meaning is given here clause by clause, over tables held as lists of
    rows. A text column may hold NULL ([None]). *)

Module Sql.

Section ListStatement.
Context {row : Type}.
(** The columns the WHERE and ORDER BY clauses read. *)
Variables type_of brand_of name_of : row → option string.
(** The engine's operators under the columns' collation: equality,
    [text LIKE pattern], and the order ORDER BY sorts by. *)
Variable eq_op : string → string → bool.
Variable like_op : string → string → bool.
Variable le_op : string → string → bool.

Definition has_clause (clause query : string) : bool :=
  (0 <? PyStr.occurrences clause query)%nat.

Definition bound (params : gmap string value) (name : string)
    : option string :=
  match params !! name with
  | Some (VStr s) => Some s
  | _ => None
  end.

(** WHERE 1=1 [AND product_type = :product_type] [AND ... LIKE :brand];
    a comparison with NULL does not select the row. *)
Definition where_clause (query : string) (params : gmap string value)
    (r : row) : bool :=
  (if has_clause " AND product_type = :product_type" query then
     match type_of r, bound params "product_type" with
     | Some t, Some v => eq_op t v
     | _, _ => false
     end
   else true)
  &&
  (if has_clause " LIKE :brand" query then
     match brand_of r, bound params "brand" with
     | Some b, Some pat => like_op b pat
     | _, _ => false
     end
   else true).

(** Ascending order of one column: NULL first. *)
Definition le_null (a b : option string) : bool :=
  match a, b with
  | None, _ => true
  | Some _, None => false
  | Some x, Some y => le_op x y
  end.

(** ORDER BY brand ASC, product_name ASC. *)
Definition key_le (r1 r2 : row) : bool :=
  if le_null (brand_of r1) (brand_of r2) then
    if le_null (brand_of r2) (brand_of r1) then
      le_null (name_of r1) (name_of r2)
    else true
  else false.

(** Two rows that ORDER BY does not tell apart. *)
Definition tie (r1 r2 : row) : bool := key_le r1 r2 && key_le r2 r1.

(** No two rows of the list (at different positions) tie. *)
Fixpoint tie_free (l : list row) : bool :=
  match l with
  | [] => true
  | r :: rest => forallb (fun r' => negb (tie r r')) rest && tie_free rest
  end.

(** The rows the WHERE clause keeps. *)
Definition selected (table : list row) (query : string)
    (params : gmap string value) : list row :=
  List.filter (where_clause query params) table.

(** [rows] is an answer the engine may give to a list statement: the
    selected rows, in some order that ORDER BY allows, cut by OFFSET and
    LIMIT. Rows that tie may come in any order, and the order may differ
    from one execution to the next. *)
Definition answers (table : list row) (query : string)
    (params : gmap string value) (rows : list row) : Prop :=
  ∃ (limit offset : Z) (view : list row),
    params !! "limit" = Some (VInt limit) ∧
    params !! "offset" = Some (VInt offset) ∧
    0 ≤ limit ∧ 0 ≤ offset ∧
    view ≡ₚ selected table query params ∧
    Sorted (fun a b => key_le a b = true) view ∧
    rows = take (Z.to_nat limit) (drop (Z.to_nat offset) view).
End ListStatement.

End Sql.

(** The rows of [sephora_products], by the columns the list statement
    selects. Numbers are held in units of their last decimal. *)
Module Sephora.
Record row : Type := Row {
  product_id : option string;
  product_name : option string;
  brand_name : option string;
  product_type : option string;
  price_usd : Z;
  rating : Z;
  restricted_ingredient_count : Z;
  cmr_count : Z;
  has_restricted_ingredient : Z;
  has_cmr : Z
}.
End Sephora.

(** The rows of [skincare_products]; the table has no identifier column. *)
Module Skincare.
Record row : Type := Row {
  brand : option string;
  product_name : option string;
  product_type : option string;
  price : Z;
  rating : Z;
  restricted_ingredient_count : Z;
  cmr_count : Z;
  has_restricted_ingredient : Z;
  has_cmr : Z
}.
End Skincare.

(* ===================================================================== *)
(** ** Comparison of the two catalogues                                   *)
(* ===================================================================== *)

Module Comparaison.

Definition query : string := "
            SELECT
                s.product_type                  AS categorie,
                s.total_sephora,
                s.pct_restreints_sephora,
                s.prix_moyen_sephora,
                sk.total_skincare,
                sk.pct_restreints_skincare,
                sk.prix_moyen_skincare
            FROM (
                SELECT product_type,
                       COUNT(*) AS total_sephora,
                       ROUND(SUM(has_restricted_ingredient) / COUNT(*) * 100, 1) AS pct_restreints_sephora,
                       ROUND(AVG(price_usd), 2) AS prix_moyen_sephora
                FROM sephora_products
                GROUP BY product_type
            ) s
            INNER JOIN (
                SELECT
                    CASE
                        WHEN product_type IN ('Moisturizer','Cleanser','Treatment','Eye Cream','Face Mask','Sun Protect')
                            THEN 'Skincare'
                        ELSE product_type
                    END AS product_type,
                    COUNT(*) AS total_skincare,
                    ROUND(SUM(has_restricted_ingredient) / COUNT(*) * 100, 1) AS pct_restreints_skincare,
                    ROUND(AVG(price), 2) AS prix_moyen_skincare
                FROM skincare_products
                GROUP BY CASE
                    WHEN product_type IN ('Moisturizer','Cleanser','Treatment','Eye Cream','Face Mask','Sun Protect')
                        THEN 'Skincare'
                    ELSE product_type
                END
            ) sk
            ON s.product_type = sk.product_type
            ORDER BY s.pct_restreints_sephora DESC
        ".

(** The list of the IN (...) test. *)
Definition fine_grained : list string :=
  ["Moisturizer"; "Cleanser"; "Treatment"; "Eye Cream"; "Face Mask";
   "Sun Protect"].

(** CASE WHEN product_type IN (...) THEN 'Skincare' ELSE product_type END.
    On NULL the IN test is not true, and ELSE yields NULL. *)
Definition mapped (product_type : option string) : option string :=
  match product_type with
  | None => None
  | Some t =>
      if existsb (String.eqb t) fine_grained then Some "Skincare" else Some t
  end.

(** [a = b] as a join condition: never true on NULL. *)
Definition sql_eq (a b : option string) : bool :=
  match a, b with
  | Some x, Some y => String.eqb x y
  | _, _ => false
  end.

Section Join.
(** The engine's numbers: prices and the rounded aggregates. *)
Context {num : Type}.
Variable pct : list Z → num.   (* ROUND(SUM(flag) / COUNT( * ) * 100, 1) *)
Variable avg : list num → num. (* ROUND(AVG(price), 2) *)
Variable ge : num → num → bool.

(** The columns of the two tables that the statement reads. *)
Record product : Type := Product {
  product_type : option string;
  has_restricted_ingredient : Z;
  price : num
}.

Record aggregate : Type := Aggregate {
  category : option string;
  total : nat;
  pct_restreints : num;
  prix_moyen : num
}.

Record joined : Type := Joined {
  categorie : option string;
  total_sephora : nat;
  pct_restreints_sephora : num;
  prix_moyen_sephora : num;
  total_skincare : nat;
  pct_restreints_skincare : num;
  prix_moyen_skincare : num
}.

(** SELECT key, COUNT( * ), ROUND(...), ROUND(...) FROM table GROUP BY key:
    one row per distinct key, NULL being a key of its own. *)
Definition group_by (key : product → option string) (table : list product)
    : list aggregate :=
  map (fun k =>
         let members :=
           List.filter (fun r => bool_decide (key r = k)) table in
         {| category := k;
            total := length members;
            pct_restreints := pct (map has_restricted_ingredient members);
            prix_moyen := avg (map price members) |})
      (remove_dups (map key table)).

Definition sephora_side (sephora : list product) : list aggregate :=
  group_by product_type sephora.

Definition skincare_side (skincare : list product) : list aggregate :=
  group_by (fun r => mapped (product_type r)) skincare.

(** s INNER JOIN sk ON s.product_type = sk.product_type. *)
Definition inner_join (s sk : list aggregate) : list joined :=
  flat_map (fun a =>
    flat_map (fun b =>
      if sql_eq (category a) (category b) then
        [ {| categorie := category a;
             total_sephora := total a;
             pct_restreints_sephora := pct_restreints a;
             prix_moyen_sephora := prix_moyen a;
             total_skincare := total b;
             pct_restreints_skincare := pct_restreints b;
             prix_moyen_skincare := prix_moyen b |} ]
      else []) sk) s.

(** [rows] is an answer to the statement: the joined rows in an order
    that ORDER BY s.pct_restreints_sephora DESC allows. *)
Definition answers (sephora skincare : list product) (rows : list joined)
    : Prop :=
  rows ≡ₚ inner_join (sephora_side sephora) (skincare_side skincare) ∧
  Sorted (fun a b =>
            ge (pct_restreints_sephora a) (pct_restreints_sephora b) = true)
         rows.

End Join.

End Comparaison.

(* ===================================================================== *)
(** ** Extraction script: remote API and raw snapshots                    *)
(* ===================================================================== *)

Module Extract.

Inductive level : Type := INFO | WARNING | ERROR.

(** The log: what [logger.info], [logger.warning] and [logger.error] were
    called with, oldest first. *)
Definition log : Type := list (level * string).

(** A [pandas.DataFrame]: column labels and rows of cells. *)
Record DataFrame : Type := Frame {
  columns : list string;
  rows : list (list json)
}.

(** [df.empty]: some axis has length zero. *)
Definition empty (df : DataFrame) : bool :=
  match columns df, rows df with
  | [], _ => true
  | _, [] => true
  | _, _ => false
  end.

(** [len(df)]. *)
Definition len (df : DataFrame) : nat := length (rows df).

(** One entry of [all_products]. *)
Record record : Type := MkRecord {
  product_name : json;
  brand : json;
  ingredients_text : json;
  categories : json;
  country : json;
  barcode : json;
  source : json
}.

Definition record_columns : list string :=
  ["product_name"; "brand"; "ingredients_text"; "categories"; "country";
   "barcode"; "source"].

Definition record_cells (r : record) : list json :=
  [product_name r; brand r; ingredients_text r; categories r; country r;
   barcode r; source r].

(** [pd.DataFrame(all_products)] for a list of such dictionaries: no
    column at all when the list is empty. *)
Definition to_frame (all_products : list record) : DataFrame :=
  match all_products with
  | [] => {| columns := []; rows := [] |}
  | _ => {| columns := record_columns; rows := map record_cells all_products |}
  end.

(** The classes of exception the request of a page can end in, as the
    [except] clauses tell them apart (the first clause that matches
    catches). A body that is not JSON makes [response.json()] raise
    [requests.exceptions.JSONDecodeError], which is a [RequestException]
    as well as a [ValueError]: the clause for [RequestException] stands
    first and catches it. *)
Inductive failure : Type :=
| Timeout             (* requests.exceptions.Timeout *)
| HTTPError (e : string)          (* requests.exceptions.HTTPError *)
| JSONDecodeError (e : string)    (* requests.exceptions.JSONDecodeError *)
| RequestException (e : string)   (* any other requests exception *)
| ValueOrKeyError (e : string)    (* a ValueError or KeyError that is no
                                     requests exception *)
| Unexpected.                     (* anything else: no clause catches it *)

(** What [requests.get(...)], [raise_for_status()] and [response.json()]
    give for one page. *)
Inductive reply : Type :=
| Fails (e : failure)
| Decoded (data : json).

(** The body of [for product in products]: one dictionary per product. A
    product that is no JSON object has no [get]. *)
Fixpoint normalise (products : list json) : option (list record) :=
  match products with
  | [] => Some []
  | JObject product :: rest =>
      match normalise rest with
      | Some records =>
          Some ({| product_name := Json.get product "product_name" (JString "");
                   brand := Json.get product "brands" (JString "");
                   ingredients_text := Json.get product "ingredients_text" (JString "");
                   categories := Json.get product "categories" (JString "");
                   country := Json.get product "countries" (JString "");
                   barcode := Json.get product "code" (JString "");
                   source := JString "open_beauty_facts_api" |} :: records)
      | None => None
      end
  | _ :: _ => None
  end.

(** How one turn of the loop ends. *)
Inductive turn : Type :=
| Next (all_products : list record) (l : log)    (* fall through or continue *)
| Break (all_products : list record) (l : log)
| Raise (l : log).

Definition page_of (page max_pages : nat) : string :=
  pretty page +:+ "/" +:+ pretty max_pages.

(** One turn of [for page in range(1, max_pages + 1)]. *)
Definition visit (r : reply) (page max_pages : nat)
    (all_products : list record) (l : log) : turn :=
  let l := l ++ [(INFO, "  Requête API page " +:+ page_of page max_pages +:+ " ...")] in
  match r with
  | Decoded (JObject data) =>
      let products := Json.get data "products" (JArray []) in
      if negb (Json.truthy products) then
        Break all_products
          (l ++ [(INFO, "  Aucun produit sur la page " +:+ pretty page
                         +:+ ", arrêt de la pagination.")])
      else
        match products with
        | JArray items =>
            match normalise items with
            | Some records =>
                Next (all_products ++ records)
                  (l ++ [(INFO, "  ✓ Page " +:+ pretty page +:+ " : "
                                 +:+ pretty (length items)
                                 +:+ " produits récupérés")])
            | None => Raise l
            end
        | _ => Raise l
        end
  | Decoded _ => Raise l
  | Fails Timeout =>
      Next all_products
        (l ++ [(WARNING, "  ⚠ Timeout sur la page " +:+ pretty page
                          +:+ " — on continue avec la suivante.")])
  | Fails (HTTPError e) =>
      Next all_products
        (l ++ [(ERROR, "  ✗ Erreur HTTP page " +:+ pretty page +:+ " : " +:+ e)])
  | Fails (JSONDecodeError e) | Fails (RequestException e) =>
      Break all_products
        (l ++ [(ERROR, "  ✗ Erreur réseau page " +:+ pretty page +:+ " : " +:+ e)])
  | Fails (ValueOrKeyError e) =>
      Next all_products
        (l ++ [(ERROR, "  ✗ Erreur de parsing JSON page " +:+ pretty page
                        +:+ " : " +:+ e)])
  | Fails Unexpected => Raise l
  end.

(** The two statements after the loop: build the frame and log its size. *)
Definition finish (all_products : list record) (l : log)
    : option DataFrame * log :=
  let df := to_frame all_products in
  (Some df,
   l ++ [(INFO, "  ✓ API REST — total : " +:+ pretty (len df)
                 +:+ " produits extraits")]).

(** The loop over the pages still to visit, then the statements after it.
    [None] is an exception that leaves [extract_from_api]. *)
Fixpoint pages_loop (fetch : nat → reply) (pages : list nat) (max_pages : nat)
    (all_products : list record) (l : log) : option DataFrame * log :=
  match pages with
  | [] => finish all_products l
  | page :: rest =>
      match visit (fetch page) page max_pages all_products l with
      | Next all_products l => pages_loop fetch rest max_pages all_products l
      | Break all_products l => finish all_products l
      | Raise l => (None, l)
      end
  end.

(** [extract_from_api(max_pages)]; [fetch page] is what the remote end
    answers to the request of [page]. *)
Definition extract_from_api (fetch : nat → reply) (max_pages : Z) (l : log)
    : option DataFrame * log :=
  let l := l ++ [(INFO, "── Source 2 : Extraction via API REST (Open Beauty Facts — JSON) ──")] in
  pages_loop fetch (seq 1 (Z.to_nat max_pages)) (Z.to_nat max_pages) [] l.

(** *** Reading of the loop, page by page *)

(** What the reply to one page does to the loop. *)
Inductive effect : Type :=
| Adds (records : list record)   (* products: appended, next page *)
| Skips                          (* logged, next page *)
| Stops                          (* logged, no further page *)
| Escapes.                       (* an exception leaves the function *)

Definition classify (r : reply) : effect :=
  match r with
  | Decoded (JObject data) =>
      let products := Json.get data "products" (JArray []) in
      if negb (Json.truthy products) then Stops
      else
        match products with
        | JArray items =>
            match normalise items with
            | Some records => Adds records
            | None => Escapes
            end
        | _ => Escapes
        end
  | Decoded _ => Escapes
  | Fails Timeout => Skips
  | Fails (HTTPError _) => Skips
  | Fails (ValueOrKeyError _) => Skips
  | Fails (JSONDecodeError _) => Stops
  | Fails (RequestException _) => Stops
  | Fails Unexpected => Escapes
  end.

(** The pages that are requested: all of them up to and including the
    first one that stops the loop or lets an exception escape. *)
Fixpoint requested (fetch : nat → reply) (pages : list nat) : list nat :=
  match pages with
  | [] => []
  | page :: rest =>
      page :: match classify (fetch page) with
              | Stops | Escapes => []
              | _ => requested fetch rest
              end
  end.

(** The records a page contributes. *)
Definition added (fetch : nat → reply) (page : nat) : list record :=
  match classify (fetch page) with
  | Adds records => records
  | _ => []
  end.

(** The lines one turn of the loop logs. *)
Definition turn_log (r : reply) (page max_pages : nat) : log :=
  (INFO, "  Requête API page " +:+ page_of page max_pages +:+ " ...") ::
  match r with
  | Decoded (JObject data) =>
      match Json.get data "products" (JArray []) with
      | JArray ((_ :: _) as items) =>
          match normalise items with
          | Some _ =>
              [(INFO, "  ✓ Page " +:+ pretty page +:+ " : "
                       +:+ pretty (length items) +:+ " produits récupérés")]
          | None => []
          end
      | products =>
          if Json.truthy products then []
          else [(INFO, "  Aucun produit sur la page " +:+ pretty page
                        +:+ ", arrêt de la pagination.")]
      end
  | Decoded _ => []
  | Fails Timeout =>
      [(WARNING, "  ⚠ Timeout sur la page " +:+ pretty page
                  +:+ " — on continue avec la suivante.")]
  | Fails (HTTPError e) =>
      [(ERROR, "  ✗ Erreur HTTP page " +:+ pretty page +:+ " : " +:+ e)]
  | Fails (JSONDecodeError e) | Fails (RequestException e) =>
      [(ERROR, "  ✗ Erreur réseau page " +:+ pretty page +:+ " : " +:+ e)]
  | Fails (ValueOrKeyError e) =>
      [(ERROR, "  ✗ Erreur de parsing JSON page " +:+ pretty page
                +:+ " : " +:+ e)]
  | Fails Unexpected => []
  end.

(** [datetime.now()]. *)
Record datetime : Type := DateTime {
  year : nat; month : nat; day : nat;
  hour : nat; minute : nat; second : nat
}.

Definition digit (n : nat) : string :=
  String (ascii_of_nat (48 + n mod 10)) EmptyString.

Definition pad2 (n : nat) : string := digit (n / 10) +:+ digit n.
Definition pad4 (n : nat) : string := pad2 (n / 100) +:+ pad2 n.

(** [strftime("%Y%m%d_%H%M%S")]. *)
Definition strftime (t : datetime) : string :=
  pad4 (year t) +:+ pad2 (month t) +:+ pad2 (day t) +:+ "_"
  +:+ pad2 (hour t) +:+ pad2 (minute t) +:+ pad2 (second t).

(** The files written so far: path to the frame whose CSV text it holds. *)
Definition files : Type := gmap string DataFrame.

(** [save_raw(name, df)]; [raw_dir] is RAW_DIR and [now] the value of
    [datetime.now()] if it is read. *)
Definition save_raw (raw_dir : string) (name : string) (df : DataFrame)
    (now : datetime) (fs : files) (l : log) : files * log :=
  if empty df then
    (fs, l ++ [(WARNING, "  ⚠ DataFrame '" +:+ name +:+ "' vide — pas de sauvegarde.")])
  else
    let timestamp := strftime now in
    let filepath := raw_dir +:+ "/" +:+ name +:+ "_" +:+ timestamp +:+ ".csv" in
    (<[filepath := df]> fs,
     l ++ [(INFO, "  💾 Sauvegardé : " +:+ filepath +:+ " (" +:+ pretty (len df)
                   +:+ " lignes)")]).

End Extract.

(* ===================================================================== *)
(** ** The other routes of the API                                        *)
(* ===================================================================== *)

Module Routes.

(** The payload of the lookup by identifier. *)
Inductive item (R : Type) : Type :=
| Item (data : R)                  (* {"data": {...}} *)
| ItemError (message : string)     (* {"error": "..."} *)
| ItemErrorOf (e : exn).           (* {"error": str(e)} *)
Arguments Item {R} data.
Arguments ItemError {R} message.
Arguments ItemErrorOf {R} e.

Definition product_by_id_query : string := "
            SELECT product_id, product_name, brand_name, product_type,
                   price_usd, rating, restricted_ingredient_count, cmr_count,
                   has_restricted_ingredient, has_cmr
            FROM sephora_products
            WHERE product_id = :product_id
        ".



Definition skincare_cmr_query : string := "
            SELECT brand, product_name, product_type, price, rating,
                   restricted_ingredient_count, cmr_count
            FROM skincare_products
            WHERE has_cmr = 1
            ORDER BY price DESC
        ".

Section Views.
Context {R : Type}.
Variable execute : string → gmap string value → exn + list R.

(** [get_sephora_product_by_id(product_id)]: [fetchone()] is the first row
    of the result, or [None]. *)
Definition get_sephora_product_by_id (product_id : string) (req : request)
    : item R * Z :=
  match execute product_by_id_query {[ "product_id" := VStr product_id ]} with
  | inl e => (ItemErrorOf e, 500)
  | inr rows =>
      match rows with
      | [] => (ItemError ("Produit " +:+ product_id +:+ " introuvable"), 404)
      | row :: _ => (Item row, 200)
      end
  end.



(** [get_skincare_cmr()]. *)
Definition get_skincare_cmr (req : request) : response R :=
  match execute skincare_cmr_query ∅ with
  | inl e => (ErrorOf e, 500)
  | inr rows => (Listing rows (length rows), 200)
  end.
End Views.

(** SUM over a group of rows (a group is never empty, the flags never
    NULL). *)
Definition sum (l : list Z) : Z := foldr Z.add 0 l.

(** The rows of a table whose key is [k]. *)
Definition members {row : Type} (key : row → option string)
    (k : option string) (table : list row) : list row :=
  List.filter (fun r => bool_decide (key r = k)) table.

(** WHERE product_id = :product_id on [sephora_products]; no ORDER BY. *)
Definition by_id_answers (eq_op : string → string → bool)
    (table : list Sephora.row) (params : gmap string value)
    (rows : list Sephora.row) : Prop :=
  ∃ product_id,
    params !! "product_id" = Some (VStr product_id) ∧
    rows ≡ₚ List.filter
              (fun r => match Sephora.product_id r with
                        | Some i => eq_op i product_id
                        | None => false
                        end) table.

(** What the statement of /api/sephora/brands answers. *)
Module Brands.
Section Answers.
Context {num : Type}.
Variable avg : list Z → num.   (* ROUND(AVG(price_usd), 2) *)

Record row : Type := Row {
  brand_name : option string;
  total_produits : nat;
  nb_produits_restreints : Z;
  nb_produits_cmr : Z;
  prix_moyen : num
}.

(** SELECT ... FROM sephora_products GROUP BY brand_name. *)
Definition grouped (table : list Sephora.row) : list row :=
  map (fun k =>
         let group := members Sephora.brand_name k table in
         {| brand_name := k;
            total_produits := length group;
            nb_produits_restreints :=
              sum (map Sephora.has_restricted_ingredient group);
            nb_produits_cmr := sum (map Sephora.has_cmr group);
            prix_moyen := avg (map Sephora.price_usd group) |})
      (remove_dups (map Sephora.brand_name table)).

(** HAVING SUM(has_restricted_ingredient) > 0. *)
Definition having (g : row) : bool := 0 <? nb_produits_restreints g.

(** ORDER BY nb_produits_restreints DESC LIMIT :limit. *)
Definition answers (table : list Sephora.row) (params : gmap string value)
    (rows : list row) : Prop :=
  ∃ (limit : Z) (view : list row),
    params !! "limit" = Some (VInt limit) ∧ 0 ≤ limit ∧
    view ≡ₚ List.filter having (grouped table) ∧
    Sorted (fun a b => nb_produits_restreints b ≤ nb_produits_restreints a)
           view ∧
    rows = take (Z.to_nat limit) view.
End Answers.
End Brands.

(** What the statement of /api/sephora/by-type answers. *)
Module ByType.
Section Answers.
Context {num : Type}.
Variable avg : list Z → num.   (* ROUND(AVG(restricted_ingredient_count), 2) *)
Variable pct : list Z → num.   (* ROUND(SUM(flag) / COUNT( * ) * 100, 1) *)
Variable ge : num → num → bool.

Record row : Type := Row {
  product_type : option string;
  total_produits : nat;
  moy_ingredients_restreints : num;
  nb_produits_restreints : Z;
  nb_produits_cmr : Z;
  pct_restreints : num;
  pct_cmr : num
}.

(** SELECT ... FROM sephora_products GROUP BY product_type. *)
Definition grouped (table : list Sephora.row) : list row :=
  map (fun k =>
         let group := members Sephora.product_type k table in
         {| product_type := k;
            total_produits := length group;
            moy_ingredients_restreints :=
              avg (map Sephora.restricted_ingredient_count group);
            nb_produits_restreints :=
              sum (map Sephora.has_restricted_ingredient group);
            nb_produits_cmr := sum (map Sephora.has_cmr group);
            pct_restreints := pct (map Sephora.has_restricted_ingredient group);
            pct_cmr := pct (map Sephora.has_cmr group) |})
      (remove_dups (map Sephora.product_type table)).

(** HAVING COUNT( * ) > 10. *)
Definition having (g : row) : bool := (10 <? total_produits g)%nat.

(** ORDER BY pct_restreints DESC. *)
Definition answers (table : list Sephora.row) (rows : list row) : Prop :=
  rows ≡ₚ List.filter having (grouped table) ∧
  Sorted (fun a b => ge (pct_restreints a) (pct_restreints b) = true) rows.
End Answers.
End ByType.

End Routes.

(* ===================================================================== *)
(** ** Sample inputs                                                      *)
(* ===================================================================== *)

Module Samples.

(** POST /auth/token with the default credentials. *)
Definition login : request :=
  {| headers := ∅; args := ∅;
     body := Some (JObject [("username", JString "admin");
                            ("password", JString "admin123")]) |}.

(** Three bytes of entropy; their token is "AQID". *)
Definition entropy : list byte := [x01; x02; x03].


(** Two skincare rows of the same brand and name, at different prices,
    and a third row of another name. *)
Definition cream_a : Skincare.row :=
  Skincare.Row (Some "Acme") (Some "Cream") (Some "Moisturizer") 1000 40 0 0 0 0.
Definition cream_b : Skincare.row :=
  Skincare.Row (Some "Acme") (Some "Cream") (Some "Moisturizer") 2000 40 0 0 0 0.
Definition balm : Skincare.row :=
  Skincare.Row (Some "Acme") (Some "Balm") (Some "Treatment") 1500 45 1 0 1 0.

(** A LIKE operator for the samples: the pattern between its two [%]
    occurs in the text. *)
Fixpoint contains (text inner : string) : bool :=
  PyStr.startswith text inner
  || match text with
     | EmptyString => false
     | String _ rest => contains rest inner
     end.

Definition like (text pattern : string) : bool :=
  contains text (String.substring 1 (String.length pattern - 2) pattern).

(** The answers of an engine with a binary collation to a statement on
    [skincare_products]. *)
Definition skincare_answers :
    list Skincare.row → string → gmap string value → list Skincare.row → Prop :=
  Sql.answers Skincare.product_type Skincare.brand Skincare.product_name
    String.eqb like String.leb.

(** The statement of GET /api/skincare/products?limit=l&offset=o. *)
Definition skincare_page (limit offset : Z) : Products.statement :=
  Products.skincare_statement limit offset None None.

(** A remote end: page 1 times out, page 2 has one product, page 3 loses
    the connection, page 4 would have one more product. *)
Definition remote (page : nat) : Extract.reply :=
  match page with
  | 1%nat => Extract.Fails Extract.Timeout
  | 3%nat => Extract.Fails (Extract.RequestException "connection reset")
  | _ =>
      Extract.Decoded
        (JObject [("products",
                   JArray [JObject [("product_name", JString "Soap");
                                    ("brands", JString "Acme")]])])
  end.

(** 3 November 2026, 20:30:05. *)
Definition evening : Extract.datetime :=
  Extract.DateTime 2026 11 3 20 30 5.

(** Two small catalogues; the aggregates of the samples are sums. *)
Definition sum (l : list Z) : Z := foldr Z.add 0 l.



(** A driver that answers every statement with no row. *)
Definition no_rows : string → gmap string value → exn + list unit :=
  fun _ _ => inr [].

End Samples.

(* ===================================================================== *)
(** ** Extraction script: local files and database                        *)
(* ===================================================================== *)

Module Batch.

(** A Python [dict] whose order of insertion matters: [d[k] = v] replaces
    the value of a key in place, or appends the key. *)
Fixpoint dict_set {V} (d : list (string * V)) (k : string) (v : V)
    : list (string * V) :=
  match d with
  | [] => [(k, v)]
  | (k', v') :: rest =>
      if String.eqb k' k then (k', v) :: rest
      else (k', v') :: dict_set rest k v
  end.

(** [d.get(k)]. *)
Fixpoint dict_get {V} (d : list (string * V)) (k : string) : option V :=
  match d with
  | [] => None
  | (k', v) :: rest => if String.eqb k' k then Some v else dict_get rest k
  end.

(** [pd.DataFrame()]. *)
Definition no_frame : Extract.DataFrame := Extract.Frame [] [].

(** What [pd.read_excel], [pd.read_csv] or [pd.read_sql] ends in. *)
Inductive read : Type :=
| Loaded (df : Extract.DataFrame)
| FileNotFound                  (* FileNotFoundError *)
| ReadError (e : string).       (* any other Exception *)

(** [df.shape[1]]. *)
Definition width (df : Extract.DataFrame) : nat := length (Extract.columns df).

(** One of the three blocks of [extract_from_files]: [label] is the name
    in the log lines, [key] the key of the result, [path] the file. *)
Definition read_file (label key path : string) (r : read)
    (results : list (string * Extract.DataFrame)) (l : Extract.log)
    : list (string * Extract.DataFrame) * Extract.log :=
  let l := l ++ [(Extract.INFO, "  Lecture de " +:+ path +:+ " ...")] in
  match r with
  | Loaded df =>
      (dict_set results key df,
       l ++ [(Extract.INFO,
              "  ✓ " +:+ label +:+ " chargé : " +:+ pretty (Extract.len df)
              +:+ " lignes, " +:+ pretty (width df) +:+ " colonnes")])
  | FileNotFound =>
      (dict_set results key no_frame,
       l ++ [(Extract.ERROR, "  ✗ Fichier introuvable : " +:+ path)])
  | ReadError e =>
      (dict_set results key no_frame,
       l ++ [(Extract.ERROR,
              "  ✗ Erreur lors de la lecture " +:+ label +:+ " : " +:+ e)])
  end.

(** The three paths FILE_COSING, FILE_SEPHORA and FILE_SKINCARE. *)
Record paths : Type := Paths {
  FILE_COSING : string;
  FILE_SEPHORA : string;
  FILE_SKINCARE : string
}.

(** [extract_from_files()], over what the three reads end in. *)
Definition extract_from_files (p : paths) (cosing sephora skincare : read)
    (l : Extract.log) : list (string * Extract.DataFrame) * Extract.log :=
  let l := l ++ [(Extract.INFO, "── Source 1 : Extraction depuis les fichiers locaux ──")] in
  let results : list (string * Extract.DataFrame) := [] in
  let '(results, l) := read_file "COSING" "cosing" (FILE_COSING p) cosing results l in
  let '(results, l) := read_file "SEPHORA" "sephora" (FILE_SEPHORA p) sephora results l in
  let '(results, l) := read_file "SKINCARE" "skincare" (FILE_SKINCARE p) skincare results l in
  (results, l).

(** What the database does during [extract_from_database]: [connect] is
    the exception of [create_engine], [engine.connect()] or [SELECT 1], if
    any; [dispose] that of [engine.dispose()]. *)
Record database : Type := Database {
  connect : option string;
  read_sephora : Extract.DataFrame + string;
  read_skincare : Extract.DataFrame + string;
  dispose : option string
}.

(** One of the two inner [try] blocks. *)
Definition read_table (table key : string) (r : Extract.DataFrame + string)
    (results : list (string * Extract.DataFrame)) (l : Extract.log)
    : list (string * Extract.DataFrame) * Extract.log :=
  match r with
  | inl df =>
      (dict_set results key df,
       l ++ [(Extract.INFO,
              "  ✓ " +:+ table +:+ " : " +:+ pretty (Extract.len df)
              +:+ " lignes extraites")])
  | inr e =>
      (dict_set results key no_frame,
       l ++ [(Extract.ERROR, "  ✗ Erreur extraction " +:+ table +:+ " : " +:+ e)])
  end.

(** The outer [except] clause. *)
Definition database_ignored (e : string)
    (results : list (string * Extract.DataFrame)) (l : Extract.log)
    : list (string * Extract.DataFrame) * Extract.log :=
  (dict_set (dict_set results "db_sephora" no_frame) "db_skincare" no_frame,
   l ++ [(Extract.ERROR, "  ✗ Impossible de se connecter à MySQL : " +:+ e);
         (Extract.INFO,
          "  ⚠ Source MySQL ignorée — le script continue avec les autres sources.")]).

(** [extract_from_database()]; [target] is [host:port/db]. *)
Definition extract_from_database (target : string) (db : database)
    (l : Extract.log) : list (string * Extract.DataFrame) * Extract.log :=
  let l := l ++ [(Extract.INFO, "── Source 4 : Extraction depuis la base de données MySQL ──")] in
  let results : list (string * Extract.DataFrame) := [] in
  let l := l ++ [(Extract.INFO, "  Connexion à MySQL : " +:+ target +:+ " ...")] in
  match connect db with
  | Some e => database_ignored e results l
  | None =>
      let l := l ++ [(Extract.INFO, "  ✓ Connexion MySQL réussie")] in
      let '(results, l) :=
        read_table "sephora_products" "db_sephora" (read_sephora db) results l in
      let '(results, l) :=
        read_table "skincare_products" "db_skincare" (read_skincare db) results l in
      match dispose db with
      | Some e => database_ignored e results l
      | None => (results, l)
      end
  end.

(** The frame a read leaves under its key. *)
Definition frame_of (r : read) : Extract.DataFrame :=
  match r with
  | Loaded df => df
  | _ => no_frame
  end.

Definition table_of (r : Extract.DataFrame + string) : Extract.DataFrame :=
  match r with
  | inl df => df
  | inr _ => no_frame
  end.

(** The file [save_raw] writes for [name] at [now]. *)
Definition raw_path (raw_dir name : string) (now : Extract.datetime) : string :=
  raw_dir +:+ "/" +:+ name +:+ "_" +:+ Extract.strftime now +:+ ".csv".

(** A [datetime] whose year has four digits. *)
Definition four_digit_year (t : Extract.datetime) : Prop :=
  1000 ≤ Z.of_nat (Extract.year t) ≤ 9999 ∧ (Extract.month t ≤ 12)%nat ∧
  (Extract.day t ≤ 31)%nat ∧ (Extract.hour t ≤ 23)%nat ∧
  (Extract.minute t ≤ 59)%nat ∧ (Extract.second t ≤ 59)%nat.

End Batch.

(* ===================================================================== *)
(** ** The script of the eight statements                                 *)
(* ===================================================================== *)

Module RunQueries.

Definition q1 : string := "
    SELECT product_id, product_name, brand_name, product_type, price_usd, rating
    FROM sephora_products
    ORDER BY brand_name ASC, product_name ASC
    LIMIT 100
".

Definition q2 : string := "
    SELECT product_id, product_name, brand_name, product_type,
           price_usd, rating, restricted_ingredient_count, cmr_count
    FROM sephora_products
    WHERE has_restricted_ingredient = 1
    ORDER BY restricted_ingredient_count DESC
    LIMIT 50
".

Definition q3 : string := "
    SELECT product_id, product_name, brand_name, product_type,
           price_usd, rating, restricted_ingredient_count, cmr_count
    FROM sephora_products
    WHERE has_cmr = 1
      AND price_usd > 50
      AND rating IS NOT NULL
    ORDER BY cmr_count DESC, price_usd DESC
".

Definition q4 : string := "
    SELECT
        product_type,
        COUNT(*)                                                   AS total_produits,
        ROUND(AVG(restricted_ingredient_count), 2)                 AS moy_ingredients_restreints,
        ROUND(AVG(cmr_count), 2)                                   AS moy_cmr,
        SUM(has_restricted_ingredient)                             AS nb_produits_restreints,
        SUM(has_cmr)                                               AS nb_produits_cmr,
        ROUND(SUM(has_restricted_ingredient) / COUNT(*) * 100, 1)  AS pct_restreints,
        ROUND(SUM(has_cmr) / COUNT(*) * 100, 1)                    AS pct_cmr,
        MAX(restricted_ingredient_count)                           AS max_ingredients_restreints
    FROM sephora_products
    GROUP BY product_type
    HAVING COUNT(*) > 10
    ORDER BY pct_restreints DESC
".

Definition q5 : string := "
    SELECT
        brand_name,
        COUNT(*)                          AS total_produits,
        SUM(has_restricted_ingredient)    AS nb_produits_restreints,
        SUM(has_cmr)                      AS nb_produits_cmr,
        ROUND(AVG(price_usd), 2)          AS prix_moyen
    FROM sephora_products
    GROUP BY brand_name
    HAVING SUM(has_restricted_ingredient) > 0
    ORDER BY nb_produits_restreints DESC
    LIMIT 10
".

Definition q6 : string := "
    SELECT
        s.product_type,
        s.total_sephora,
        s.pct_restreints_sephora,
        s.prix_moyen_sephora,
        sk.total_skincare,
        sk.pct_restreints_skincare,
        sk.prix_moyen_skincare
    FROM (
        SELECT
            product_type,
            COUNT(*)                                                   AS total_sephora,
            ROUND(SUM(has_restricted_ingredient) / COUNT(*) * 100, 1)  AS pct_restreints_sephora,
            ROUND(AVG(price_usd), 2)                                   AS prix_moyen_sephora
        FROM sephora_products
        GROUP BY product_type
    ) s
    INNER JOIN (
        SELECT
            product_type,
            COUNT(*)                                                   AS total_skincare,
            ROUND(SUM(has_restricted_ingredient) / COUNT(*) * 100, 1)  AS pct_restreints_skincare,
            ROUND(AVG(price), 2)                                       AS prix_moyen_skincare
        FROM skincare_products
        GROUP BY product_type
    ) sk
    ON s.product_type = sk.product_type
    ORDER BY s.pct_restreints_sephora DESC
".

Definition q7 : string := "
    SELECT product_id, product_name, brand_name, product_type,
           restricted_ingredient_count, cmr_count
    FROM sephora_products
    WHERE restricted_ingredient_count > (
        SELECT AVG(restricted_ingredient_count)
        FROM sephora_products
    )
    ORDER BY restricted_ingredient_count DESC
    LIMIT 30
".

Definition q8 : string := "
    SELECT brand, product_name, product_type, price, rating,
           restricted_ingredient_count, cmr_count
    FROM skincare_products
    WHERE has_cmr = 1
    ORDER BY price DESC
".

(** One block of the script: the statement read, the file of OUTPUT_DIR
    the result is written to, and the label printed with its shape. *)
Record block : Type := Block {
  statement : string;
  file : string;
  label : string
}.

Definition blocks : list block :=
  [Block q1 "q1_sephora_base.csv" "Q1 — Extraction de base :";
   Block q2 "q2_produits_restreints.csv" "Q2 — Produits restreints :";
   Block q3 "q3_produits_risque_eleve.csv" "Q3 — Risque élevé (CMR + premium) :";
   Block q4 "q4_aggregation_par_type.csv" "Q4 — Agrégation par type :";
   Block q5 "q5_top10_marques.csv" "Q5 — Top 10 marques :";
   Block q6 "q6_jointure_sephora_skincare.csv" "Q6 — Jointure Sephora vs Skincare :";
   Block q7 "q7_dessus_moyenne.csv" "Q7 — Au-dessus de la moyenne :";
   Block q8 "q8_skincare_cmr.csv" "Q8 — Skincare CMR :"].

(** [OUTPUT_DIR / file]. *)
Definition path (output_dir : string) (b : block) : string :=
  output_dir +:+ "/" +:+ file b.

(** [df.shape]. *)
Definition shape (df : Extract.DataFrame) : nat * nat :=
  (Extract.len df, Batch.width df).

(** What a run of the script leaves behind: the exception that ended it,
    if any, the files of OUTPUT_DIR, the lines printed, and whether
    [engine.dispose()] was reached. *)
Record outcome : Type := Outcome {
  raised : option exn;
  written : Extract.files;
  printed : list (string * (nat * nat));
  disposed : bool
}.

(** The blocks in turn, then [engine.dispose()]: no block catches an
    exception of [pd.read_sql], and [to_csv] is called on every frame
    read, empty or not. *)
Fixpoint run_blocks (read_sql : string → exn + Extract.DataFrame)
    (output_dir : string) (bs : list block) (fs : Extract.files)
    (out : list (string * (nat * nat))) : outcome :=
  match bs with
  | [] => Outcome None fs out true
  | b :: rest =>
      match read_sql (statement b) with
      | inl e => Outcome (Some e) fs out false
      | inr df =>
          run_blocks read_sql output_dir rest
            (<[path output_dir b := df]> fs)
            (out ++ [(label b, shape df)])
      end
  end.

Definition run (read_sql : string → exn + Extract.DataFrame)
    (output_dir : string) (fs : Extract.files) : outcome :=
  run_blocks read_sql output_dir blocks fs [].

Section Q6.
Context {num : Type}.
Variable pct : list Z → num.
Variable avg : list num → num.
Variable ge : num → num → bool.

End Q6.

End RunQueries.

(* ===================================================================== *)
(** ** The extraction script as a whole                                   *)
(* ===================================================================== *)

Module Main.

(** [s * n]. *)
Fixpoint times (n : nat) (s : string) : string :=
  match n with
  | O => ""
  | S n => s +:+ times n s
  end.

(** [strftime("%Y-%m-%d %H:%M:%S")]. *)
Definition long_date (t : Extract.datetime) : string :=
  Extract.pad4 (Extract.year t) +:+ "-" +:+ Extract.pad2 (Extract.month t)
  +:+ "-" +:+ Extract.pad2 (Extract.day t) +:+ " "
  +:+ Extract.pad2 (Extract.hour t) +:+ ":" +:+ Extract.pad2 (Extract.minute t)
  +:+ ":" +:+ Extract.pad2 (Extract.second t).

(** One line of the report:
    [f"  {status}  {source:.<40} {count} lignes"]. *)
Definition report_line (entry : string * nat) : Extract.level * string :=
  let '(source, count) := entry in
  let status := if (0 <? count)%nat then "✓" else "✗ (vide)" in
  (Extract.INFO,
   "  " +:+ status +:+ "  " +:+ source
   +:+ times (40 - String.length source) "." +:+ " " +:+ pretty count
   +:+ " lignes").

(** What the script has done so far: the files of RAW_DIR, the log, the
    report, and how many times [datetime.now()] has been read. *)
Record state : Type := State {
  files : Extract.files;
  log : Extract.log;
  extraction_report : list (string * nat);
  readings : nat
}.

Definition logged (st : state) (l : Extract.log) : state :=
  {| files := files st; log := l;
     extraction_report := extraction_report st; readings := readings st |}.

Definition reported (st : state) (source : string) (count : nat) : state :=
  {| files := files st; log := log st;
     extraction_report := Batch.dict_set (extraction_report st) source count;
     readings := readings st |}.

(** What the environment gives during one run. The trace fields are the
    text of [{e}] and [traceback.format_exc()] of an exception that leaves
    an extractor, [duration] the text of [{duration:.2f}], and [scraping]
    what [extract_by_scraping()] returns and logs. *)
Record run : Type := Run {
  RAW_DIR : string;
  clock : nat → Extract.datetime;     (* the successive [datetime.now()] *)
  paths : Batch.paths;
  cosing : Batch.read;
  sephora : Batch.read;
  skincare : Batch.read;
  fetch : nat → Extract.reply;
  api_trace : string;
  scraping : option Extract.DataFrame * Extract.log;
  scraping_trace : string;
  target : string;
  db : Batch.database;
  duration : string
}.

Section Script.
Variable env : run.

(** [save_raw(name, df)] in the state of the script: the clock is read
    only when the frame is written. *)
Definition save_raw (name : string) (df : Extract.DataFrame) (st : state)
    : state :=
  let '(fs, l) :=
    Extract.save_raw (RAW_DIR env) name df (clock env (readings st))
      (files st) (log st) in
  {| files := fs; log := l;
     extraction_report := extraction_report st;
     readings := if Extract.empty df then readings st else S (readings st) |}.

(** [for name, df in data.items(): save_raw(name, df);
     extraction_report[prefix + name] = len(df)]. *)
Fixpoint save_all (prefix : string)
    (data : list (string * Extract.DataFrame)) (st : state) : state :=
  match data with
  | [] => st
  | (name, df) :: rest =>
      let st := save_raw name df st in
      save_all prefix rest (reported st (prefix +:+ name) (Extract.len df))
  end.

(** [main()]. The models of [extract_from_files], [save_raw] and
    [extract_from_database] raise nothing, so the [except] clauses of the
    first and the last block have no counterpart here. *)
Definition main (fs : Extract.files) (l : Extract.log) : state :=
  let start_time := clock env 0 in
  let st :=
    {| files := fs;
       log := l ++ [(Extract.INFO, times 60 "=");
                    (Extract.INFO,
                     "  DÉBUT DE L'EXTRACTION — " +:+ long_date start_time);
                    (Extract.INFO, times 60 "=")];
       extraction_report := [];
       readings := 1 |} in
  (* 1. Fichiers locaux *)
  let '(files_data, l) :=
    Batch.extract_from_files (paths env) (cosing env) (sephora env)
      (skincare env) (log st) in
  let st := save_all "fichier_" files_data (logged st l) in
  (* 2. API REST *)
  let st :=
    match Extract.extract_from_api (fetch env) 3 (log st) with
    | (Some api_data, l) =>
        let st := save_raw "api_open_beauty_facts" api_data (logged st l) in
        reported st "api_open_beauty_facts" (Extract.len api_data)
    | (None, l) =>
        logged st
          (l ++ [(Extract.ERROR,
                  "Erreur non gérée dans extract_from_api : "
                  +:+ api_trace env)])
    end in
  (* 3. Web Scraping *)
  let st :=
    match scraping env with
    | (Some scraping_data, lines) =>
        let st :=
          save_raw "scraping_wikipedia_cosmetics" scraping_data
            (logged st (log st ++ lines)) in
        reported st "scraping_wikipedia" (Extract.len scraping_data)
    | (None, lines) =>
        logged st
          (log st ++ lines
           ++ [(Extract.ERROR,
                "Erreur non gérée dans extract_by_scraping : "
                +:+ scraping_trace env)])
    end in
  (* 4. Base de données MySQL *)
  let '(db_data, l) :=
    Batch.extract_from_database (target env) (db env) (log st) in
  let st := save_all "" db_data (logged st l) in
  (* Rapport de synthèse *)
  {| files := files st;
     log := log st
            ++ [(Extract.INFO, times 60 "=");
                (Extract.INFO, "  RAPPORT D'EXTRACTION");
                (Extract.INFO, times 60 "=")]
            ++ map report_line (extraction_report st)
            ++ [(Extract.INFO,
                 "  Durée totale : " +:+ duration env +:+ " secondes");
                (Extract.INFO, times 60 "=")];
     extraction_report := extraction_report st;
     readings := S (readings st) |}.

End Script.

(** The frame [extract_from_database] leaves under a key. *)
Definition kept (d : Batch.database) (r : Extract.DataFrame + string)
    : Extract.DataFrame :=
  match Batch.connect d, Batch.dispose d with
  | None, None => Batch.table_of r
  | _, _ => Batch.no_frame
  end.

(** The names [main] saves snapshots under. *)
Definition snapshot_names : list string :=
  ["cosing"; "sephora"; "skincare"; "api_open_beauty_facts";
   "scraping_wikipedia_cosmetics"; "db_sephora"; "db_skincare"].

(** The frames the extractors returned, in the order [main] saves them. *)
Definition frames (env : run) : list Extract.DataFrame :=
  [Batch.frame_of (cosing env); Batch.frame_of (sephora env);
   Batch.frame_of (skincare env)]
  ++ option_list (fst (Extract.extract_from_api (fetch env) 3 []))
  ++ option_list (fst (scraping env))
  ++ [kept (db env) (Batch.read_sephora (db env));
      kept (db env) (Batch.read_skincare (db env))].

(** [p] is the file of a snapshot taken at one of the clock readings
    [1 .. hi - 1], under one of the names of [main]. *)
Definition snapshot (env : run) (hi : nat) (p : string) : Prop :=
  ∃ name k, name ∈ snapshot_names ∧ (1 ≤ k < hi)%nat ∧
            p = Batch.raw_path (RAW_DIR env) name (clock env k).

(** Since the files were [fs0], the script has only added or replaced
    snapshots of frames that are not empty, one for each reading of the
    clock after the first. *)
Definition snapshots_only (env : run) (fs0 : Extract.files) (st : state)
    : Prop :=
  (1 ≤ readings st)%nat ∧
  (size (files st) + 1 ≤ size fs0 + readings st)%nat ∧
  ∀ p, files st !! p = fs0 !! p ∨
       snapshot env (readings st) p ∧
       ∃ df, files st !! p = Some df ∧ Extract.empty df = false.

End Main.

(* ===================================================================== *)
(** ** Further sample inputs                                              *)
(* ===================================================================== *)

Module Cases.

Definition lipstick : Sephora.row :=
  Sephora.Row (Some "P1") (Some "Lipstick") (Some "Acme") (Some "Makeup")
    2000 45 2 0 1 0.
Definition gloss : Sephora.row :=
  Sephora.Row (Some "P2") (Some "Gloss") (Some "Acme") (Some "Makeup")
    1500 40 1 1 1 1.
Definition serum : Sephora.row :=
  Sephora.Row (Some "P3") (Some "Serum") (Some "Bello") (Some "Skincare")
    5000 40 0 0 0 0.
Definition toner : Sephora.row :=
  Sephora.Row (Some "P4") (Some "Toner") (Some "Calm") (Some "Skincare")
    3000 42 1 0 1 0.

Definition catalogue : list Sephora.row := [lipstick; gloss; serum; toner].

(** A driver that evaluates the lookup by identifier on [catalogue]. *)
Definition lookup_driver (q : string) (params : gmap string value)
    : exn + list Sephora.row :=
  match params !! "product_id" with
  | Some (VStr i) =>
      inr (List.filter
             (fun r => match Sephora.product_id r with
                       | Some j => String.eqb j i
                       | None => false
                       end) catalogue)
  | _ => inl (DriverError "missing parameter")
  end.

(** A database on which the statement [q3] fails and every other one
    gives a frame of one row. *)
Definition one_row : Extract.DataFrame :=
  Extract.Frame ["product_id"] [[JString "P1"]].

Definition failing_q3 (q : string) : exn + Extract.DataFrame :=
  if String.eqb q RunQueries.q3 then inl (DriverError "server has gone away")
  else inr one_row.

(** A remote end with two products on page 1 and none on page 2. *)
Definition two_products (page : nat) : Extract.reply :=
  match page with
  | 1%nat =>
      Extract.Decoded
        (JObject [("products",
                   JArray [JObject [("product_name", JString "Soap")];
                           JObject [("code", JString "42")]])])
  | _ => Extract.Decoded (JObject [])
  end.

(** A remote end whose second page is not JSON (an HTML error page). *)
Definition html_on_page_2 (page : nat) : Extract.reply :=
  match page with
  | 2%nat =>
      Extract.Fails
        (Extract.JSONDecodeError "Expecting value: line 1 column 1 (char 0)")
  | _ =>
      Extract.Decoded
        (JObject [("products", JArray [JObject [("code", JString "7")]])])
  end.



(** A run in which the remote end answers with JSON that is no object,
    the three files are missing and the database cannot be reached. *)
Definition bad_run : Main.run :=
  {| Main.RAW_DIR := "data/raw";
     Main.clock := fun k => Extract.DateTime 2026 11 3 20 30 k;
     Main.paths := Batch.Paths "a.xls" "b.csv" "c.csv";
     Main.cosing := Batch.FileNotFound;
     Main.sephora := Batch.Loaded one_row;
     Main.skincare := Batch.ReadError "bad file";
     Main.fetch := fun _ => Extract.Decoded (JArray []);
     Main.api_trace := "AttributeError";
     Main.scraping := (Some Batch.no_frame, []);
     Main.scraping_trace := "";
     Main.target := "localhost:3306/cosmetics_regulatory_db";
     Main.db := Batch.Database (Some "refused") (inl one_row) (inl one_row) None;
     Main.duration := "0.10" |}.

(** A run in which no source gives a row. *)
Definition quiet_run : Main.run :=
  {| Main.RAW_DIR := "data/raw";
     Main.clock := fun k => Extract.DateTime 2026 11 3 20 30 k;
     Main.paths := Batch.Paths "a.xls" "b.csv" "c.csv";
     Main.cosing := Batch.FileNotFound;
     Main.sephora := Batch.FileNotFound;
     Main.skincare := Batch.ReadError "bad file";
     Main.fetch := fun _ => Extract.Decoded (JArray []);
     Main.api_trace := "AttributeError";
     Main.scraping := (Some Batch.no_frame, []);
     Main.scraping_trace := "";
     Main.target := "localhost:3306/cosmetics_regulatory_db";
     Main.db := Batch.Database (Some "refused") (inl one_row) (inl one_row) None;
     Main.duration := "0.10" |}.

End Cases.

(* ===================================================================== *)
(** ** Proof steps                                                        *)
(* ===================================================================== *)

(** Settles a fact on the text of a statement by the four cases of the
    filters: the text does not depend on what the user sent. *)
Ltac by_filter_cases ty br :=
  destruct ty as [[|? ?]|], br as [[|? ?]|]; vm_compute; reflexivity.

(** Shows that [rows] answers a statement, from the page bounds and the
    order in which the engine laid the selected rows out. *)
Ltac answer_with limit offset view :=
  exists limit, offset, view;
  split; [by vm_compute|];
  split; [by vm_compute|];
  split; [lia|]; split; [lia|];
  split; [vm_compute; first [reflexivity | apply perm_swap]|];
  split; [repeat constructor|reflexivity].

(* ===================================================================== *)
(** * Properties                                                          *)
(* ===================================================================== *)

(** ** The helpers on concrete inputs *)

Example split_two_fields : PyStr.split " " "Bearer abc" = ["Bearer"; "abc"].
Proof. reflexivity. Qed.

Example split_keeps_empty_fields :
  PyStr.split " " "" = [""] ∧ PyStr.split " " " a  b" = [""; "a"; ""; "b"].
Proof. split; reflexivity. Qed.

Example occurrences_counts :
  PyStr.occurrences "ab" "abcabab" = 3%nat ∧ PyStr.occurrences "%" "a=b" = 0%nat.
Proof. split; reflexivity. Qed.

Example token_of_three_bytes : Secrets.token_urlsafe [x01; x02; x03] = "AQID".
Proof. reflexivity. Qed.

Example token_of_short_groups :
  Secrets.token_urlsafe [xff] = "_w" ∧ Secrets.token_urlsafe [xff; xfe] = "__4" ∧
  Secrets.token_urlsafe [xfb; xef; xbe; x00] = "----AA".
Proof. repeat split; reflexivity. Qed.

Example token_of_32_bytes_has_43_characters :
  String.length (Secrets.token_urlsafe (replicate 32 x5a)) = 43%nat.
Proof. reflexivity. Qed.

Example int_of_numerals :
  PyInt.int "25" = inr 25 ∧ PyInt.int " 7 " = inr 7 ∧ PyInt.int "-3" = inr (-3) ∧
  PyInt.int "+12" = inr 12 ∧ PyInt.int "1_000" = inr 1000 ∧
  PyInt.int "007" = inr 7.
Proof. repeat split; reflexivity. Qed.

Example int_of_non_numerals :
  PyInt.int "abc" = inl (ValueError "abc") ∧ PyInt.int "" = inl (ValueError "") ∧
  PyInt.int "1__0" = inl (ValueError "1__0") ∧
  PyInt.int "- 5" = inl (ValueError "- 5") ∧
  PyInt.int "2.5" = inl (ValueError "2.5") ∧
  PyInt.int "5_" = inl (ValueError "5_") ∧
  PyInt.int "+-5" = inl (ValueError "+-5").
Proof. repeat split; reflexivity. Qed.

Example strftime_pads :
  Extract.strftime Samples.evening = "20261103_203005".
Proof. reflexivity. Qed.

Example mapped_values :
  Comparaison.mapped (Some "Eye Cream") = Some "Skincare" ∧
  Comparaison.mapped (Some "Fragrance") = Some "Fragrance" ∧
  Comparaison.mapped (Some "moisturizer") = Some "moisturizer" ∧
  Comparaison.mapped None = None.
Proof. repeat split; reflexivity. Qed.

(** A whole exchange: a token is issued at instant 1000, opens the Sephora
    list at 2000, and the request [?limit=abc] with the same token is
    answered by the handler with status 500. *)
Example issue_then_list :
  let issued :=
    Auth.get_token (R := unit) Auth.default_config Samples.login
      Samples.entropy 1000 ∅ in
  let req (a : gmap string string) :=
    {| headers := {[ "Authorization" := "Bearer AQID" ]}; args := a;
       body := None |} in
  fst issued = (Token "AQID" 3600 4600, 200) ∧
  fst (Products.api_sephora_products Samples.no_rows (req ∅) 2000 (snd issued))
  = (Page [] 0 50 0, 200) ∧
  fst (Products.api_sephora_products Samples.no_rows
         (req {[ "limit" := "abc" ]}) 2000 (snd issued))
  = (ErrorOf (ValueError "abc"), 500) ∧
  fst (Products.api_sephora_products Samples.no_rows (req ∅) 4601 (snd issued))
  = (Error Auth.msg_expired, 401) ∧
  fst (Products.api_sephora_products Samples.no_rows (req ∅) 2000 ∅)
  = (Error Auth.msg_unknown, 401).
Proof. repeat split; by vm_compute. Qed.

(** ** Strings and tokens *)

Lemma split_nonempty (sep : ascii) (s : string) : PyStr.split sep s ≠ [].
Proof.
  destruct s as [|c r]; simpl; [done|].
  destruct (Ascii.eqb c sep); [done|].
  by destruct (PyStr.split sep r).
Qed.

Lemma split_without_separator (sep : ascii) (s : string) :
  PyStr.mem sep s = false → PyStr.split sep s = [s].
Proof.
  induction s as [|c r IH]; simpl; [done|].
  intros H. apply orb_false_iff in H as [Hc Hr].
  rewrite Hc, (IH Hr). done.
Qed.

Lemma bearer_unfold (tok : string) :
  "Bearer " +:+ tok =
  String "B" (String "e" (String "a" (String "r" (String "e" (String "r"
    (String " " tok)))))).
Proof. reflexivity. Qed.

Lemma startswith_bearer (tok : string) :
  PyStr.startswith ("Bearer " +:+ tok) "Bearer " = true.
Proof. rewrite bearer_unfold. reflexivity. Qed.

Lemma split_bearer (tok : string) :
  PyStr.mem " " tok = false →
  PyStr.split " " ("Bearer " +:+ tok) = ["Bearer"; tok].
Proof.
  intros H. rewrite bearer_unfold. simpl.
  by rewrite (split_without_separator _ _ H).
Qed.

Lemma prefix_inv (p s : string) :
  PyStr.startswith s p = true → ∃ r, s = p +:+ r.
Proof.
  revert s. induction p as [|c p IH]; intros s H.
  - by exists s.
  - destruct s as [|d s]; [done|]. simpl in H.
    apply andb_true_iff in H as [Hc H].
    apply Ascii.eqb_eq in Hc as ->.
    destruct (IH _ H) as [r ->]. by exists r.
Qed.

(** After the [startswith] test, [split(" ")[1]] always exists. *)
Lemma split_second_field (h : string) :
  PyStr.startswith h "Bearer " = true →
  is_Some (PyStr.split " " h !! 1%nat).
Proof.
  intros H. destruct (prefix_inv _ _ H) as [r ->].
  rewrite bearer_unfold. simpl.
  pose proof (split_nonempty " " r) as Hne.
  destruct (PyStr.split " " r); [done|]. by eexists.
Qed.

Lemma sextet_table :
  forallb (fun k => negb (Ascii.eqb (Secrets.sextet (N.of_nat k)) " "))
          (seq 0 64) = true.
Proof. vm_compute. reflexivity. Qed.

Lemma sextet_not_space (n : N) : Ascii.eqb (Secrets.sextet n) " " = false.
Proof.
  assert (Hn : Secrets.sextet n = Secrets.sextet (N.of_nat (N.to_nat (n mod 64)))).
  { unfold Secrets.sextet. rewrite N2Nat.id, N.Div0.mod_mod. done. }
  rewrite Hn.
  pose proof sextet_table as T. rewrite forallb_forall in T.
  apply negb_true_iff, T, in_seq.
  assert (Hlt : (n `mod` 64 < 64)%N) by (by apply N.mod_upper_bound).
  revert Hlt. generalize (n `mod` 64)%N. intros m Hlt. lia.
Qed.

Lemma list_ind_by_three {A} (P : list A → Prop) :
  P [] → (∀ a, P [a]) → (∀ a b, P [a; b]) →
  (∀ a b c rest, P rest → P (a :: b :: c :: rest)) →
  ∀ l, P l.
Proof.
  intros H0 H1 H2 H3.
  assert (H : ∀ l, P l ∧ (∀ a, P (a :: l)) ∧ (∀ a b, P (a :: b :: l))).
  { induction l as [|x l (Ha & Hb & Hc)]; [by auto|].
    split; [apply Hb|]. split; [intros a; apply Hc|].
    intros a b. by apply H3. }
  intros l. apply H.
Qed.

(** A generated token holds no space. *)
Lemma token_urlsafe_no_space (entropy : list byte) :
  PyStr.mem " " (Secrets.token_urlsafe entropy) = false.
Proof.
  unfold Secrets.token_urlsafe.
  induction entropy as [|a|a b|a b c rest IH] using list_ind_by_three;
    cbn [Secrets.urlsafe_b64 PyStr.mem];
    rewrite ?sextet_not_space; cbn [orb]; done.
Qed.

Lemma presented_bearer (tok : string) :
  PyStr.mem " " tok = false → Auth.presented (Auth.bearer tok) = Some tok.
Proof.
  intros H. unfold Auth.presented, Auth.bearer. cbn [headers].
  rewrite lookup_singleton_eq. cbn [default]. cbv zeta. unfold id.
  rewrite startswith_bearer, split_bearer by done. done.
Qed.

(** ** The authentication check *)

(** [require_auth], read through the token the request presents. *)
Lemma require_auth_cases {A} (f : request → A) req now
    (store : gmap string Z) :
  Auth.require_auth f req now store =
  match Auth.presented req with
  | None => (Auth.Refused Auth.msg_malformed 401, store)
  | Some tok =>
      match store !! tok with
      | None => (Auth.Refused Auth.msg_unknown 401, store)
      | Some expiry =>
          if now >? expiry
          then (Auth.Refused Auth.msg_expired 401, delete tok store)
          else (Auth.Called (f req), store)
      end
  end.
Proof.
  unfold Auth.require_auth, Auth.presented.
  destruct (PyStr.startswith _ _) eqn:Hp; cbn [negb]; [|done].
  destruct (split_second_field _ Hp) as [tok ->]. done.
Qed.

Lemma accepted_iff {A} (f : request → A) req now (store : gmap string Z) :
  Auth.accepted (Auth.require_auth f req now store) = true ↔
  ∃ tok expiry,
    Auth.presented req = Some tok ∧ store !! tok = Some expiry ∧ now ≤ expiry.
Proof.
  rewrite require_auth_cases. unfold Auth.accepted.
  destruct (Auth.presented req) as [tok|]; cbn.
  - destruct (store !! tok) as [e|] eqn:Hs; cbn.
    + destruct (Z.gtb_spec now e); cbn; split.
      * done.
      * intros (t & e' & [= <-] & He & Hle). simplify_eq. lia.
      * intros _. exists tok, e. repeat split; [done|lia].
      * done.
    + split; [done|]. intros (t & e' & [= <-] & He & _). congruence.
  - split; [done|]. by intros (t & e' & ? & _).
Qed.

(** A call leaves every token it neither draws nor evicts as it is. *)
Lemma step_other cfg (store : gmap string Z) (c : Auth.call) (tok : string) :
  Auth.drawn c ≠ Some tok →
  Auth.step cfg store c !! tok = store !! tok ∨
  Auth.step cfg store c !! tok = None.
Proof.
  intros Hd.
  destruct c as [req entropy now | req now];
    cbn [Auth.step Auth.drawn] in *.
  - unfold Auth.get_token.
    destruct (body req) as [data|]; [|by left].
    destruct (negb (Json.truthy data)); [by left|].
    destruct data; try by left.
    destruct (_ || _); [by left|]. cbn [snd].
    left. apply lookup_insert_ne. congruence.
  - rewrite require_auth_cases.
    destruct (Auth.presented req) as [t|]; [|by left].
    destruct (store !! t) eqn:Ht; [|by left].
    destruct (_ >? _); [|by left]. cbn [snd].
    destruct (decide (t = tok)) as [->|Hne].
    + right. apply lookup_delete_eq.
    + left. by apply lookup_delete_ne.
Qed.

(** A call that reads the clock no later than the expiry of a stored
    token, and does not draw it, keeps it. *)
Lemma step_keeps cfg (store : gmap string Z) (c : Auth.call) tok expiry :
  Auth.drawn c ≠ Some tok → Auth.clock c ≤ expiry →
  store !! tok = Some expiry →
  Auth.step cfg store c !! tok = Some expiry.
Proof.
  intros Hd Hc Hs.
  destruct c as [req entropy now | req now];
    cbn [Auth.step Auth.drawn Auth.clock] in *.
  - unfold Auth.get_token.
    destruct (body req) as [data|]; [|done].
    destruct (negb (Json.truthy data)); [done|].
    destruct data; try done.
    destruct (_ || _); [done|]. cbn [snd].
    rewrite lookup_insert_ne by congruence. done.
  - rewrite require_auth_cases.
    destruct (Auth.presented req) as [t|]; [|done].
    destruct (store !! t) as [e|] eqn:Ht; [|done].
    destruct (Z.gtb_spec now e); [|done]. cbn [snd].
    rewrite lookup_delete_ne; [done|]. intros ->. simplify_eq. lia.
Qed.

Lemma run_absent cfg (cs : list Auth.call) (store : gmap string Z) tok :
  Forall (fun c => Auth.drawn c ≠ Some tok) cs →
  store !! tok = None → Auth.run cfg store cs !! tok = None.
Proof.
  unfold Auth.run. revert store.
  induction cs as [|c cs IH]; intros store Hcs Hs; [done|].
  inversion Hcs as [|? ? Hc Hcs']; subst. cbn. apply IH; [done|].
  destruct (step_other cfg store c tok Hc) as [H|H]; congruence.
Qed.

Lemma run_at_most cfg (cs : list Auth.call) (store : gmap string Z) tok e :
  Forall (fun c => Auth.drawn c ≠ Some tok) cs →
  store !! tok = Some e →
  Auth.run cfg store cs !! tok = Some e ∨ Auth.run cfg store cs !! tok = None.
Proof.
  unfold Auth.run. revert store.
  induction cs as [|c cs IH]; intros store Hcs Hs; [by left|].
  inversion Hcs as [|? ? Hc Hcs']; subst. cbn.
  destruct (step_other cfg store c tok Hc) as [H|H].
  - apply IH; [done|congruence].
  - right. by apply (run_absent cfg cs).
Qed.

Lemma run_keeps cfg (cs : list Auth.call) (store : gmap string Z) tok e :
  Forall (fun c => Auth.drawn c ≠ Some tok) cs →
  Forall (fun c => Auth.clock c ≤ e) cs →
  store !! tok = Some e → Auth.run cfg store cs !! tok = Some e.
Proof.
  unfold Auth.run. revert store.
  induction cs as [|c cs IH]; intros store Hcs Hcl Hs; [done|].
  inversion Hcs; inversion Hcl; subst. cbn. apply IH; [done..|].
  by apply step_keeps.
Qed.

(** What a successful [get_token] returns and stores. *)
Lemma get_token_ok {R} cfg req entropy now (store : gmap string Z) :
  status (fst (Auth.get_token (R := R) cfg req entropy now store)) = 200 →
  Auth.get_token (R := R) cfg req entropy now store =
  ((Token (Secrets.token_urlsafe entropy) (Auth.TOKEN_EXPIRY_SECONDS cfg)
      (now + Auth.TOKEN_EXPIRY_SECONDS cfg), 200),
   <[Secrets.token_urlsafe entropy := now + Auth.TOKEN_EXPIRY_SECONDS cfg]> store).
Proof.
  unfold Auth.get_token, status.
  destruct (body req) as [data|]; [|done].
  destruct (negb (Json.truthy data)); [done|].
  destruct data; try done.
  by destruct (_ || _).
Qed.


(** ** Claims on the token store *)

(** C1. [require_auth] lets a request through exactly when the token it
    presents is in the store and the clock has not passed the stored
    expiry. A token given out by a successful [get_token] at [t0] is stored
    with expiry [t0 + TOKEN_EXPIRY_SECONDS]; after any later calls that do
    not draw the same token again, it is accepted at every instant [now]
    up to that expiry (the earlier calls having read the clock no later
    than [now]) and refused at every instant after it. *)
Theorem token_accepted_iff_stored_and_unexpired :
  (∀ A (f : request → A) (req : request) (now : Z) (store : gmap string Z),
     Auth.accepted (Auth.require_auth f req now store) = true ↔
     ∃ tok expiry,
       Auth.presented req = Some tok ∧ store !! tok = Some expiry ∧
       now ≤ expiry)
  ∧
  (∀ R (cfg : Auth.config) (ireq : request) (entropy : list byte) (t0 : Z)
     (store : gmap string Z),
     let issued := Auth.get_token (R := R) cfg ireq entropy t0 store in
     let tok := Secrets.token_urlsafe entropy in
     let expiry := t0 + Auth.TOKEN_EXPIRY_SECONDS cfg in
     status (fst issued) = 200 →
     fst issued = (Token tok (Auth.TOKEN_EXPIRY_SECONDS cfg) expiry, 200) ∧
     snd issued !! tok = Some expiry ∧
     ∀ (cs : list Auth.call) A (f : request → A) (now : Z),
       Forall (fun c => Auth.drawn c ≠ Some tok) cs →
       let later := Auth.run cfg (snd issued) cs in
       (now ≤ expiry → Forall (fun c => Auth.clock c ≤ now) cs →
        Auth.require_auth f (Auth.bearer tok) now later
        = (Auth.Called (f (Auth.bearer tok)), later)) ∧
       (expiry < now →
        Auth.accepted (Auth.require_auth f (Auth.bearer tok) now later)
        = false)).
Proof.
  split; [intros; apply accepted_iff|].
  intros R cfg ireq entropy t0 store issued tok expiry Hok.
  pose proof (get_token_ok cfg ireq entropy t0 store Hok) as Heq.
  fold issued tok expiry in Heq.
  assert (Hs : snd issued !! tok = Some expiry).
  { rewrite Heq. cbn [snd]. apply lookup_insert_eq. }
  split; [by rewrite Heq|]. split; [done|].
  intros cs A f now Hcs later.
  assert (Hp : Auth.presented (Auth.bearer tok) = Some tok)
    by apply presented_bearer, token_urlsafe_no_space.
  split.
  - intros Hnow Hclock.
    assert (Hl : later !! tok = Some expiry).
    { apply run_keeps; [done| |done].
      eapply Forall_impl; [exact Hclock|]. cbn. intros; lia. }
    rewrite require_auth_cases, Hp, Hl.
    destruct (Z.gtb_spec now expiry); [lia|done].
  - intros Hnow.
    destruct (Auth.accepted _) eqn:Hacc; [|done].
    apply accepted_iff in Hacc as (t & e & Ht & He & Hle).
    rewrite Hp in Ht. injection Ht as <-.
    destruct (run_at_most cfg cs (snd issued) tok expiry Hcs Hs) as [H|H];
      fold later in H; rewrite H in He; [|done].
    injection He as <-. lia.
Qed.

(** C2. When a request presents a stored token after its expiry, it is
    refused with status 401 and the "expired" message, and the token is
    deleted. From then on, after any further calls that do not draw the
    same token again, every request with that token is refused with status
    401, whatever the clock says, always with the same "unknown token"
    message, and the store is left as it is. *)
Theorem evicted_token_stays_rejected :
  ∀ (cfg : Auth.config) A (f : request → A) (req : request) (tok : string)
    (expiry now : Z) (store : gmap string Z),
    Auth.presented req = Some tok →
    store !! tok = Some expiry →
    expiry < now →
    Auth.require_auth f req now store
    = (Auth.Refused Auth.msg_expired 401, delete tok store) ∧
    ∀ (cs : list Auth.call) B (g : request → B) (now' : Z),
      Forall (fun c => Auth.drawn c ≠ Some tok) cs →
      let later := Auth.run cfg (delete tok store) cs in
      Auth.require_auth g req now' later
      = (Auth.Refused Auth.msg_unknown 401, later) ∧
      Auth.accepted (Auth.require_auth g req now' later) = false.
Proof.
  intros cfg A f req tok expiry now store Hp Hs Hlt. split.
  - rewrite require_auth_cases, Hp, Hs.
    destruct (Z.gtb_spec now expiry); [done|lia].
  - intros cs B g now' Hcs later.
    assert (Hl : later !! tok = None).
    { apply run_absent; [done|]. apply lookup_delete_eq. }
    assert (Heq : Auth.require_auth g req now' later
                  = (Auth.Refused Auth.msg_unknown 401, later))
      by (by rewrite require_auth_cases, Hp, Hl).
    split; [done|]. by rewrite Heq.
Qed.


Lemma token_accepted_witness :
  status (fst (Auth.get_token (R := unit) Auth.default_config Samples.login
                 Samples.entropy 1000 ∅)) = 200 ∧
  Auth.require_auth (fun _ => tt) (Auth.bearer "AQID") 4600
    (Auth.run Auth.default_config
       (snd (Auth.get_token (R := unit) Auth.default_config Samples.login
               Samples.entropy 1000 ∅))
       [Auth.Api (Auth.bearer "AQID") 2000; Auth.Api (Auth.bearer "zzzz") 3000])
  = (Auth.Called tt,
     Auth.run Auth.default_config
       (snd (Auth.get_token (R := unit) Auth.default_config Samples.login
               Samples.entropy 1000 ∅))
       [Auth.Api (Auth.bearer "AQID") 2000; Auth.Api (Auth.bearer "zzzz") 3000]) ∧
  Auth.accepted
    (Auth.require_auth (fun _ => tt) (Auth.bearer "AQID") 4601
       (Auth.run Auth.default_config
          (snd (Auth.get_token (R := unit) Auth.default_config Samples.login
                  Samples.entropy 1000 ∅))
          [Auth.Api (Auth.bearer "AQID") 2000; Auth.Api (Auth.bearer "zzzz") 3000]))
  = false.
Proof.
  assert (H : status (fst (Auth.get_token (R := unit) Auth.default_config
                             Samples.login Samples.entropy 1000 ∅)) = 200)
    by reflexivity.
  split; [exact H|].
  destruct (proj2 token_accepted_iff_stored_and_unexpired unit
              Auth.default_config Samples.login Samples.entropy 1000 ∅ H)
    as (_ & _ & Hlater).
  assert (Hcs : Forall (fun c => Auth.drawn c ≠ Some (Secrets.token_urlsafe Samples.entropy))
                  [Auth.Api (Auth.bearer "AQID") 2000;
                   Auth.Api (Auth.bearer "zzzz") 3000])
    by (repeat constructor; discriminate).
  split.
  - apply (proj1 (Hlater _ unit (fun _ => tt) 4600 Hcs)).
    + cbn. lia.
    + repeat constructor; cbn; lia.
  - apply (proj2 (Hlater _ unit (fun _ => tt) 4601 Hcs)). cbn. lia.
Defined.

Lemma evicted_token_witness :
  Auth.presented (Auth.bearer "AQID") = Some "AQID" ∧
  ({[ "AQID" := 4600 ]} : gmap string Z) !! "AQID" = Some 4600 ∧
  4600 < 5000 ∧
  Auth.require_auth (fun _ => tt) (Auth.bearer "AQID") 5000 {[ "AQID" := 4600 ]}
  = (Auth.Refused Auth.msg_expired 401, delete "AQID" {[ "AQID" := 4600 ]}) ∧
  Auth.accepted
    (Auth.require_auth (fun _ => tt) (Auth.bearer "AQID") 4000
       (Auth.run Auth.default_config (delete "AQID" {[ "AQID" := 4600 ]})
          [Auth.Issue Samples.login [x09; x09; x09] 5001]))
  = false.
Proof.
  assert (H1 : Auth.presented (Auth.bearer "AQID") = Some "AQID") by reflexivity.
  assert (H2 : ({[ "AQID" := 4600 ]} : gmap string Z) !! "AQID" = Some 4600)
    by reflexivity.
  assert (H3 : 4600 < 5000) by lia.
  destruct (evicted_token_stays_rejected Auth.default_config unit
              (fun _ => tt) (Auth.bearer "AQID") "AQID" 4600 5000
              {[ "AQID" := 4600 ]} H1 H2 H3) as [Hfirst Hlater].
  split; [exact H1|]. split; [exact H2|]. split; [exact H3|].
  split; [exact Hfirst|].
  apply (Hlater [Auth.Issue Samples.login [x09; x09; x09] 5001] unit
           (fun _ => tt) 4000).
  repeat constructor. cbn. discriminate.
Defined.


(** ** Claims on the product list handlers *)






(** The statements are one of four texts each: what the user sent goes to
    the bound parameters only. *)
Lemma sephora_statement_text limit offset ty br :
  fst (Products.sephora_statement limit offset ty br) =
  Products.sephora_select
  +:+ (if Products.present ty then " AND product_type = :product_type" else "")
  +:+ (if Products.present br then " AND brand_name LIKE :brand" else "")
  +:+ " ORDER BY brand_name ASC, product_name ASC LIMIT :limit OFFSET :offset".
Proof. by destruct ty as [[|??]|], br as [[|??]|]. Qed.

Lemma skincare_statement_text limit offset ty br :
  fst (Products.skincare_statement limit offset ty br) =
  Products.skincare_select
  +:+ (if Products.present ty then " AND product_type = :product_type" else "")
  +:+ (if Products.present br then " AND brand LIKE :brand" else "")
  +:+ " ORDER BY brand ASC, product_name ASC LIMIT :limit OFFSET :offset".
Proof. by destruct ty as [[|??]|], br as [[|??]|]. Qed.

Lemma sephora_statement_params limit offset ty br :
  snd (Products.sephora_statement limit offset ty br) =
  <["offset" := VInt offset]> (<["limit" := VInt limit]>
    ((if Products.present br
      then <["brand" := VStr ("%" +:+ default "" br +:+ "%")]> else id)
     ((if Products.present ty
       then <["product_type" := VStr (default "" ty)]> else id) ∅))).
Proof. by destruct ty as [[|??]|], br as [[|??]|]. Qed.

Lemma skincare_statement_params limit offset ty br :
  snd (Products.skincare_statement limit offset ty br) =
  snd (Products.sephora_statement limit offset ty br).
Proof. by destruct ty as [[|??]|], br as [[|??]|]. Qed.

Lemma statement_occurrences limit offset ty br :
  let n (b : bool) : nat := if b then 1%nat else 0%nat in
  let q1 := fst (Products.sephora_statement limit offset ty br) in
  let q2 := fst (Products.skincare_statement limit offset ty br) in
  PyStr.occurrences " AND product_type = :product_type" q1 = n (Products.present ty) ∧
  PyStr.occurrences " AND brand_name LIKE :brand" q1 = n (Products.present br) ∧
  PyStr.occurrences " AND product_type = :product_type" q2 = n (Products.present ty) ∧
  PyStr.occurrences " AND brand LIKE :brand" q2 = n (Products.present br) ∧
  PyStr.occurrences " AND " q1 = (n (Products.present ty) + n (Products.present br))%nat ∧
  PyStr.occurrences " AND " q2 = (n (Products.present ty) + n (Products.present br))%nat ∧
  PyStr.occurrences " LIKE :brand" q1 = n (Products.present br) ∧
  PyStr.occurrences " LIKE :brand" q2 = n (Products.present br) ∧
  PyStr.occurrences "%" q1 = 0%nat ∧ PyStr.occurrences "%" q2 = 0%nat.
Proof. repeat split; by_filter_cases ty br. Qed.

(** What the WHERE clause of a built statement selects. *)
Lemma where_clause_of_statement {row} (type_of brand_of : row → option string)
    (eq_op like_op : string → string → bool) limit offset ty br (r : row) :
  let expected :=
    (if Products.present ty then
       match type_of r with
       | Some t => eq_op t (default "" ty)
       | None => false
       end
     else true)
    &&
    (if Products.present br then
       match brand_of r with
       | Some b => like_op b ("%" +:+ default "" br +:+ "%")
       | None => false
       end
     else true) in
  Sql.where_clause type_of brand_of eq_op like_op
    (fst (Products.sephora_statement limit offset ty br))
    (snd (Products.sephora_statement limit offset ty br)) r = expected ∧
  Sql.where_clause type_of brand_of eq_op like_op
    (fst (Products.skincare_statement limit offset ty br))
    (snd (Products.skincare_statement limit offset ty br)) r = expected.
Proof.
  intros expected. subst expected.
  destruct (statement_occurrences limit offset ty br)
    as (H1 & _ & H2 & _ & _ & _ & H3 & H4 & _).
  unfold Sql.where_clause, Sql.has_clause, Sql.bound.
  rewrite H1, H2, H3, H4, skincare_statement_params, sephora_statement_params.
  destruct ty as [[|??]|], br as [[|??]|]; cbn -[String.append];
    simplify_map_eq; done.
Qed.

(** C4 (as the code has it). A built statement holds a clause on a column
    exactly when the filter of that column is present and not the empty
    string: then there is exactly one clause, an equality on [product_type]
    bound to the value sent, or a LIKE on the brand column bound to the
    value between two [%]. Otherwise the text holds no clause on that
    column, no parameter is bound for it (no wildcard stands in), and the
    WHERE clause does not read the column. *)
Theorem filter_clause_iff_filter_non_empty :
  ∀ (limit offset : Z) (ty br : option string),
    let n (b : bool) : nat := if b then 1%nat else 0%nat in
    let s1 := Products.sephora_statement limit offset ty br in
    let s2 := Products.skincare_statement limit offset ty br in
    (fst s1 =
       Products.sephora_select
       +:+ (if Products.present ty then " AND product_type = :product_type" else "")
       +:+ (if Products.present br then " AND brand_name LIKE :brand" else "")
       +:+ " ORDER BY brand_name ASC, product_name ASC LIMIT :limit OFFSET :offset" ∧
     fst s2 =
       Products.skincare_select
       +:+ (if Products.present ty then " AND product_type = :product_type" else "")
       +:+ (if Products.present br then " AND brand LIKE :brand" else "")
       +:+ " ORDER BY brand ASC, product_name ASC LIMIT :limit OFFSET :offset")
    ∧
    (PyStr.occurrences " AND product_type = :product_type" (fst s1) = n (Products.present ty) ∧
     PyStr.occurrences " AND brand_name LIKE :brand" (fst s1) = n (Products.present br) ∧
     PyStr.occurrences " AND product_type = :product_type" (fst s2) = n (Products.present ty) ∧
     PyStr.occurrences " AND brand LIKE :brand" (fst s2) = n (Products.present br) ∧
     PyStr.occurrences " AND " (fst s1) = (n (Products.present ty) + n (Products.present br))%nat ∧
     PyStr.occurrences " AND " (fst s2) = (n (Products.present ty) + n (Products.present br))%nat ∧
     PyStr.occurrences "%" (fst s1) = 0%nat ∧
     PyStr.occurrences "%" (fst s2) = 0%nat)
    ∧
    (snd s2 = snd s1 ∧
     snd s1 !! "product_type" =
       (if Products.present ty then VStr <$> ty else None) ∧
     snd s1 !! "brand" =
       (if Products.present br
        then (fun b => VStr ("%" +:+ b +:+ "%")) <$> br else None))
    ∧
    (∀ row (type_of brand_of : row → option string)
       (eq_op like_op : string → string → bool) (r : row),
       let selects :=
         (if Products.present ty then
            match type_of r with
            | Some t => eq_op t (default "" ty)
            | None => false
            end
          else true)
         &&
         (if Products.present br then
            match brand_of r with
            | Some b => like_op b ("%" +:+ default "" br +:+ "%")
            | None => false
            end
          else true) in
       Sql.where_clause type_of brand_of eq_op like_op (fst s1) (snd s1) r
         = selects ∧
       Sql.where_clause type_of brand_of eq_op like_op (fst s2) (snd s2) r
         = selects).
Proof.
  intros limit offset ty br n s1 s2.
  split; [split; [apply sephora_statement_text|apply skincare_statement_text]|].
  split.
  { destruct (statement_occurrences limit offset ty br)
      as (H1 & H2 & H3 & H4 & H5 & H6 & _ & _ & H7 & H8).
    by repeat split. }
  split.
  { split; [apply skincare_statement_params|].
    subst s1. rewrite sephora_statement_params.
    split; destruct ty as [[|??]|], br as [[|??]|]; cbn -[String.append];
      by simplify_map_eq. }
  intros row type_of brand_of eq_op like_op r.
  apply where_clause_of_statement.
Qed.

(** C4, the claim as stated, fails: a [type] filter that is present with
    the empty string as its value adds no clause and binds no parameter. *)
Lemma present_empty_filter_adds_no_clause :
  PyStr.occurrences " AND product_type = :product_type"
    (fst (Products.sephora_statement 50 0 (Some "") None)) = 0%nat ∧
  snd (Products.sephora_statement 50 0 (Some "") None) !! "product_type" = None ∧
  ¬ (∀ ty br : option string, is_Some ty →
       PyStr.occurrences " AND product_type = :product_type"
         (fst (Products.sephora_statement 50 0 ty br)) = 1%nat).
Proof.
  split; [by vm_compute|]. split; [by vm_compute|].
  intros H. specialize (H (Some "") None (mk_is_Some _ _ eq_refl)).
  vm_compute in H. discriminate.
Qed.

(** C10. An empty string sent as [type] or [brand] gives the very
    statement (text and bound parameters) that the handler builds when the
    argument is not sent, so the driver is asked the same question and the
    handler's answer is the same; with no other filter, the WHERE clause
    then selects every row of the table. *)
Theorem empty_filter_is_no_filter :
  ∀ (limit offset : Z) (ty br : option string),
    (Products.sephora_statement limit offset (Some "") br
       = Products.sephora_statement limit offset None br ∧
     Products.sephora_statement limit offset ty (Some "")
       = Products.sephora_statement limit offset ty None ∧
     Products.skincare_statement limit offset (Some "") br
       = Products.skincare_statement limit offset None br ∧
     Products.skincare_statement limit offset ty (Some "")
       = Products.skincare_statement limit offset ty None)
    ∧
    (∀ R (execute : string → gmap string value → exn + list R)
       (h a : gmap string string) (b : option json) (name : string),
       name = "type" ∨ name = "brand" →
       Products.get_sephora_products execute
         {| headers := h; args := <[name := ""]> a; body := b |}
       = Products.get_sephora_products execute
           {| headers := h; args := delete name a; body := b |} ∧
       Products.get_skincare_products execute
         {| headers := h; args := <[name := ""]> a; body := b |}
       = Products.get_skincare_products execute
           {| headers := h; args := delete name a; body := b |})
    ∧
    (∀ row (type_of brand_of : row → option string)
       (eq_op like_op : string → string → bool) (table : list row)
       (e1 e2 : option string),
       (e1 = Some "" ∨ e1 = None) → (e2 = Some "" ∨ e2 = None) →
       Sql.selected type_of brand_of eq_op like_op table
         (fst (Products.sephora_statement limit offset e1 e2))
         (snd (Products.sephora_statement limit offset e1 e2)) = table ∧
       Sql.selected type_of brand_of eq_op like_op table
         (fst (Products.skincare_statement limit offset e1 e2))
         (snd (Products.skincare_statement limit offset e1 e2)) = table).
Proof.
  intros limit offset ty br. split; [|split].
  - by destruct ty as [[|??]|], br as [[|??]|].
  - intros R execute h a b name Hname.
    unfold Products.get_sephora_products, Products.get_skincare_products,
      PyInt.int_arg; cbn [args].
    destruct Hname as [-> | ->].
    + rewrite !lookup_insert_eq, !lookup_delete_eq.
      rewrite !lookup_insert_ne, !lookup_delete_ne by done.
      destruct (a !! "limit") as [sl|], (a !! "offset") as [so|];
        repeat match goal with
               | |- context [PyInt.int ?s] => destruct (PyInt.int s)
               end; try done;
        by destruct (a !! "brand") as [[|??]|].
    + rewrite !lookup_insert_eq, !lookup_delete_eq.
      rewrite !lookup_insert_ne, !lookup_delete_ne by done.
      destruct (a !! "limit") as [sl|], (a !! "offset") as [so|];
        repeat match goal with
               | |- context [PyInt.int ?s] => destruct (PyInt.int s)
               end; try done;
        by destruct (a !! "type") as [[|??]|].
  - intros row type_of brand_of eq_op like_op table e1 e2 H1 H2.
    unfold Sql.selected.
    assert (Hall : ∀ (f : row → bool), (∀ r, f r = true) → List.filter f table = table).
    { intros f Hf. induction table as [|x t IH]; [done|].
      cbn. by rewrite Hf, IH. }
    split; apply Hall; intros r;
      destruct (where_clause_of_statement type_of brand_of eq_op like_op
                  limit offset e1 e2 r) as [Ha Hb];
      rewrite ?Ha, ?Hb;
      by destruct H1 as [-> | ->], H2 as [-> | ->].
Qed.


Lemma empty_filter_witness :
  Products.get_sephora_products Samples.no_rows
    {| headers := ∅; args := <["type" := ""]> {[ "limit" := "5" ]}; body := None |}
  = Products.get_sephora_products Samples.no_rows
      {| headers := ∅; args := delete "type" {[ "limit" := "5" ]}; body := None |}.
Proof.
  exact (proj1 (proj1 (proj2 (empty_filter_is_no_filter 50 0 None None))
           unit Samples.no_rows ∅ {[ "limit" := "5" ]} None "type"
           (or_introl eq_refl))).
Defined.

(** ** Order and pagination of the list statements *)

Lemma Sorted_take {A} (R : A → A → Prop) (l : list A) (n : nat) :
  Sorted R l → Sorted R (take n l).
Proof.
  intros H. revert n. induction H as [|x l Hs IH Hd]; intros [|n]; cbn;
    try constructor; [apply IH|].
  destruct Hd; destruct n; cbn; by constructor.
Qed.

Lemma Sorted_drop {A} (R : A → A → Prop) (l : list A) (n : nat) :
  Sorted R l → Sorted R (drop n l).
Proof.
  revert l. induction n as [|n IH]; intros l H; [done|].
  destruct H; cbn; [constructor|by apply IH].
Qed.

Section Pagination.
Context {row : Type}.
Variables type_of brand_of name_of : row → option string.
Variables eq_op like_op le_op : string → string → bool.

(** The order of the collation is a total preorder. *)
Hypothesis le_total : ∀ a b, le_op a b = true ∨ le_op b a = true.
Hypothesis le_trans :
  ∀ a b c, le_op a b = true → le_op b c = true → le_op a c = true.

Local Abbreviation le_null := (Sql.le_null le_op).
Local Abbreviation key_le := (Sql.key_le brand_of name_of le_op).
Local Abbreviation tie := (Sql.tie brand_of name_of le_op).
Local Abbreviation tie_free := (Sql.tie_free brand_of name_of le_op).
Local Abbreviation answers :=
  (Sql.answers type_of brand_of name_of eq_op like_op le_op).
Local Abbreviation selected := (Sql.selected type_of brand_of eq_op like_op).

Lemma le_null_total a b : le_null a b = true ∨ le_null b a = true.
Proof. destruct a, b; cbn; auto. Qed.

Lemma le_null_trans a b c :
  le_null a b = true → le_null b c = true → le_null a c = true.
Proof. destruct a, b, c; cbn; try done. apply le_trans. Qed.

Lemma key_le_iff r1 r2 :
  key_le r1 r2 = true ↔
  le_null (brand_of r1) (brand_of r2) = true ∧
  (le_null (brand_of r2) (brand_of r1) = true →
   le_null (name_of r1) (name_of r2) = true).
Proof.
  unfold Sql.key_le.
  destruct (le_null (brand_of r1) (brand_of r2)),
           (le_null (brand_of r2) (brand_of r1)).
  - split; [by intros ->|]. intros [_ H]. by apply H.
  - split; [by intros _|done].
  - split; [done|by intros [? _]].
  - split; [done|by intros [? _]].
Qed.

Lemma key_le_refl r : key_le r r = true.
Proof.
  apply key_le_iff. split; [|intros _].
  - by destruct (le_null_total (brand_of r) (brand_of r)).
  - by destruct (le_null_total (name_of r) (name_of r)).
Qed.

Lemma key_le_trans r1 r2 r3 :
  key_le r1 r2 = true → key_le r2 r3 = true → key_le r1 r3 = true.
Proof.
  rewrite !key_le_iff. intros [H12 N12] [H23 N23].
  split; [by eapply le_null_trans|]. intros H31.
  eapply le_null_trans; [apply N12|apply N23]; by eapply le_null_trans.
Qed.

Lemma key_le_transitive : Transitive (fun a b => key_le a b = true).
Proof. intros ???. apply key_le_trans. Qed.

(** What the boolean test [tie_free] says. *)
Lemma tie_free_spec l :
  tie_free l = true →
  NoDup l ∧
  ∀ x y, x ∈ l → y ∈ l → key_le x y = true → key_le y x = true → x = y.
Proof.
  induction l as [|r l IH]; cbn.
  { intros _. split; [constructor|]. intros x y Hx. by inv Hx. }
  intros H. apply andb_true_iff in H as [Hr Hl].
  destruct (IH Hl) as [Hnd Hanti]. rewrite forallb_forall in Hr.
  assert (Hno : ∀ y, y ∈ l → ¬ (key_le r y = true ∧ key_le y r = true)).
  { intros y Hy [H1 H2]. apply list_elem_of_In, Hr in Hy.
    unfold Sql.tie in Hy. rewrite H1, H2 in Hy. done. }
  split.
  - constructor; [|done]. intros Hin.
    apply (Hno r Hin). split; apply key_le_refl.
  - intros x y Hx Hy Hxy Hyx. inv Hx; inv Hy; [done| | |by apply Hanti].
    + exfalso. by eapply Hno.
    + exfalso. by eapply Hno.
Qed.

Lemma tie_free_permutation l view :
  tie_free l = true → view ≡ₚ l →
  NoDup view ∧
  ∀ x y, x ∈ view → y ∈ view →
         key_le x y = true → key_le y x = true → x = y.
Proof.
  intros H Hp. destruct (tie_free_spec l H) as [Hnd Hanti].
  split; [by rewrite Hp|]. intros x y. rewrite Hp. apply Hanti.
Qed.

(** With no tie among the selected rows, ORDER BY leaves one order. *)
Lemma view_unique l v1 v2 :
  tie_free l = true → v1 ≡ₚ l → v2 ≡ₚ l →
  Sorted (fun a b => key_le a b = true) v1 →
  Sorted (fun a b => key_le a b = true) v2 →
  v1 = v2.
Proof.
  intros H Hp1 Hp2 Hs1 Hs2.
  destruct (tie_free_permutation l v1 H Hp1) as [_ Hanti].
  apply (@Sorted_unique_strong _ (fun a b => key_le a b = true)
           key_le_transitive); try done.
  - intros x y Hx Hy. apply Hanti; [done|]. by rewrite Hp1, <-Hp2.
  - by rewrite Hp1, Hp2.
Qed.

(** Every answer is in the order of the key. *)
Lemma answers_sorted table query params rows :
  answers table query params rows →
  Sorted (fun a b => key_le a b = true) rows.
Proof.
  intros (limit & offset & view & _ & _ & _ & _ & _ & Hs & ->).
  by apply Sorted_take, Sorted_drop.
Qed.

(** The rows a built statement selects do not depend on the page. *)
Lemma selected_of_statement table limit offset ty br :
  let keep (r : row) :=
    (if Products.present ty then
       match type_of r with
       | Some t => eq_op t (default "" ty)
       | None => false
       end
     else true)
    &&
    (if Products.present br then
       match brand_of r with
       | Some b => like_op b ("%" +:+ default "" br +:+ "%")
       | None => false
       end
     else true) in
  selected table (fst (Products.sephora_statement limit offset ty br))
                 (snd (Products.sephora_statement limit offset ty br))
  = List.filter keep table ∧
  selected table (fst (Products.skincare_statement limit offset ty br))
                 (snd (Products.skincare_statement limit offset ty br))
  = List.filter keep table.
Proof.
  intros keep. unfold Sql.selected.
  split; apply List.filter_ext; intros r;
    by destruct (where_clause_of_statement type_of brand_of eq_op like_op
                   limit offset ty br r).
Qed.

Lemma statement_page_params limit offset ty br :
  snd (Products.sephora_statement limit offset ty br) !! "limit" = Some (VInt limit) ∧
  snd (Products.sephora_statement limit offset ty br) !! "offset" = Some (VInt offset) ∧
  snd (Products.skincare_statement limit offset ty br) !! "limit" = Some (VInt limit) ∧
  snd (Products.skincare_statement limit offset ty br) !! "offset" = Some (VInt offset).
Proof.
  rewrite skincare_statement_params, sephora_statement_params.
  repeat split; by simplify_map_eq.
Qed.

(** C6 (as the code has it). Both list statements end in an ORDER BY on
    the brand column and then [product_name], ascending, followed by LIMIT
    and OFFSET, and every answer comes in that order. When no two selected
    rows have the same brand and product name (under the collation),
    pagination is stable: the answers to offset 0, limit [n] and to offset
    [n], limit [n] share no row, and the first followed by the second is
    the answer to offset 0, limit [2 n]. *)
Theorem pagination_stable_without_ties :
  (∀ limit offset ty br,
     fst (Products.sephora_statement limit offset ty br)
     = (Products.sephora_select
        +:+ (if Products.present ty then " AND product_type = :product_type" else "")
        +:+ (if Products.present br then " AND brand_name LIKE :brand" else ""))
       +:+ " ORDER BY brand_name ASC, product_name ASC LIMIT :limit OFFSET :offset" ∧
     fst (Products.skincare_statement limit offset ty br)
     = (Products.skincare_select
        +:+ (if Products.present ty then " AND product_type = :product_type" else "")
        +:+ (if Products.present br then " AND brand LIKE :brand" else ""))
       +:+ " ORDER BY brand ASC, product_name ASC LIMIT :limit OFFSET :offset")
  ∧
  (∀ table query params rows,
     answers table query params rows →
     Sorted (fun a b => key_le a b = true) rows)
  ∧
  (∀ (build : Z → Z → option string → option string → Products.statement),
     build = Products.sephora_statement ∨ build = Products.skincare_statement →
     ∀ (table : list row) (ty br : option string) (n : Z)
       (p1 p2 p12 : list row),
       tie_free (selected table (fst (build n 0 ty br))
                                (snd (build n 0 ty br))) = true →
       answers table (fst (build n 0 ty br)) (snd (build n 0 ty br)) p1 →
       answers table (fst (build n n ty br)) (snd (build n n ty br)) p2 →
       answers table (fst (build (2 * n) 0 ty br))
                     (snd (build (2 * n) 0 ty br)) p12 →
       p1 ++ p2 = p12 ∧ (∀ r, r ∈ p1 → r ∉ p2)).
Proof.
  split; [|split].
  - intros limit offset ty br. split.
    + rewrite sephora_statement_text. by destruct (Products.present ty), (Products.present br).
    + rewrite skincare_statement_text. by destruct (Products.present ty), (Products.present br).
  - apply answers_sorted.
  - intros build Hb table ty br n p1 p2 p12 Htf A1 A2 A3.
    assert (Hsel : ∀ l o, selected table (fst (build l o ty br))
                            (snd (build l o ty br))
                          = selected table (fst (build n 0 ty br))
                              (snd (build n 0 ty br))).
    { intros l o.
      destruct (selected_of_statement table l o ty br) as [E1 E2].
      destruct (selected_of_statement table n 0 ty br) as [E3 E4].
      destruct Hb as [-> | ->]; congruence. }
    assert (Hpar : ∀ l o,
               snd (build l o ty br) !! "limit" = Some (VInt l) ∧
               snd (build l o ty br) !! "offset" = Some (VInt o)).
    { intros l o.
      destruct (statement_page_params l o ty br) as (E1 & E2 & E3 & E4).
      by destruct Hb as [-> | ->]. }
    destruct A1 as (l1 & o1 & v1 & Hl1 & Ho1 & Hl1' & _ & Hp1 & Hs1 & ->).
    destruct A2 as (l2 & o2 & v2 & Hl2 & Ho2 & _ & _ & Hp2 & Hs2 & ->).
    destruct A3 as (l3 & o3 & v3 & Hl3 & Ho3 & _ & _ & Hp3 & Hs3 & ->).
    destruct (Hpar n 0) as [E1 E2]. rewrite E1 in Hl1. rewrite E2 in Ho1.
    destruct (Hpar n n) as [E3 E4]. rewrite E3 in Hl2. rewrite E4 in Ho2.
    destruct (Hpar (2 * n) 0) as [E5 E6]. rewrite E5 in Hl3. rewrite E6 in Ho3.
    simplify_eq. rewrite Hsel in Hp2, Hp3.
    assert (v2 = v1) as -> by (by eapply view_unique).
    assert (v3 = v1) as -> by (by eapply view_unique).
    replace (Z.to_nat (2 * l1)) with (Z.to_nat l1 + Z.to_nat l1)%nat by lia.
    change (Z.to_nat 0) with 0%nat. rewrite !drop_0.
    split; [apply take_take_drop|].
    destruct (tie_free_permutation _ _ Htf Hp1) as [Hnd _].
    assert (Hnd' : NoDup (take (Z.to_nat l1 + Z.to_nat l1) v1))
      by (eapply sublist_NoDup; [|apply sublist_take]; done).
    rewrite <-take_take_drop in Hnd'. by apply NoDup_app in Hnd' as (_ & H & _).
Qed.

End Pagination.

Lemma string_leb_total (a b : string) :
  String.leb a b = true ∨ String.leb b a = true.
Proof. apply String.leb_total. Qed.

Lemma string_leb_trans (a b c : string) :
  String.leb a b = true → String.leb b c = true → String.leb a c = true.
Proof.
  intros H1 H2. apply Is_true_true.
  apply Is_true_true in H1, H2.
  exact (transitivity (R := String.le) H1 H2).
Qed.

(** C6, the claim as stated, fails: with two rows of the same brand and
    name, the engine may answer the first page with one of them and the
    second page with the same one, while the page of both holds the two. *)
Lemma tied_rows_break_pagination :
  ¬ (∀ p1 p2 p12 : list Skincare.row,
       Samples.skincare_answers [Samples.cream_a; Samples.cream_b]
         (fst (Samples.skincare_page 1 0)) (snd (Samples.skincare_page 1 0)) p1 →
       Samples.skincare_answers [Samples.cream_a; Samples.cream_b]
         (fst (Samples.skincare_page 1 1)) (snd (Samples.skincare_page 1 1)) p2 →
       Samples.skincare_answers [Samples.cream_a; Samples.cream_b]
         (fst (Samples.skincare_page 2 0)) (snd (Samples.skincare_page 2 0)) p12 →
       p1 ++ p2 = p12 ∧ (∀ r, r ∈ p1 → r ∉ p2)).
Proof.
  intros H.
  destruct (H [Samples.cream_a] [Samples.cream_a]
              [Samples.cream_a; Samples.cream_b]) as [Heq _].
  - answer_with 1 0 [Samples.cream_a; Samples.cream_b].
  - answer_with 1 1 [Samples.cream_b; Samples.cream_a].
  - answer_with 2 0 [Samples.cream_a; Samples.cream_b].
  - discriminate Heq.
Qed.

Lemma pagination_stable_witness :
  Sql.tie_free Skincare.brand Skincare.product_name String.leb
    (Sql.selected Skincare.product_type Skincare.brand String.eqb Samples.like
       [Samples.cream_a; Samples.balm]
       (fst (Samples.skincare_page 1 0)) (snd (Samples.skincare_page 1 0)))
  = true ∧
  Samples.skincare_answers [Samples.cream_a; Samples.balm]
    (fst (Samples.skincare_page 1 0)) (snd (Samples.skincare_page 1 0))
    [Samples.balm] ∧
  Samples.skincare_answers [Samples.cream_a; Samples.balm]
    (fst (Samples.skincare_page 1 1)) (snd (Samples.skincare_page 1 1))
    [Samples.cream_a] ∧
  Samples.skincare_answers [Samples.cream_a; Samples.balm]
    (fst (Samples.skincare_page 2 0)) (snd (Samples.skincare_page 2 0))
    [Samples.balm; Samples.cream_a] ∧
  [Samples.balm] ++ [Samples.cream_a] = [Samples.balm; Samples.cream_a] ∧
  (∀ r, r ∈ [Samples.balm] → r ∉ [Samples.cream_a]).
Proof.
  assert (H0 : Sql.tie_free Skincare.brand Skincare.product_name String.leb
    (Sql.selected Skincare.product_type Skincare.brand String.eqb Samples.like
       [Samples.cream_a; Samples.balm]
       (fst (Samples.skincare_page 1 0)) (snd (Samples.skincare_page 1 0)))
    = true) by (by vm_compute).
  assert (H1 : Samples.skincare_answers [Samples.cream_a; Samples.balm]
    (fst (Samples.skincare_page 1 0)) (snd (Samples.skincare_page 1 0))
    [Samples.balm])
    by (answer_with 1 0 [Samples.balm; Samples.cream_a]).
  assert (H2 : Samples.skincare_answers [Samples.cream_a; Samples.balm]
    (fst (Samples.skincare_page 1 1)) (snd (Samples.skincare_page 1 1))
    [Samples.cream_a])
    by (answer_with 1 1 [Samples.balm; Samples.cream_a]).
  assert (H3 : Samples.skincare_answers [Samples.cream_a; Samples.balm]
    (fst (Samples.skincare_page 2 0)) (snd (Samples.skincare_page 2 0))
    [Samples.balm; Samples.cream_a])
    by (answer_with 2 0 [Samples.balm; Samples.cream_a]).
  split; [exact H0|]. split; [exact H1|]. split; [exact H2|].
  split; [exact H3|].
  exact (proj2 (proj2 (pagination_stable_without_ties
           Skincare.product_type Skincare.brand Skincare.product_name
           String.eqb Samples.like String.leb
           string_leb_total string_leb_trans))
         Products.skincare_statement (or_intror eq_refl)
         [Samples.cream_a; Samples.balm] None None 1
         [Samples.balm] [Samples.cream_a] [Samples.balm; Samples.cream_a]
         H0 H1 H2 H3).
Defined.

(** ** The remote API fetcher *)

(** One turn of the loop, by the effect of the page's reply. *)
Lemma visit_classify (r : Extract.reply) (page max_pages : nat)
    (all_products : list Extract.record) (l : Extract.log) :
  Extract.visit r page max_pages all_products l =
  match Extract.classify r with
  | Extract.Adds records =>
      Extract.Next (all_products ++ records)
        (l ++ Extract.turn_log r page max_pages)
  | Extract.Skips =>
      Extract.Next all_products (l ++ Extract.turn_log r page max_pages)
  | Extract.Stops =>
      Extract.Break all_products (l ++ Extract.turn_log r page max_pages)
  | Extract.Escapes => Extract.Raise (l ++ Extract.turn_log r page max_pages)
  end.
Proof.
  unfold Extract.visit, Extract.classify, Extract.turn_log.
  destruct r as [[| e | e | e | e |]|[| b | n | s | items | data]];
    rewrite <- ?app_assoc; try done.
  destruct (Json.get data "products" (JArray [])) as [|b|n|s|items|kv];
    cbn [Json.truthy negb]; rewrite <- ?app_assoc; try done.
  - by destruct b.
  - by destruct (n =? 0).
  - by destruct s.
  - destruct items as [|i items]; [done|]. cbn [negb].
    destruct (Extract.normalise (i :: items)); by rewrite <- ?app_assoc.
  - by destruct kv.
Qed.

Lemma pages_loop_requested (fetch : nat → Extract.reply) (pages : list nat)
    (max_pages : nat) (all_products : list Extract.record) (l : Extract.log) :
  Forall (fun p => Extract.classify (fetch p) ≠ Extract.Escapes)
         (Extract.requested fetch pages) →
  Extract.pages_loop fetch pages max_pages all_products l =
  Extract.finish
    (all_products ++ flat_map (Extract.added fetch) (Extract.requested fetch pages))
    (l ++ flat_map (fun p => Extract.turn_log (fetch p) p max_pages)
                   (Extract.requested fetch pages)).
Proof.
  revert all_products l.
  induction pages as [|p rest IH]; intros all_products l Hok.
  { cbn. by rewrite !app_nil_r. }
  cbn [Extract.requested] in Hok. inversion Hok as [|? ? Hp Hrest]; subst.
  cbn [Extract.pages_loop Extract.requested flat_map].
  rewrite visit_classify. unfold Extract.added at 1.
  destruct (Extract.classify (fetch p)) as [records| | |] eqn:Hc;
    cbn [flat_map]; rewrite ?app_nil_r; try done.
  - rewrite (IH _ _ Hrest). by rewrite <- !app_assoc.
  - rewrite (IH _ _ Hrest). by rewrite <- !app_assoc.
Qed.






(** A body that is not JSON ends the pagination: the third page is not
    requested, and the product of the first page is returned. *)
Example body_not_json_stops_the_loop :
  Extract.requested Cases.html_on_page_2 (seq 1 3) = [1; 2]%nat ∧
  (Extract.len <$> fst (Extract.extract_from_api Cases.html_on_page_2 3 []))
  = Some 1%nat ∧
  last (snd (Extract.extract_from_api Cases.html_on_page_2 3 []))
  = Some (Extract.INFO, "  ✓ API REST — total : 1 produits extraits").
Proof. split; [reflexivity|]. split; reflexivity. Qed.

(** ** Raw snapshots *)

Lemma strftime_length (t : Extract.datetime) :
  String.length (Extract.strftime t) = 15%nat.
Proof. reflexivity. Qed.

Lemma to_frame_empty (records : list Extract.record) :
  Extract.empty (Extract.to_frame records) = true ↔ records = [].
Proof. by destruct records. Qed.

(** C8. [save_raw] writes the frame to one file of RAW_DIR, named after
    the source and the instant ([name_YYYYMMDD_HHMMSS.csv]), exactly when
    the frame is not empty, and logs the path; an empty frame leaves the
    files as they are and logs a warning. A frame built from extracted
    records is empty exactly when there is no record. *)
Theorem save_raw_writes_iff_non_empty :
  ∀ (raw_dir name : string) (df : Extract.DataFrame) (now : Extract.datetime)
    (fs : Extract.files) (l : Extract.log),
    let filepath :=
      raw_dir +:+ "/" +:+ name +:+ "_" +:+ Extract.strftime now +:+ ".csv" in
    let result := Extract.save_raw raw_dir name df now fs l in
    (Extract.empty df = false →
       fst result = <[filepath := df]> fs ∧
       fst result !! filepath = Some df ∧
       (∀ path, path ≠ filepath → fst result !! path = fs !! path) ∧
       snd result =
         l ++ [(Extract.INFO,
                "  💾 Sauvegardé : " +:+ filepath +:+ " ("
                +:+ pretty (Extract.len df) +:+ " lignes)")])
    ∧
    (Extract.empty df = true →
       fst result = fs ∧
       snd result =
         l ++ [(Extract.WARNING,
                "  ⚠ DataFrame '" +:+ name +:+ "' vide — pas de sauvegarde.")])
    ∧
    (fs !! filepath = None →
       (fst result !! filepath = Some df ↔ Extract.empty df = false))
    ∧
    String.length (Extract.strftime now) = 15%nat
    ∧
    (∀ records, Extract.empty (Extract.to_frame records) = true ↔ records = []).
Proof.
  intros raw_dir name df now fs l filepath result.
  subst result. unfold Extract.save_raw. fold filepath.
  destruct (Extract.empty df) eqn:He; cbn [fst snd].
  - split; [done|]. split; [done|].
    split; [intros Hn; rewrite Hn; split; done|].
    split; [apply strftime_length|apply to_frame_empty].
  - split.
    { intros _. split; [done|]. split; [apply lookup_insert_eq|].
      split; [|done]. intros path Hp. by apply lookup_insert_ne. }
    split; [done|].
    split; [intros _; split; [done|intros _; apply lookup_insert_eq]|].
    split; [apply strftime_length|apply to_frame_empty].
Qed.

Lemma save_raw_witness :
  Extract.empty (Extract.to_frame (Extract.added Samples.remote 2)) = false ∧
  fst (Extract.save_raw "data/raw" "api_open_beauty_facts"
         (Extract.to_frame (Extract.added Samples.remote 2))
         Samples.evening ∅ [])
  = <["data/raw/api_open_beauty_facts_20261103_203005.csv" :=
        Extract.to_frame (Extract.added Samples.remote 2)]> ∅.
Proof.
  assert (H : Extract.empty (Extract.to_frame (Extract.added Samples.remote 2))
              = false) by reflexivity.
  split; [exact H|].
  exact (proj1 (proj1 (save_raw_writes_iff_non_empty "data/raw"
           "api_open_beauty_facts"
           (Extract.to_frame (Extract.added Samples.remote 2))
           Samples.evening ∅ []) H)).
Defined.

(** ** The comparison of the two catalogues *)



Section JoinFacts.
Context {num : Type}.
Variable pct : list Z → num.
Variable avg : list num → num.
Variable ge : num → num → bool.

Local Abbreviation group_by := (Comparaison.group_by pct avg).
Local Abbreviation inner_join := (Comparaison.inner_join (num := num)).











End JoinFacts.


(* ===================================================================== *)
(** * Further properties                                                  *)
(* ===================================================================== *)

(** ** The token store under [require_auth] and [get_token] *)

(** X1. [require_auth] never fails on [split(" ")[1]]: its answer is a
    refusal with status 401 or the wrapped view's own answer. It never
    adds to the store and never touches a token other than the one
    presented: the store is unchanged, or the presented token was stored,
    expired, and is the one entry deleted. *)
Theorem require_auth_refuses_or_calls :
  ∀ A (f : request → A) (req : request) (now : Z) (store : gmap string Z),
    let r := Auth.require_auth f req now store in
    (∀ e, fst r ≠ Auth.Raised e) ∧
    (∀ m c, fst r = Auth.Refused m c → c = 401) ∧
    (fst r = Auth.Called (f req) ∧ snd r = store ∨
     (∃ m, fst r = Auth.Refused m 401) ∧
     (snd r = store ∨
      ∃ tok expiry,
        Auth.presented req = Some tok ∧ store !! tok = Some expiry ∧
        expiry < now ∧ snd r = delete tok store)) ∧
    snd r ⊆ store ∧
    (∀ t, Auth.presented req ≠ Some t → snd r !! t = store !! t).
Proof.
  intros A f req now store r. subst r. rewrite require_auth_cases.
  destruct (Auth.presented req) as [tok|] eqn:Hp; cbn [fst snd].
  - destruct (store !! tok) as [e|] eqn:Hs; cbn [fst snd].
    + destruct (Z.gtb_spec now e); cbn [fst snd].
      * split; [done|]. split; [by intros m c [= _ <-]|].
        split; [right; split; [eauto|right; exists tok, e; split_and!; [done..|lia|done]]|].
        split; [apply delete_subseteq|].
        intros t Ht. apply lookup_delete_ne. congruence.
      * split; [done|]. split; [done|]. split; [by left|]. done.
    + split; [done|]. split; [by intros m c [= _ <-]|].
      split; [right; split; [eauto|by left]|]. done.
  - split; [done|]. split; [by intros m c [= _ <-]|].
    split; [right; split; [eauto|by left]|]. done.
Qed.

Lemma split_first_field (tok rest : string) :
  PyStr.mem " " tok = false →
  ∃ fields, PyStr.split " " (tok +:+ String " " rest) = tok :: fields.
Proof.
  induction tok as [|c tok IH]; intros H.
  - cbn. eauto.
  - cbn in H. apply orb_false_iff in H as [Hc H].
    destruct (IH H) as [fields Hf].
    change (String c tok +:+ String " " rest)
      with (String c (tok +:+ String " " rest)).
    cbn [PyStr.split]. rewrite Hc, Hf. eauto.
Qed.

(** X2. Only the second space-separated field of the header is read:
    whatever follows the token after a further space is ignored, so such a
    request is let through or refused exactly as the plain one, with the
    same effect on the store. A second space right after [Bearer]
    presents the empty token, and a scheme in another letter case is no
    [Bearer] header at all. *)
Theorem bearer_trailing_fields_are_ignored :
  ∀ A (f : request → A) (tok junk : string) (a : gmap string string)
    (b : option json) (now : Z) (store : gmap string Z),
    PyStr.mem " " tok = false →
    let req (h : string) :=
      {| headers := {[ "Authorization" := h ]}; args := a; body := b |} in
    Auth.presented (req ("Bearer " +:+ tok +:+ String " " junk)) = Some tok ∧
    Auth.presented (req ("Bearer " +:+ tok)) = Some tok ∧
    Auth.accepted
      (Auth.require_auth f (req ("Bearer " +:+ tok +:+ String " " junk)) now store)
    = Auth.accepted (Auth.require_auth f (req ("Bearer " +:+ tok)) now store) ∧
    snd (Auth.require_auth f (req ("Bearer " +:+ tok +:+ String " " junk)) now store)
    = snd (Auth.require_auth f (req ("Bearer " +:+ tok)) now store) ∧
    Auth.presented (req ("Bearer " +:+ String " " tok)) = Some "" ∧
    Auth.presented (req ("bearer " +:+ tok)) = None ∧
    Auth.presented (req tok) = None.
Proof.
  intros A f tok junk a b now store Htok req.
  assert (H1 : Auth.presented (req ("Bearer " +:+ tok +:+ String " " junk))
               = Some tok).
  { unfold Auth.presented, req. cbn [headers].
    rewrite lookup_singleton_eq. cbn [default]. cbv zeta. unfold id.
    rewrite startswith_bearer, bearer_unfold. cbn [PyStr.split Ascii.eqb Bool.eqb].
    destruct (split_first_field tok junk Htok) as [fields ->]. done. }
  assert (H2 : Auth.presented (req ("Bearer " +:+ tok)) = Some tok).
  { unfold Auth.presented, req. cbn [headers].
    rewrite lookup_singleton_eq. cbn [default]. cbv zeta. unfold id.
    by rewrite startswith_bearer, split_bearer. }
  split; [done|]. split; [done|].
  rewrite !require_auth_cases, H1, H2. unfold Auth.accepted.
  split; [|split].
  - destruct (store !! tok) as [e|]; [|done]. by destruct (now >? e).
  - destruct (store !! tok) as [e|]; [|done]. by destruct (now >? e).
  - split; [|split].
    + unfold Auth.presented, req. cbn [headers].
      rewrite lookup_singleton_eq. cbn [default]. cbv zeta. unfold id.
      rewrite startswith_bearer, bearer_unfold.
      cbn [PyStr.split Ascii.eqb Bool.eqb].
      by destruct (PyStr.split " " tok).
    + unfold Auth.presented, req. cbn [headers].
      by rewrite lookup_singleton_eq.
    + unfold Auth.presented, req. cbn [headers].
      rewrite lookup_singleton_eq. cbn [default]. cbv zeta. unfold id.
      destruct (PyStr.startswith tok "Bearer ") eqn:Hs; [|done].
      exfalso. destruct (prefix_inv _ _ Hs) as [r ->].
      rewrite bearer_unfold in Htok. cbn in Htok. discriminate Htok.
Qed.

Lemma bearer_trailing_fields_witness :
  PyStr.mem " " "AQID" = false ∧
  Auth.presented
    {| headers := {[ "Authorization" := "Bearer AQID and more" ]};
       args := ∅; body := None |} = Some "AQID".
Proof.
  assert (H : PyStr.mem " " "AQID" = false) by reflexivity.
  split; [exact H|].
  exact (proj1 (bearer_trailing_fields_are_ignored unit (fun _ => tt)
                  "AQID" "and more" ∅ None 0 ∅ H)).
Defined.

(** X3. Nothing sweeps the store: through any calls that neither present
    a token in their header nor draw it again, its entry stays exactly as
    it was, however far the clock has passed its expiry. *)
Theorem unpresented_token_is_never_evicted :
  ∀ (cfg : Auth.config) (cs : list Auth.call) (store : gmap string Z)
    (tok : string),
    Forall (fun c =>
              match c with
              | Auth.Issue _ entropy _ => Secrets.token_urlsafe entropy ≠ tok
              | Auth.Api req _ => Auth.presented req ≠ Some tok
              end) cs →
    Auth.run cfg store cs !! tok = store !! tok.
Proof.
  intros cfg cs. unfold Auth.run.
  induction cs as [|c cs IH]; intros store tok Hcs; [done|].
  inversion Hcs as [|? ? Hc Hrest]; subst. cbn [fold_left].
  rewrite (IH _ _ Hrest).
  destruct c as [req entropy now | req now]; cbn [Auth.step].
  - unfold Auth.get_token.
    destruct (body req) as [data|]; [|done].
    destruct (negb (Json.truthy data)); [done|].
    destruct data; try done.
    destruct (_ || _); [done|]. cbn [snd].
    by apply lookup_insert_ne.
  - rewrite require_auth_cases.
    destruct (Auth.presented req) as [t|]; [|done].
    destruct (store !! t) as [e|]; [|done].
    destruct (now >? e); [|done]. cbn [snd].
    apply lookup_delete_ne. congruence.
Qed.

Lemma unpresented_token_witness :
  Auth.run Auth.default_config {[ "AQID" := 4600 ]}
    [Auth.Api (Auth.bearer "zzzz") 9000;
     Auth.Issue Samples.login [x09; x09; x09] 9001;
     Auth.Api {| headers := ∅; args := ∅; body := None |} 9999] !! "AQID"
  = ({[ "AQID" := 4600 ]} : gmap string Z) !! "AQID".
Proof.
  apply (unpresented_token_is_never_evicted Auth.default_config).
  repeat constructor; by vm_compute.
Defined.



(** Where an entry of the store can come from in one call. *)
Lemma step_origin cfg (store : gmap string Z) (c : Auth.call) tok e :
  Auth.step cfg store c !! tok = Some e →
  store !! tok = Some e ∨
  ∃ req entropy now,
    c = Auth.Issue req entropy now ∧ Secrets.token_urlsafe entropy = tok ∧
    e = now + Auth.TOKEN_EXPIRY_SECONDS cfg.
Proof.
  destruct c as [req entropy now | req now]; cbn [Auth.step].
  - unfold Auth.get_token.
    destruct (body req) as [data|]; [|by left].
    destruct (negb (Json.truthy data)); [by left|].
    destruct data; try by left.
    destruct (_ || _); [by left|]. cbn [snd].
    destruct (decide (Secrets.token_urlsafe entropy = tok)) as [<-|Hne].
    + rewrite lookup_insert_eq. intros [= <-]. right. by exists req, entropy, now.
    + rewrite lookup_insert_ne by done. by left.
  - rewrite require_auth_cases.
    destruct (Auth.presented req) as [t|]; [|by left].
    destruct (store !! t) as [e'|] eqn:Ht; [|by left].
    destruct (now >? e'); [|by left]. cbn [snd].
    intros H. left. by apply lookup_delete_Some in H as [_ H].
Qed.

Lemma step_size cfg (store : gmap string Z) (c : Auth.call) :
  (size (Auth.step cfg store c) ≤
   size store + match c with Auth.Issue _ _ _ => 1 | Auth.Api _ _ => 0 end)%nat.
Proof.
  destruct c as [req entropy now | req now]; cbn [Auth.step].
  - unfold Auth.get_token.
    destruct (body req) as [data|]; [|cbn [snd]; lia].
    destruct (negb (Json.truthy data)); [cbn [snd]; lia|].
    destruct data; try (cbn [snd]; lia).
    destruct (_ || _); [cbn [snd]; lia|]. cbn [snd].
    destruct (store !! Secrets.token_urlsafe entropy) eqn:Hs.
    + rewrite map_size_insert_Some by done. lia.
    + rewrite map_size_insert_None by done. lia.
  - rewrite require_auth_cases.
    destruct (Auth.presented req) as [t|]; [|cbn [snd]; lia].
    destruct (store !! t) as [e'|] eqn:Ht; [|cbn [snd]; lia].
    destruct (now >? e'); [|cbn [snd]; lia]. cbn [snd].
    pose proof (map_size_delete_Some t store) as Hd.
    rewrite Hd by eauto. lia.
Qed.

(** X5. Every entry of the store was put there by [get_token]: after any
    calls, a stored token either was stored before them with the same
    expiry, or is the token one of the issue calls drew, with expiry that
    call's clock plus TOKEN_EXPIRY_SECONDS. No call ever changes an expiry
    otherwise (there is no renewal), and the store holds at most one more
    entry per issue call. *)
Theorem stored_tokens_were_issued :
  ∀ (cfg : Auth.config) (cs : list Auth.call) (store : gmap string Z)
    (tok : string) (e : Z),
    Auth.run cfg store cs !! tok = Some e →
    (store !! tok = Some e ∨
     ∃ req entropy now,
       Auth.Issue req entropy now ∈ cs ∧
       Secrets.token_urlsafe entropy = tok ∧
       e = now + Auth.TOKEN_EXPIRY_SECONDS cfg) ∧
    (size (Auth.run cfg store cs) ≤
     size store
     + length (List.filter
                 (fun c => match c with Auth.Issue _ _ _ => true | _ => false end)
                 cs))%nat.
Proof.
  intros cfg cs. unfold Auth.run.
  induction cs as [|c cs IH]; intros store tok e H.
  { cbn in *. split; [by left|lia]. }
  cbn [fold_left] in *. destruct (IH _ _ _ H) as [Ho Hsz]. split.
  - destruct Ho as [Ho|(req & entropy & now & Hin & Ht & He)].
    + destruct (step_origin _ _ _ _ _ Ho) as [?|(req & entropy & now & -> & Ht & He)];
        [by left|right].
      exists req, entropy, now. split; [by left|done].
    + right. exists req, entropy, now. split; [by right|done].
  - pose proof (step_size cfg store c) as Hc.
    destruct c; cbn [List.filter length] in *; lia.
Qed.

Lemma stored_tokens_witness :
  Auth.run Auth.default_config ∅
    [Auth.Issue Samples.login Samples.entropy 1000;
     Auth.Api (Auth.bearer "AQID") 2000] !! "AQID" = Some 4600 ∧
  ∃ req entropy now,
    Auth.Issue req entropy now
      ∈ [Auth.Issue Samples.login Samples.entropy 1000;
         Auth.Api (Auth.bearer "AQID") 2000] ∧
    Secrets.token_urlsafe entropy = "AQID" ∧
    4600 = now + Auth.TOKEN_EXPIRY_SECONDS Auth.default_config.
Proof.
  assert (H : Auth.run Auth.default_config ∅
    [Auth.Issue Samples.login Samples.entropy 1000;
     Auth.Api (Auth.bearer "AQID") 2000] !! "AQID" = Some 4600)
    by (by vm_compute).
  split; [exact H|].
  destruct (proj1 (stored_tokens_were_issued Auth.default_config _ ∅ "AQID" 4600 H))
    as [Hn|Hi]; [discriminate Hn|exact Hi].
Defined.

(** X6. A request that [require_auth] refuses never reaches the database:
    the answer of a guarded list route to it has status 401 and is the
    same whatever the driver would have said, and so is the store
    afterwards. Whether the request is let through does not depend on the
    driver or on the view either. *)
Theorem refused_request_never_reaches_driver :
  ∀ R (execute execute' : string → gmap string value → exn + list R)
    (req : request) (now : Z) (store : gmap string Z),
    (Auth.accepted
       (Auth.require_auth (Products.get_sephora_products execute) req now store)
     = Auth.accepted
         (Auth.require_auth (Products.get_skincare_products execute') req now store)) ∧
    (Auth.accepted
       (Auth.require_auth (Products.get_sephora_products execute) req now store)
     = false →
     status (fst (Products.api_sephora_products execute req now store)) = 401 ∧
     Products.api_sephora_products execute req now store
     = Products.api_sephora_products execute' req now store ∧
     Products.api_skincare_products execute req now store
     = Products.api_sephora_products execute req now store) ∧
    snd (Products.api_sephora_products execute req now store)
    = snd (Products.api_sephora_products execute' req now store).
Proof.
  intros R execute execute' req now store.
  unfold Products.api_sephora_products, Products.api_skincare_products,
    Auth.accepted.
  rewrite !require_auth_cases.
  destruct (Auth.presented req) as [tok|]; [|done].
  destruct (store !! tok) as [e|]; [|done].
  by destruct (now >? e).
Qed.

Lemma refused_request_witness :
  Auth.accepted
    (Auth.require_auth (Products.get_sephora_products Samples.no_rows)
       (Auth.bearer "AQID") 5000 {[ "AQID" := 4600 ]}) = false ∧
  status (fst (Products.api_sephora_products Samples.no_rows
                 (Auth.bearer "AQID") 5000 {[ "AQID" := 4600 ]})) = 401.
Proof.
  assert (H : Auth.accepted
    (Auth.require_auth (Products.get_sephora_products Samples.no_rows)
       (Auth.bearer "AQID") 5000 {[ "AQID" := 4600 ]}) = false) by reflexivity.
  split; [exact H|].
  exact (proj1 (proj1 (proj2 (refused_request_never_reaches_driver unit
           Samples.no_rows Samples.no_rows (Auth.bearer "AQID") 5000
           {[ "AQID" := 4600 ]})) H)).
Defined.

(** ** The other routes of the API *)






(** X7. The lookup by identifier binds the identifier as it stands and
    serves the first row of the result. Over a driver that answers the
    statement as the engine would on a table, the answer is 404, with the
    identifier in its message, exactly when no product of the table has
    that identifier; otherwise it is 200 with a product of the table that
    has it (any one of them, when several do). An exception of the driver
    is answered with its text and status 500. *)
Theorem product_lookup_found_iff_exists :
  ∀ (eq_op : string → string → bool)
    (execute : string → gmap string value → exn + list Sephora.row)
    (table : list Sephora.row) (product_id : string) (req : request),
    let params : gmap string value := {[ "product_id" := VStr product_id ]} in
    let has_id (r : Sephora.row) :=
      ∃ i, Sephora.product_id r = Some i ∧ eq_op i product_id = true in
    let answer := Routes.get_sephora_product_by_id execute product_id req in
    (∀ rows, execute Routes.product_by_id_query params = inr rows →
             Routes.by_id_answers eq_op table params rows) →
    (∀ e, execute Routes.product_by_id_query params = inl e →
          answer = (Routes.ItemErrorOf e, 500)) ∧
    (∀ rows, execute Routes.product_by_id_query params = inr rows →
       (snd answer = 404 ↔ ∀ r, r ∈ table → ¬ has_id r) ∧
       (snd answer = 404 →
        answer = (Routes.ItemError ("Produit " +:+ product_id +:+ " introuvable"),
                  404)) ∧
       (snd answer = 200 ↔ ∃ r, r ∈ table ∧ has_id r) ∧
       (∀ r, fst answer = Routes.Item r → r ∈ table ∧ has_id r ∧ head rows = Some r)).
Proof.
  intros eq_op execute table product_id req params has_id answer Hconf.
  subst answer. unfold Routes.get_sephora_product_by_id. fold params.
  split; [by intros e ->|].
  intros rows Hrows. rewrite Hrows.
  destruct (Hconf rows Hrows) as (pid & Hpid & Hperm).
  subst params. rewrite lookup_singleton_eq in Hpid. injection Hpid as <-.
  assert (Hin : ∀ r, r ∈ rows ↔ r ∈ table ∧ has_id r).
  { intros r. rewrite Hperm, !list_elem_of_In, filter_In. subst has_id. cbn.
    split; intros [Hr Hm]; (split; [done|]).
    - destruct (Sephora.product_id r) as [i|]; [eauto|done].
    - by destruct Hm as (i & -> & ->). }
  destruct rows as [|row rows]; cbn [fst snd head].
  - split_and!.
    + split; [|done]. intros _ r Hr Hid.
      assert (H : r ∈ []) by (apply Hin; done). by inv H.
    + done.
    + split; [done|]. intros (r & Hr & Hid).
      assert (H : r ∈ []) by (apply Hin; done). by inv H.
    + done.
  - assert (Hrow : row ∈ table ∧ has_id row) by (apply Hin; left).
    split_and!.
    + split; [done|]. intros Hno. destruct Hrow as [Hr Hid]. by destruct (Hno row).
    + done.
    + split; [intros _; by exists row|done].
    + intros r [= <-]. by destruct Hrow.
Qed.

Lemma product_lookup_witness :
  (∀ rows,
     Cases.lookup_driver Routes.product_by_id_query {[ "product_id" := VStr "P3" ]}
       = inr rows →
     Routes.by_id_answers String.eqb Cases.catalogue
       {[ "product_id" := VStr "P3" ]} rows) ∧
  Routes.get_sephora_product_by_id Cases.lookup_driver "P3" (Auth.bearer "t")
    = (Routes.Item Cases.serum, 200) ∧
  Cases.serum ∈ Cases.catalogue.
Proof.
  assert (H : ∀ rows,
     Cases.lookup_driver Routes.product_by_id_query {[ "product_id" := VStr "P3" ]}
       = inr rows →
     Routes.by_id_answers String.eqb Cases.catalogue
       {[ "product_id" := VStr "P3" ]} rows).
  { intros rows Hr. exists "P3". split; [reflexivity|].
    vm_compute in Hr. injection Hr as <-. by vm_compute. }
  split; [exact H|]. split; [reflexivity|].
  destruct (proj2 (product_lookup_found_iff_exists String.eqb Cases.lookup_driver
                     Cases.catalogue "P3" (Auth.bearer "t") H)
              [Cases.serum] eq_refl) as (_ & _ & _ & Hitem).
  exact (proj1 (Hitem Cases.serum eq_refl)).
Defined.

Section BrandFacts.
Context {num : Type}.
Variable avg : list Z → num.

Local Abbreviation grouped := (Routes.Brands.grouped avg).




End BrandFacts.


Section TypeFacts.
Context {num : Type}.
Variable avg : list Z → num.
Variable pct : list Z → num.
Variable ge : num → num → bool.

Local Abbreviation grouped_by_type := (Routes.ByType.grouped avg pct).



End TypeFacts.


(** ** Local files, database tables and snapshots *)

(** X10. [extract_from_files] always returns the three keys [cosing],
    [sephora] and [skincare], in that order, whatever the reads end in:
    each key holds the frame read from its file, or the empty frame when
    the file is missing or unreadable, independently of the two other
    reads; each failure leaves an error line naming the file or the
    exception, and the lines already in the log are kept. *)
Theorem extract_from_files_isolates_reads :
  ∀ (p : Batch.paths) (cosing sephora skincare : Batch.read) (l : Extract.log),
    let result := Batch.extract_from_files p cosing sephora skincare l in
    fst result = [("cosing", Batch.frame_of cosing);
                  ("sephora", Batch.frame_of sephora);
                  ("skincare", Batch.frame_of skincare)] ∧
    (∃ added, snd result = l ++ added ∧ (4 ≤ length added)%nat) ∧
    (cosing = Batch.FileNotFound →
     (Extract.ERROR, "  ✗ Fichier introuvable : " +:+ Batch.FILE_COSING p)
       ∈ snd result) ∧
    (sephora = Batch.FileNotFound →
     (Extract.ERROR, "  ✗ Fichier introuvable : " +:+ Batch.FILE_SEPHORA p)
       ∈ snd result) ∧
    (skincare = Batch.FileNotFound →
     (Extract.ERROR, "  ✗ Fichier introuvable : " +:+ Batch.FILE_SKINCARE p)
       ∈ snd result) ∧
    (∀ e, cosing = Batch.ReadError e →
     (Extract.ERROR, "  ✗ Erreur lors de la lecture COSING : " +:+ e)
       ∈ snd result) ∧
    (∀ e, sephora = Batch.ReadError e →
     (Extract.ERROR, "  ✗ Erreur lors de la lecture SEPHORA : " +:+ e)
       ∈ snd result) ∧
    (∀ e, skincare = Batch.ReadError e →
     (Extract.ERROR, "  ✗ Erreur lors de la lecture SKINCARE : " +:+ e)
       ∈ snd result) ∧
    (∀ cosing' sephora' l',
       Batch.dict_get
         (fst (Batch.extract_from_files p cosing' sephora' skincare l')) "skincare"
       = Batch.dict_get (fst result) "skincare").
Proof.
  intros p cosing sephora skincare l result. subst result.
  unfold Batch.extract_from_files.
  split; [by destruct cosing, sephora, skincare|].
  split.
  { destruct cosing, sephora, skincare; cbn; rewrite <-?app_assoc;
      eexists; (split; [reflexivity|cbn; lia]). }
  split_and!.
  - intros ->. destruct sephora, skincare; cbn; set_solver.
  - intros ->. destruct cosing, skincare; cbn; set_solver.
  - intros ->. destruct cosing, sephora; cbn; set_solver.
  - intros e ->. destruct sephora, skincare; cbn; set_solver.
  - intros e ->. destruct cosing, skincare; cbn; set_solver.
  - intros e ->. destruct cosing, sephora; cbn; set_solver.
  - intros cosing' sephora' l'.
    by destruct cosing, sephora, cosing', sephora', skincare.
Qed.

(** X11. [extract_from_database] always returns the two keys
    [db_sephora] and [db_skincare]. When the connection and the final
    [engine.dispose()] both succeed, each key holds what its own read gave
    (the empty frame when that read failed), so a failure on one table
    does not touch the other. When the connection fails, or when
    [engine.dispose()] raises after the reads, both keys hold the empty
    frame: frames already read are discarded. *)
Theorem extract_from_database_keys :
  ∀ (target : string) (db : Batch.database) (l : Extract.log),
    let result := Batch.extract_from_database target db l in
    map fst (fst result) = ["db_sephora"; "db_skincare"] ∧
    (Batch.connect db = None → Batch.dispose db = None →
     fst result = [("db_sephora", Batch.table_of (Batch.read_sephora db));
                   ("db_skincare", Batch.table_of (Batch.read_skincare db))]) ∧
    (Batch.connect db ≠ None ∨ Batch.dispose db ≠ None →
     fst result = [("db_sephora", Batch.no_frame);
                   ("db_skincare", Batch.no_frame)] ∧
     (Extract.INFO,
      "  ⚠ Source MySQL ignorée — le script continue avec les autres sources.")
       ∈ snd result) ∧
    (∀ e, Batch.connect db = Some e →
          ∀ db', Batch.connect db' = Some e →
                 Batch.extract_from_database target db' l = result).
Proof.
  intros target db l result. subst result.
  unfold Batch.extract_from_database.
  destruct db as [[e|] rs rk [e'|]]; cbn [Batch.connect Batch.dispose
    Batch.read_sephora Batch.read_skincare].
  - split; [done|]. split; [done|].
    split; [intros _; split; [done|cbn; set_solver]|].
    intros e0 [= <-] db' Hdb'. by rewrite Hdb'.
  - split; [done|]. split; [done|].
    split; [intros _; split; [done|cbn; set_solver]|].
    intros e0 [= <-] db' Hdb'. by rewrite Hdb'.
  - split; [by destruct rs, rk|]. split; [done|].
    split; [|done]. intros _. destruct rs, rk; cbn; (split; [done|set_solver]).
  - split; [by destruct rs, rk|].
    split; [intros _ _; by destruct rs, rk|].
    split; [|done]. by intros [?|?].
Qed.

Lemma extract_from_database_witness :
  Batch.dispose
    (Batch.Database None (inl (Extract.to_frame (Extract.added Samples.remote 2)))
       (inr "table missing") (Some "pool error")) ≠ None ∧
  fst (Batch.extract_from_database "localhost:3306/db"
         (Batch.Database None
            (inl (Extract.to_frame (Extract.added Samples.remote 2)))
            (inr "table missing") (Some "pool error")) [])
  = [("db_sephora", Batch.no_frame); ("db_skincare", Batch.no_frame)].
Proof.
  assert (H : Batch.dispose
    (Batch.Database None (inl (Extract.to_frame (Extract.added Samples.remote 2)))
       (inr "table missing") (Some "pool error")) ≠ None) by discriminate.
  split; [exact H|].
  exact (proj1 (proj1 (proj2 (proj2 (extract_from_database_keys
           "localhost:3306/db" _ [])))
         (or_intror H))).
Defined.

Lemma extract_from_files_witness :
  (Extract.ERROR, "  ✗ Fichier introuvable : data/raw/product_info.csv")
    ∈ snd (Batch.extract_from_files
             (Batch.Paths "data/raw/COSING.xls" "data/raw/product_info.csv"
                "data/raw/cosmetics.csv")
             (Batch.ReadError "bad sheet") Batch.FileNotFound
             (Batch.Loaded (Extract.to_frame (Extract.added Samples.remote 2)))
             []).
Proof.
  exact (proj1 (proj2 (proj2 (proj2 (extract_from_files_isolates_reads
           (Batch.Paths "data/raw/COSING.xls" "data/raw/product_info.csv"
              "data/raw/cosmetics.csv")
           (Batch.ReadError "bad sheet") Batch.FileNotFound
           (Batch.Loaded (Extract.to_frame (Extract.added Samples.remote 2)))
           [])))) eq_refl).
Defined.

Lemma string_length_app (a b : string) :
  String.length (a +:+ b) = (String.length a + String.length b)%nat.
Proof.
  induction a as [|c a IH]; [done|].
  change (String c a +:+ b) with (String c (a +:+ b)).
  cbn [String.length]. by rewrite IH.
Qed.

Lemma string_app_inj_suffix (a b s1 s2 : string) :
  String.length s1 = String.length s2 →
  a +:+ s1 = b +:+ s2 → a = b ∧ s1 = s2.
Proof.
  revert b. induction a as [|c a IH]; intros [|d b] Hlen Heq.
  - done.
  - exfalso. apply (f_equal String.length) in Heq.
    rewrite !string_length_app in Heq. cbn [String.length] in Heq. lia.
  - exfalso. apply (f_equal String.length) in Heq.
    rewrite !string_length_app in Heq. cbn [String.length] in Heq. lia.
  - change (String c (a +:+ s1) = String d (b +:+ s2)) in Heq.
    injection Heq as -> Heq. destruct (IH b Hlen Heq) as [-> ->]. done.
Qed.

Lemma string_app_inj_prefix (a s1 s2 : string) :
  a +:+ s1 = a +:+ s2 → s1 = s2.
Proof.
  induction a as [|c a IH]; [done|].
  change (String c (a +:+ s1) = String c (a +:+ s2) → s1 = s2).
  intros [= H]. by apply IH.
Qed.

Lemma digit_inj (n m : nat) :
  Extract.digit n = Extract.digit m → (n mod 10 = m mod 10)%nat.
Proof.
  unfold Extract.digit. intros H.
  apply (f_equal (fun s => match s with
                           | String c _ => nat_of_ascii c
                           | EmptyString => 0%nat
                           end)) in H.
  cbv beta iota in H.
  assert (Hn : (n mod 10 < 10)%nat) by (apply Nat.mod_upper_bound; lia).
  assert (Hm : (m mod 10 < 10)%nat) by (apply Nat.mod_upper_bound; lia).
  rewrite !nat_ascii_embedding in H by lia. lia.
Qed.

Lemma pad2_inj (n m : nat) :
  (n < 100)%nat → (m < 100)%nat → Extract.pad2 n = Extract.pad2 m → n = m.
Proof.
  unfold Extract.pad2. intros Hn Hm H.
  apply string_app_inj_suffix in H as [H1 H2]; [|reflexivity].
  apply digit_inj in H1, H2.
  assert (Hn' : (n / 10 < 10)%nat) by (apply Nat.Div0.div_lt_upper_bound; lia).
  assert (Hm' : (m / 10 < 10)%nat) by (apply Nat.Div0.div_lt_upper_bound; lia).
  rewrite !Nat.mod_small in H1 by done.
  rewrite (Nat.div_mod_eq n 10), (Nat.div_mod_eq m 10).
  by rewrite H1, H2.
Qed.

Lemma pad2_length (n : nat) : String.length (Extract.pad2 n) = 2%nat.
Proof. reflexivity. Qed.

Lemma mod_100_digits (n : nat) :
  ((n mod 100 / 10) mod 10 = (n / 10) mod 10)%nat ∧
  ((n mod 100) mod 10 = n mod 10)%nat.
Proof.
  pose proof (Nat.div_mod_eq n 100) as H.
  assert (Hr : (n mod 100 < 100)%nat) by (apply Nat.mod_upper_bound; lia).
  revert H Hr. generalize (n mod 100)%nat (n / 100)%nat. intros r q -> Hr.
  split.
  - replace (100 * q + r)%nat with (r + (10 * q) * 10)%nat by lia.
    rewrite Nat.div_add by lia.
    replace (r / 10 + 10 * q)%nat with (r / 10 + q * 10)%nat by lia.
    by rewrite Nat.Div0.mod_add.
  - replace (100 * q + r)%nat with (r + (10 * q) * 10)%nat by lia.
    by rewrite Nat.Div0.mod_add.
Qed.

Lemma pad2_mod_100 (n : nat) : Extract.pad2 (n mod 100) = Extract.pad2 n.
Proof.
  unfold Extract.pad2, Extract.digit.
  destruct (mod_100_digits n) as [-> ->]. done.
Qed.

Lemma pad4_inj (n m : nat) :
  (n < 100 * 100)%nat → (m < 100 * 100)%nat →
  Extract.pad4 n = Extract.pad4 m → n = m.
Proof.
  unfold Extract.pad4. intros Hn Hm H.
  apply string_app_inj_suffix in H as [H1 H2]; [|by rewrite !pad2_length].
  assert (Hd : (n / 100 = m / 100)%nat).
  { apply pad2_inj; [by apply Nat.Div0.div_lt_upper_bound..|done]. }
  assert (Hr : (n mod 100 = m mod 100)%nat).
  { apply pad2_inj; [apply Nat.mod_upper_bound; lia..|].
    by rewrite !pad2_mod_100. }
  rewrite (Nat.div_mod_eq n 100), (Nat.div_mod_eq m 100).
  by rewrite Hd, Hr.
Qed.

Lemma string_app_inj_same_length (a b s1 s2 : string) :
  String.length a = String.length b →
  a +:+ s1 = b +:+ s2 → a = b ∧ s1 = s2.
Proof.
  revert b. induction a as [|c a IH]; intros [|d b] Hlen Heq; try done.
  change (String c (a +:+ s1) = String d (b +:+ s2)) in Heq.
  injection Heq as -> Heq. cbn in Hlen.
  destruct (IH b) as [-> ->]; [lia|done|done].
Qed.

(** The timestamp tells the second: [strftime] is one-to-one on instants
    whose year has four digits. *)
Lemma strftime_inj (t1 t2 : Extract.datetime) :
  Batch.four_digit_year t1 → Batch.four_digit_year t2 →
  Extract.strftime t1 = Extract.strftime t2 → t1 = t2.
Proof.
  destruct t1 as [y1 mo1 d1 h1 mi1 s1], t2 as [y2 mo2 d2 h2 mi2 s2].
  unfold Batch.four_digit_year, Extract.strftime. cbn.
  intros (Hy1 & Ha1 & Hb1 & Hc1 & He1 & Hf1) (Hy2 & Ha2 & Hb2 & Hc2 & He2 & Hf2) H.
  apply string_app_inj_same_length in H as [Hy H]; [|reflexivity].
  apply string_app_inj_same_length in H as [Hmo H]; [|reflexivity].
  apply string_app_inj_same_length in H as [Hd H]; [|reflexivity].
  apply string_app_inj_same_length in H as [_ H]; [|reflexivity].
  apply string_app_inj_same_length in H as [Hh H]; [|reflexivity].
  apply string_app_inj_same_length in H as [Hmi Hs]; [|reflexivity].
  apply pad4_inj in Hy; [|lia..].
  apply pad2_inj in Hmo, Hd, Hh, Hmi, Hs; [|lia..].
  by subst.
Qed.

Lemma save_raw_non_empty raw_dir name df now (fs : Extract.files) l :
  Extract.empty df = false →
  fst (Extract.save_raw raw_dir name df now fs l)
  = <[Batch.raw_path raw_dir name now := df]> fs.
Proof. intros H. unfold Extract.save_raw. by rewrite H. Qed.

Lemma save_raw_empty raw_dir name df now (fs : Extract.files) l :
  Extract.empty df = true →
  fst (Extract.save_raw raw_dir name df now fs l) = fs.
Proof. intros H. unfold Extract.save_raw. by rewrite H. Qed.

(** X12. Two snapshots land in the same file exactly when they have the
    same source name and are taken within the same second (for instants
    whose year has four digits). So after two saves of frames that are not
    empty, the second frame is on disk under its path, the first one too
    unless name and second agree, and when they agree the first snapshot
    has been replaced by the second. *)
Theorem snapshots_collide_iff_same_name_and_second :
  ∀ (raw_dir n1 n2 : string) (t1 t2 : Extract.datetime),
    Batch.four_digit_year t1 → Batch.four_digit_year t2 →
    (Batch.raw_path raw_dir n1 t1 = Batch.raw_path raw_dir n2 t2 ↔
     n1 = n2 ∧ t1 = t2) ∧
    ∀ (df1 df2 : Extract.DataFrame) (fs : Extract.files) (l l' : Extract.log),
      Extract.empty df1 = false → Extract.empty df2 = false →
      let after1 := Extract.save_raw raw_dir n1 df1 t1 fs l in
      let after2 := Extract.save_raw raw_dir n2 df2 t2 (fst after1) l' in
      fst after2 !! Batch.raw_path raw_dir n2 t2 = Some df2 ∧
      (¬ (n1 = n2 ∧ t1 = t2) →
       fst after2 !! Batch.raw_path raw_dir n1 t1 = Some df1 ∧
       (fs !! Batch.raw_path raw_dir n1 t1 = None →
        fs !! Batch.raw_path raw_dir n2 t2 = None →
        size (fst after2) = S (S (size fs)))) ∧
      (n1 = n2 → t1 = t2 →
       fst after2 = <[Batch.raw_path raw_dir n2 t2 := df2]> fs).
Proof.
  intros raw_dir n1 n2 t1 t2 Hv1 Hv2.
  assert (Hpath : Batch.raw_path raw_dir n1 t1 = Batch.raw_path raw_dir n2 t2
                  ↔ n1 = n2 ∧ t1 = t2).
  { split; [|by intros [-> ->]].
    unfold Batch.raw_path. intros H.
    apply string_app_inj_prefix, (string_app_inj_prefix "/") in H.
    apply string_app_inj_suffix in H as [Hn H].
    2:{ rewrite !string_length_app, !strftime_length. done. }
    apply (string_app_inj_prefix "_") in H.
    apply string_app_inj_suffix in H as [Ht _]; [|done].
    split; [done|]. by apply strftime_inj. }
  split; [exact Hpath|].
  intros df1 df2 fs l l' He1 He2 after1 after2. subst after1 after2.
  rewrite (save_raw_non_empty _ _ _ _ _ _ He2), (save_raw_non_empty _ _ _ _ _ _ He1).
  unfold Extract.files in *.
  split; [apply lookup_insert_eq|]. split.
  - intros Hne.
    assert (Hp : Batch.raw_path raw_dir n2 t2 ≠ Batch.raw_path raw_dir n1 t1).
    { intros Heq. apply Hne. symmetry in Heq. by apply Hpath. }
    split; [rewrite lookup_insert_ne by done; apply lookup_insert_eq|].
    intros Hf1 Hf2.
    rewrite map_size_insert_None; [|by rewrite lookup_insert_ne by congruence].
    by rewrite map_size_insert_None.
  - intros -> ->. apply insert_insert_eq.
Qed.

Lemma snapshots_collide_witness :
  Batch.four_digit_year Samples.evening ∧
  (Batch.raw_path "data/raw" "db_sephora" Samples.evening
   = Batch.raw_path "data/raw" "db_skincare" Samples.evening ↔
   "db_sephora" = "db_skincare" ∧ Samples.evening = Samples.evening).
Proof.
  assert (H : Batch.four_digit_year Samples.evening).
  { unfold Batch.four_digit_year, Samples.evening. cbn. lia. }
  split; [exact H|].
  exact (proj1 (snapshots_collide_iff_same_name_and_second "data/raw"
                  "db_sephora" "db_skincare" Samples.evening Samples.evening
                  H H)).
Defined.

(** ** The remote API fetcher, once it has returned *)

Lemma normalise_length (items : list json) (records : list Extract.record) :
  Extract.normalise items = Some records → length records = length items.
Proof.
  revert records. induction items as [|item items IH]; intros records H.
  { cbn in H. by simplify_eq. }
  cbn [Extract.normalise] in H. destruct item; try done.
  destruct (Extract.normalise items) as [rs|]; [|done].
  simplify_eq. cbn. f_equal. by apply IH.
Qed.

Lemma normalise_source (items : list json) (records : list Extract.record) :
  Extract.normalise items = Some records →
  Forall (fun r => Extract.source r = JString "open_beauty_facts_api") records.
Proof.
  revert records. induction items as [|item items IH]; intros records H.
  { cbn in H. simplify_eq. constructor. }
  cbn [Extract.normalise] in H. destruct item; try done.
  destruct (Extract.normalise items) as [rs|]; [|done].
  simplify_eq. constructor; [done|]. by apply IH.
Qed.

(** Where the records of a page come from. *)
Lemma classify_adds (r : Extract.reply) (records : list Extract.record) :
  Extract.classify r = Extract.Adds records →
  ∃ data items,
    r = Extract.Decoded (JObject data) ∧
    Json.get data "products" (JArray []) = JArray items ∧
    items ≠ [] ∧ Extract.normalise items = Some records.
Proof.
  unfold Extract.classify.
  destruct r as [[| e | e | e | e |]|[| b | n | s | items | data]]; try done.
  destruct (Json.get data "products" (JArray [])) as [|b|n|s|items|kv] eqn:Hg;
    cbn [Json.truthy negb].
  - done.
  - by destruct b.
  - by destruct (n =? 0).
  - by destruct (PyStr.truthy s).
  - destruct items as [|i items]; [done|]. cbn [negb].
    destruct (Extract.normalise (i :: items)) as [rs|] eqn:Hn; [|done].
    intros [= <-]. by exists data, (i :: items).
  - by destruct kv.
Qed.

Lemma added_source (fetch : nat → Extract.reply) (page : nat) :
  Forall (fun r => Extract.source r = JString "open_beauty_facts_api")
         (Extract.added fetch page).
Proof.
  unfold Extract.added.
  destruct (Extract.classify (fetch page)) as [records| | |] eqn:Hc;
    try constructor.
  apply classify_adds in Hc as (data & items & _ & _ & _ & Hn).
  by apply (normalise_source items).
Qed.

Lemma added_non_empty (fetch : nat → Extract.reply) (page : nat)
    (records : list Extract.record) :
  Extract.classify (fetch page) = Extract.Adds records →
  Extract.added fetch page = records ∧ records ≠ [].
Proof.
  intros Hc. unfold Extract.added. rewrite Hc. split; [done|].
  apply classify_adds in Hc as (data & items & _ & _ & Hne & Hn).
  apply normalise_length in Hn. destruct records, items; done.
Qed.

(** A loop that returns met no exception on its way. *)
Lemma pages_loop_returned (fetch : nat → Extract.reply) (pages : list nat)
    (max_pages : nat) (all_products : list Extract.record) (l : Extract.log)
    (df : Extract.DataFrame) :
  fst (Extract.pages_loop fetch pages max_pages all_products l) = Some df →
  Forall (fun p => Extract.classify (fetch p) ≠ Extract.Escapes)
         (Extract.requested fetch pages).
Proof.
  revert all_products l.
  induction pages as [|p rest IH]; intros all_products l H.
  { constructor. }
  cbn [Extract.pages_loop Extract.requested] in *.
  rewrite visit_classify in H.
  destruct (Extract.classify (fetch p)) as [records| | |] eqn:Hc.
  - constructor; [by rewrite Hc|]. by eapply IH.
  - constructor; [by rewrite Hc|]. by eapply IH.
  - constructor; [by rewrite Hc|constructor].
  - done.
Qed.

Lemma requested_length (fetch : nat → Extract.reply) (pages : list nat) :
  (length (Extract.requested fetch pages) ≤ length pages)%nat.
Proof.
  induction pages as [|p rest IH]; [done|]. cbn [Extract.requested].
  destruct (Extract.classify (fetch p)); cbn; lia.
Qed.

Lemma to_frame_len (records : list Extract.record) :
  Extract.len (Extract.to_frame records) = length records.
Proof.
  destruct records; [done|]. unfold Extract.len. cbn. by rewrite length_map.
Qed.

Lemma to_frame_rows (records : list Extract.record) :
  Extract.rows (Extract.to_frame records) = map Extract.record_cells records.
Proof. by destruct records. Qed.

Lemma flat_map_nil {A B} (f : A → list B) (xs : list A) :
  flat_map f xs = [] ↔ ∀ x, x ∈ xs → f x = [].
Proof.
  induction xs as [|x xs IH]; cbn.
  { split; [by intros _ x ?%elem_of_nil|done]. }
  split.
  - intros [Hx Hxs]%app_eq_nil y [->|Hy]%elem_of_cons; [done|]. by apply IH.
  - intros H. rewrite (H x) by left. apply IH. intros y Hy. apply H. by right.
Qed.

(** What [extract_from_api] returned, when it did. *)
Lemma extract_from_api_returned (fetch : nat → Extract.reply) (max_pages : Z)
    (l l' : Extract.log) (df : Extract.DataFrame) :
  Extract.extract_from_api fetch max_pages l = (Some df, l') →
  let asked := Extract.requested fetch (seq 1 (Z.to_nat max_pages)) in
  Forall (fun p => Extract.classify (fetch p) ≠ Extract.Escapes) asked ∧
  df = Extract.to_frame (flat_map (Extract.added fetch) asked) ∧
  (Extract.empty df = true ↔ ∀ p, p ∈ asked → Extract.added fetch p = []) ∧
  last l' = Some (Extract.INFO,
                  "  ✓ API REST — total : " +:+ pretty (Extract.len df)
                  +:+ " produits extraits").
Proof.
  intros Hret asked.
  unfold Extract.extract_from_api in Hret. cbv zeta in Hret.
  assert (Hok : Forall (fun p => Extract.classify (fetch p) ≠ Extract.Escapes)
                  asked).
  { eapply pages_loop_returned. by rewrite Hret. }
  rewrite (pages_loop_requested fetch _ _ [] _ Hok) in Hret.
  unfold Extract.finish in Hret. cbn [app] in Hret.
  fold asked in Hret. injection Hret as <- <-.
  split; [done|]. split; [done|]. split; [|by rewrite last_snoc].
  rewrite <- flat_map_nil.
  destruct (flat_map (Extract.added fetch) asked) eqn:Hfm; by cbn.
Qed.

(** X13. When [extract_from_api] returns, its frame has one row for each
    product of the pages that were requested and held products, none lost
    and none added: a page whose [products] is a JSON array contributes as
    many rows as the array has items. Every row has the seven cells of the
    record and ends with the source tag, the frame is empty exactly when no
    requested page contributed, at most [max_pages] pages were requested,
    and the last line of the log gives the number of rows. *)
Theorem api_frame_has_one_row_per_product :
  ∀ (fetch : nat → Extract.reply) (max_pages : Z) (l l' : Extract.log)
    (df : Extract.DataFrame),
    Extract.extract_from_api fetch max_pages l = (Some df, l') →
    let asked := Extract.requested fetch (seq 1 (Z.to_nat max_pages)) in
    Extract.len df = length (flat_map (Extract.added fetch) asked) ∧
    (∀ p data items,
       p ∈ asked → fetch p = Extract.Decoded (JObject data) →
       Json.get data "products" (JArray []) = JArray items →
       length (Extract.added fetch p) = length items) ∧
    (∀ row, row ∈ Extract.rows df →
       length row = 7%nat ∧ last row = Some (JString "open_beauty_facts_api")) ∧
    (Extract.empty df = true ↔ ∀ p, p ∈ asked → Extract.added fetch p = []) ∧
    (length asked ≤ Z.to_nat max_pages)%nat ∧
    last l' = Some (Extract.INFO,
                    "  ✓ API REST — total : " +:+ pretty (Extract.len df)
                    +:+ " produits extraits").
Proof.
  intros fetch max_pages l l' df Hret asked.
  destruct (extract_from_api_returned fetch max_pages l l' df Hret)
    as (Hok & Hdf & Hempty & Hlast).
  fold asked in Hok, Hdf, Hempty.
  split; [rewrite Hdf; apply to_frame_len|]. split.
  { intros p data items Hp Hf Hg.
    rewrite Forall_forall in Hok. specialize (Hok p Hp).
    unfold Extract.added. unfold Extract.classify in *.
    rewrite Hf in *. rewrite Hg in *.
    destruct items as [|i items]; [done|].
    cbn [Json.truthy negb] in *.
    destruct (Extract.normalise (i :: items)) as [rs|] eqn:Hn; [|done].
    by apply normalise_length. }
  split.
  { intros row Hrow. rewrite Hdf, to_frame_rows in Hrow.
    apply list_elem_of_fmap in Hrow as (r & -> & Hr).
    split; [done|]. cbn.
    apply list_elem_of_In, in_flat_map in Hr as (p & _ & Hr).
    pose proof (added_source fetch p) as Hs. rewrite Forall_forall in Hs.
    f_equal. apply Hs. by apply list_elem_of_In. }
  split; [done|]. split; [|done].
  etrans; [apply requested_length|]. by rewrite length_seq.
Qed.

Lemma api_frame_witness :
  Extract.extract_from_api Cases.two_products 3 []
  = (Some (Extract.to_frame
             (Extract.added Cases.two_products 1)),
     snd (Extract.extract_from_api Cases.two_products 3 [])) ∧
  Extract.len (Extract.to_frame (Extract.added Cases.two_products 1))
  = length (flat_map (Extract.added Cases.two_products)
              (Extract.requested Cases.two_products (seq 1 (Z.to_nat 3)))).
Proof.
  assert (H : Extract.extract_from_api Cases.two_products 3 []
              = (Some (Extract.to_frame (Extract.added Cases.two_products 1)),
                 snd (Extract.extract_from_api Cases.two_products 3 [])))
    by reflexivity.
  split; [exact H|].
  exact (proj1 (api_frame_has_one_row_per_product
                  Cases.two_products 3 [] _ _ H)).
Defined.

(** X14. The snapshot of the API source, as [main] takes it: once
    [extract_from_api] has returned, [save_raw] writes its frame, under
    the name of the source and the second of the save, exactly when some
    requested page held products; otherwise the files are left as they
    were and a warning is logged. With [max_pages] zero or negative no
    page is requested, whatever the remote end would answer: the frame has
    no column, the log gains its two lines only, and nothing is saved. *)
Theorem api_snapshot_iff_some_product :
  ∀ (fetch : nat → Extract.reply) (max_pages : Z) (l l' : Extract.log)
    (df : Extract.DataFrame) (raw_dir : string) (now : Extract.datetime)
    (fs : Extract.files),
    Extract.extract_from_api fetch max_pages l = (Some df, l') →
    let asked := Extract.requested fetch (seq 1 (Z.to_nat max_pages)) in
    let after := Extract.save_raw raw_dir "api_open_beauty_facts" df now fs l' in
    ((∃ p records, p ∈ asked ∧
        Extract.classify (fetch p) = Extract.Adds records) →
     fst after
     = <[Batch.raw_path raw_dir "api_open_beauty_facts" now := df]> fs) ∧
    ((∀ p records, p ∈ asked →
        Extract.classify (fetch p) ≠ Extract.Adds records) →
     fst after = fs ∧
     snd after = l' ++ [(Extract.WARNING,
                         "  ⚠ DataFrame 'api_open_beauty_facts' vide — pas de sauvegarde.")]) ∧
    (max_pages ≤ 0 →
     asked = [] ∧ df = Batch.no_frame ∧ fst after = fs ∧
     l' = l ++ [(Extract.INFO,
                 "── Source 2 : Extraction via API REST (Open Beauty Facts — JSON) ──");
                (Extract.INFO, "  ✓ API REST — total : 0 produits extraits")]).
Proof.
  intros fetch max_pages l l' df raw_dir now fs Hret asked after.
  destruct (extract_from_api_returned fetch max_pages l l' df Hret)
    as (_ & _ & Hempty & _).
  fold asked in Hempty.
  split; [|split].
  - intros (p & records & Hp & Hc).
    apply added_non_empty in Hc as [Ha Hne].
    assert (He : Extract.empty df = false).
    { destruct (Extract.empty df) eqn:He; [|done].
      exfalso. apply Hne. rewrite <- Ha. by apply Hempty. }
    subst after. by rewrite (save_raw_non_empty _ _ _ _ _ _ He).
  - intros Hnone.
    assert (He : Extract.empty df = true).
    { apply Hempty. intros p Hp. unfold Extract.added.
      destruct (Extract.classify (fetch p)) as [records| | |] eqn:Hc; try done.
      by destruct (Hnone p records Hp). }
    subst after. unfold Extract.save_raw. by rewrite He.
  - intros Hle. subst asked after.
    unfold Extract.extract_from_api in Hret.
    replace (Z.to_nat max_pages) with 0%nat in * by lia.
    cbn in Hret. injection Hret as <- <-.
    split; [done|]. split; [done|]. split; [done|].
    by rewrite <- app_assoc.
Qed.

Lemma api_snapshot_witness :
  Extract.extract_from_api Cases.two_products 3 []
  = (Some (Extract.to_frame (Extract.added Cases.two_products 1)),
     snd (Extract.extract_from_api Cases.two_products 3 [])) ∧
  (∃ p records,
     p ∈ Extract.requested Cases.two_products (seq 1 (Z.to_nat 3)) ∧
     Extract.classify (Cases.two_products p) = Extract.Adds records) ∧
  fst (Extract.save_raw "data/raw" "api_open_beauty_facts"
         (Extract.to_frame (Extract.added Cases.two_products 1))
         Samples.evening ∅
         (snd (Extract.extract_from_api Cases.two_products 3 [])))
  !! "data/raw/api_open_beauty_facts_20261103_203005.csv"
  = Some (Extract.to_frame (Extract.added Cases.two_products 1)).
Proof.
  assert (H : Extract.extract_from_api Cases.two_products 3 []
              = (Some (Extract.to_frame (Extract.added Cases.two_products 1)),
                 snd (Extract.extract_from_api Cases.two_products 3 [])))
    by reflexivity.
  assert (Hp : ∃ p records,
            p ∈ Extract.requested Cases.two_products (seq 1 (Z.to_nat 3)) ∧
            Extract.classify (Cases.two_products p) = Extract.Adds records).
  { exists 1%nat. eexists. split; [by left|reflexivity]. }
  split; [exact H|]. split; [exact Hp|].
  rewrite (proj1 (api_snapshot_iff_some_product Cases.two_products 3 [] _ _
                    "data/raw" Samples.evening ∅ H) Hp).
  reflexivity.
Defined.

(** ** The script of the eight statements *)

Lemma path_inj (output_dir : string) (a b : RunQueries.block) :
  RunQueries.path output_dir a = RunQueries.path output_dir b →
  RunQueries.file a = RunQueries.file b.
Proof.
  unfold RunQueries.path. intros H.
  by do 2 apply string_app_inj_prefix in H.
Qed.

Lemma paths_NoDup (output_dir : string) :
  NoDup (map (RunQueries.path output_dir) RunQueries.blocks).
Proof.
  assert (Hf : NoDup (map RunQueries.file RunQueries.blocks)).
  { apply (bool_decide_unpack _). by vm_compute. }
  revert Hf. generalize RunQueries.blocks as bs.
  induction bs as [|b bs IH]; [constructor|].
  cbn [map]. intros [Hb Hbs]%NoDup_cons. apply NoDup_cons. split; [|by apply IH].
  intros Hin. apply Hb.
  apply list_elem_of_fmap in Hin as (b' & Heq & Hb').
  apply path_inj in Heq. rewrite Heq. apply list_elem_of_fmap. eauto.
Qed.

(** The blocks before the first read that fails are carried out, no
    other. *)
Lemma run_blocks_spec (read_sql : string → exn + Extract.DataFrame)
    (output_dir : string) (bs : list RunQueries.block) :
  NoDup (map (RunQueries.path output_dir) bs) →
  ∀ (fs : Extract.files) (out : list (string * (nat * nat))),
    let r := RunQueries.run_blocks read_sql output_dir bs fs out in
    (∀ i b, bs !! i = Some b →
       (∀ j b', (j ≤ i)%nat → bs !! j = Some b' →
                ∃ df, read_sql (RunQueries.statement b') = inr df) →
       ∃ df, read_sql (RunQueries.statement b) = inr df ∧
             RunQueries.written r !! RunQueries.path output_dir b = Some df ∧
             (RunQueries.label b, RunQueries.shape df) ∈ RunQueries.printed r) ∧
    (∀ i b, bs !! i = Some b →
       (∃ j b' e, (j ≤ i)%nat ∧ bs !! j = Some b' ∧
                  read_sql (RunQueries.statement b') = inl e) →
       RunQueries.written r !! RunQueries.path output_dir b
       = fs !! RunQueries.path output_dir b) ∧
    (∀ p, p ∉ map (RunQueries.path output_dir) bs →
          RunQueries.written r !! p = fs !! p) ∧
    (RunQueries.disposed r = true ↔
     ∀ b, b ∈ bs → ∃ df, read_sql (RunQueries.statement b) = inr df) ∧
    (RunQueries.disposed r = true ↔ RunQueries.raised r = None) ∧
    (∀ x, x ∈ out → x ∈ RunQueries.printed r) ∧
    (length (RunQueries.printed r) ≤ length out + length bs)%nat.
Proof.
  unfold Extract.files.
  induction bs as [|b bs IH]; intros Hnd fs out; cbv zeta.
  { cbn. split_and!; try done; [|lia].
    split; [|done]. by intros _ b ?%elem_of_nil. }
  cbn [map] in Hnd. apply NoDup_cons in Hnd as [Hb Hnd].
  cbn [RunQueries.run_blocks].
  destruct (read_sql (RunQueries.statement b)) as [e|df] eqn:Hread.
  { cbn. split_and!; try done.
    - intros i c Hc Hall. destruct (Hall 0%nat b) as [df Hdf]; [lia|done|].
      congruence.
    - split; [done|]. intros Hall. destruct (Hall b) as [df Hdf]; [by left|].
      congruence.
    - lia. }
  destruct (IH Hnd (<[RunQueries.path output_dir b := df]> fs)
              (out ++ [(RunQueries.label b, RunQueries.shape df)]))
    as (Hdone & Hnot & Hframe & Hdisp & Hraised & Hout & Hlen).
  split_and!.
  - intros [|i] c Hc Hall; cbn in Hc.
    + simplify_eq. exists df. split; [done|]. split.
      * rewrite Hframe by done. apply lookup_insert_eq.
      * apply Hout, elem_of_app. right. by left.
    + apply (Hdone i c Hc). intros j b' Hj Hb'.
      apply (Hall (S j) b'); [lia|done].
  - intros [|i] c Hc (j & b' & e & Hj & Hb' & He); cbn in Hc.
    + assert (j = 0%nat) as -> by lia. cbn in Hb'. simplify_eq; congruence.
    + destruct j as [|j]; [cbn in Hb'; simplify_eq; congruence|]. cbn in Hb'.
      etrans; [apply (Hnot i c Hc); exists j, b', e; split_and!; [lia|done..]|].
      apply lookup_insert_ne. intros Heq. apply Hb. rewrite Heq.
      apply list_elem_of_fmap. exists c. split; [done|].
      by eapply list_elem_of_lookup_2.
  - intros p Hp. cbn [map] in Hp. apply not_elem_of_cons in Hp as [Hne Hp].
    rewrite Hframe by done. by apply lookup_insert_ne.
  - rewrite Hdisp. split.
    + intros Hall c [->|Hc]%elem_of_cons; eauto.
    + intros Hall c Hc. apply Hall. by right.
  - done.
  - intros x Hx. apply Hout, elem_of_app. by left.
  - rewrite length_app in Hlen. cbn [length] in Hlen |- *.
    by rewrite <- Nat.add_assoc in Hlen.
Qed.

(** X15. The script carries out its blocks in order and stops at the
    first [pd.read_sql] that raises: every block before it has written
    its frame to its own file of OUTPUT_DIR (also when the frame is empty)
    and printed its label and shape; the file of the failing block and of
    every later one is as it was before the run, as is every other file;
    [engine.dispose()] is reached exactly when all eight reads succeed,
    and at most eight lines are printed. *)
Theorem script_stops_at_first_failed_read :
  ∀ (read_sql : string → exn + Extract.DataFrame) (output_dir : string)
    (fs : Extract.files),
    let r := RunQueries.run read_sql output_dir fs in
    (∀ i b, RunQueries.blocks !! i = Some b →
       (∀ j b', (j ≤ i)%nat → RunQueries.blocks !! j = Some b' →
                ∃ df, read_sql (RunQueries.statement b') = inr df) →
       ∃ df, read_sql (RunQueries.statement b) = inr df ∧
             RunQueries.written r !! RunQueries.path output_dir b = Some df ∧
             (RunQueries.label b, RunQueries.shape df) ∈ RunQueries.printed r) ∧
    (∀ i b, RunQueries.blocks !! i = Some b →
       (∃ j b' e, (j ≤ i)%nat ∧ RunQueries.blocks !! j = Some b' ∧
                  read_sql (RunQueries.statement b') = inl e) →
       RunQueries.written r !! RunQueries.path output_dir b
       = fs !! RunQueries.path output_dir b) ∧
    (∀ p, (∀ b, b ∈ RunQueries.blocks → p ≠ RunQueries.path output_dir b) →
          RunQueries.written r !! p = fs !! p) ∧
    (RunQueries.disposed r = true ↔
     ∀ b, b ∈ RunQueries.blocks →
          ∃ df, read_sql (RunQueries.statement b) = inr df) ∧
    (RunQueries.disposed r = true ↔ RunQueries.raised r = None) ∧
    (length (RunQueries.printed r) ≤ 8)%nat.
Proof.
  intros read_sql output_dir fs r.
  destruct (run_blocks_spec read_sql output_dir RunQueries.blocks
              (paths_NoDup output_dir) fs [])
    as (Hdone & Hnot & Hframe & Hdisp & Hraised & _ & Hlen).
  split_and!; try done.
  intros p Hp. apply Hframe. intros Hin.
  apply list_elem_of_fmap in Hin as (b & -> & Hb). by apply (Hp b).
Qed.

Lemma script_witness :
  (∃ j b' e, (j ≤ 3)%nat ∧ RunQueries.blocks !! j = Some b' ∧
             Cases.failing_q3 (RunQueries.statement b') = inl e) ∧
  RunQueries.written (RunQueries.run Cases.failing_q3 "data/processed" ∅)
    !! "data/processed/q4_aggregation_par_type.csv" = None ∧
  RunQueries.written (RunQueries.run Cases.failing_q3 "data/processed" ∅)
    !! "data/processed/q2_produits_restreints.csv" = Some Cases.one_row.
Proof.
  assert (H : ∃ j b' e, (j ≤ 3)%nat ∧ RunQueries.blocks !! j = Some b' ∧
                        Cases.failing_q3 (RunQueries.statement b') = inl e).
  { exists 2%nat, (RunQueries.Block RunQueries.q3 "q3_produits_risque_eleve.csv"
                     "Q3 — Risque élevé (CMR + premium) :"),
           (DriverError "server has gone away").
    split; [lia|]. split; reflexivity. }
  split; [exact H|]. split.
  - exact (proj1 (proj2 (script_stops_at_first_failed_read
                           Cases.failing_q3 "data/processed" ∅))
             3%nat
             (RunQueries.Block RunQueries.q4 "q4_aggregation_par_type.csv"
                "Q4 — Agrégation par type :")
             eq_refl H).
  - by vm_compute.
Defined.

Section Q6Facts.
Context {num : Type}.
Variable pct : list Z → num.
Variable avg : list num → num.
Variable ge : num → num → bool.



End Q6Facts.


(** ** The extraction script as a whole *)

Lemma extract_from_files_data (p : Batch.paths) (c s k : Batch.read)
    (l : Extract.log) :
  ∃ lines,
    Batch.extract_from_files p c s k l
    = ([("cosing", Batch.frame_of c); ("sephora", Batch.frame_of s);
        ("skincare", Batch.frame_of k)], l ++ lines).
Proof.
  unfold Batch.extract_from_files, Batch.read_file.
  destruct c, s, k; cbn; rewrite <- ?app_assoc; eexists; reflexivity.
Qed.

Lemma extract_from_database_data (target : string) (d : Batch.database)
    (l : Extract.log) :
  ∃ lines,
    Batch.extract_from_database target d l
    = ([("db_sephora", Main.kept d (Batch.read_sephora d));
        ("db_skincare", Main.kept d (Batch.read_skincare d))], l ++ lines).
Proof.
  unfold Batch.extract_from_database, Batch.read_table, Batch.database_ignored,
    Main.kept.
  destruct d as [[e|] [df1|e1] [df2|e2] [e'|]]; cbn; rewrite <- ?app_assoc;
    eexists; reflexivity.
Qed.

Lemma pages_loop_log (fetch : nat → Extract.reply) (pages : list nat)
    (max_pages : nat) (all_products : list Extract.record) (l : Extract.log) :
  ∃ lines,
    Extract.pages_loop fetch pages max_pages all_products l
    = (fst (Extract.pages_loop fetch pages max_pages all_products []),
       l ++ lines).
Proof.
  revert all_products l.
  assert (Hfinish : ∀ all_products l, ∃ lines,
            Extract.finish all_products l
            = (fst (Extract.finish all_products []), l ++ lines)).
  { intros all_products l. unfold Extract.finish. cbn. eauto. }
  induction pages as [|p rest IH]; intros all_products l; cbn [Extract.pages_loop].
  { apply Hfinish. }
  rewrite !visit_classify.
  destruct (Extract.classify (fetch p)) as [records| | |].
  - destruct (IH (all_products ++ records)
                (l ++ Extract.turn_log (fetch p) p max_pages)) as [lines ->].
    destruct (IH (all_products ++ records)
                ([] ++ Extract.turn_log (fetch p) p max_pages)) as [lines' ->].
    cbn [fst]. rewrite <- app_assoc. eauto.
  - destruct (IH all_products
                (l ++ Extract.turn_log (fetch p) p max_pages)) as [lines ->].
    destruct (IH all_products
                ([] ++ Extract.turn_log (fetch p) p max_pages)) as [lines' ->].
    cbn [fst]. rewrite <- app_assoc. eauto.
  - destruct (Hfinish all_products
                (l ++ Extract.turn_log (fetch p) p max_pages)) as [lines ->].
    cbn [fst]. rewrite <- app_assoc. eauto.
  - cbn [fst]. eauto.
Qed.

(** What [extract_from_api] returns does not depend on the log, which it
    only extends. *)
Lemma extract_from_api_log (fetch : nat → Extract.reply) (max_pages : Z)
    (l : Extract.log) :
  ∃ lines,
    Extract.extract_from_api fetch max_pages l
    = (fst (Extract.extract_from_api fetch max_pages []), l ++ lines).
Proof.
  unfold Extract.extract_from_api. cbv zeta.
  match goal with
  | |- context [Extract.pages_loop ?f ?ps ?m ?acc (l ++ ?x)] =>
      destruct (pages_loop_log f ps m acc (l ++ x)) as [lines ->];
      destruct (pages_loop_log f ps m acc ([] ++ x)) as [lines' ->]
  end.
  cbn [fst]. rewrite <- app_assoc. eauto.
Qed.

Section ScriptFacts.
Variable env : Main.run.

Lemma save_raw_fields (name : string) (df : Extract.DataFrame)
    (st : Main.state) :
  Main.extraction_report (Main.save_raw env name df st)
  = Main.extraction_report st ∧
  Main.readings (Main.save_raw env name df st)
  = (if Extract.empty df then Main.readings st else S (Main.readings st)) ∧
  Main.files (Main.save_raw env name df st)
  = (if Extract.empty df then Main.files st
     else <[Batch.raw_path (Main.RAW_DIR env) name
              (Main.clock env (Main.readings st)) := df]> (Main.files st)) ∧
  ∃ lines, Main.log (Main.save_raw env name df st) = Main.log st ++ lines.
Proof.
  unfold Main.save_raw, Extract.save_raw.
  destruct (Extract.empty df); cbn; eauto.
Qed.

Lemma save_all_fields (prefix : string)
    (data : list (string * Extract.DataFrame)) (st : Main.state) :
  Main.extraction_report (Main.save_all env prefix data st)
  = fold_left (fun r nd => Batch.dict_set r (prefix +:+ nd.1) (Extract.len nd.2))
      data (Main.extraction_report st) ∧
  Main.readings (Main.save_all env prefix data st)
  = (Main.readings st
     + length (List.filter (fun df => negb (Extract.empty df)) (map snd data)))%nat ∧
  ∃ lines, Main.log (Main.save_all env prefix data st) = Main.log st ++ lines.
Proof.
  revert st. induction data as [|[name df] data IH]; intros st.
  { cbn. split; [done|]. split; [lia|]. exists []. by rewrite app_nil_r. }
  cbn [Main.save_all].
  destruct (IH (Main.reported (Main.save_raw env name df st)
                  (prefix +:+ name) (Extract.len df))) as (Hr & Hk & lines & Hl).
  destruct (save_raw_fields name df st) as (Hr1 & Hk1 & _ & lines1 & Hl1).
  rewrite Hr, Hk, Hl. cbn [Main.reported Main.extraction_report Main.readings
    Main.log fold_left map fst snd List.filter].
  rewrite Hr1, Hk1, Hl1. split; [done|]. split.
  - destruct (Extract.empty df); cbn; lia.
  - rewrite <- app_assoc. eauto.
Qed.

Lemma save_raw_snapshots (fs0 : Extract.files) (name : string)
    (df : Extract.DataFrame) (st : Main.state) :
  name ∈ Main.snapshot_names →
  Main.snapshots_only env fs0 st →
  Main.snapshots_only env fs0 (Main.save_raw env name df st).
Proof.
  intros Hname (H1 & Hsize & Hfiles).
  destruct (save_raw_fields name df st) as (_ & Hk & Hf & _).
  unfold Main.snapshots_only. rewrite Hk, Hf.
  destruct (Extract.empty df) eqn:He; [done|].
  unfold Extract.files in *.
  split; [lia|]. split.
  { pose proof (map_size_insert
      (Batch.raw_path (Main.RAW_DIR env) name (Main.clock env (Main.readings st)))
      df (Main.files st)) as Hs.
    match type of Hs with
    | context [match ?x with _ => _ end] => destruct x
    end; unfold id in Hs; lia. }
  intros p.
  destruct (decide (p = Batch.raw_path (Main.RAW_DIR env) name
                           (Main.clock env (Main.readings st)))) as [->|Hne].
  - right. split.
    + exists name, (Main.readings st). split; [done|]. split; [lia|done].
    + exists df. split; [apply lookup_insert_eq|done].
  - rewrite lookup_insert_ne by done.
    destruct (Hfiles p) as [Hp|[(n & k & Hn & Hk' & ->) Hdf]]; [by left|].
    right. split; [|done]. exists n, k. split; [done|]. split; [lia|done].
Qed.

Lemma save_all_snapshots (fs0 : Extract.files) (prefix : string)
    (data : list (string * Extract.DataFrame)) (st : Main.state) :
  Forall (fun nd => nd.1 ∈ Main.snapshot_names) data →
  Main.snapshots_only env fs0 st →
  Main.snapshots_only env fs0 (Main.save_all env prefix data st).
Proof.
  revert st. induction data as [|[name df] data IH]; intros st Hn Hst; [done|].
  apply Forall_cons in Hn as [Hname Hn]. cbn [Main.save_all].
  apply IH; [done|]. by apply (save_raw_snapshots fs0 name df st).
Qed.

End ScriptFacts.

(** X17. The report of [main] lists the sources whose extractor
    returned, in the order of the script, each with the number of rows of
    its frame, also when the frame is empty and nothing was saved for it:
    the three files under [fichier_...], then the API and the scraping,
    then the two tables. A source whose extractor raised is not listed at
    all; the error is logged and the later sources are handled as usual.
    Every entry of the report has its line in the log, and the log the
    script started with is kept. *)
Theorem main_reports_sources_that_returned :
  ∀ (env : Main.run) (fs : Extract.files) (l : Extract.log),
    let st := Main.main env fs l in
    let api := fst (Extract.extract_from_api (Main.fetch env) 3 []) in
    let d := Main.db env in
    Main.extraction_report st
    = [("fichier_cosing", Extract.len (Batch.frame_of (Main.cosing env)));
       ("fichier_sephora", Extract.len (Batch.frame_of (Main.sephora env)));
       ("fichier_skincare", Extract.len (Batch.frame_of (Main.skincare env)))]
      ++ match api with
         | Some df => [("api_open_beauty_facts", Extract.len df)]
         | None => []
         end
      ++ match fst (Main.scraping env) with
         | Some df => [("scraping_wikipedia", Extract.len df)]
         | None => []
         end
      ++ [("db_sephora", Extract.len (Main.kept d (Batch.read_sephora d)));
          ("db_skincare", Extract.len (Main.kept d (Batch.read_skincare d)))] ∧
    (api = None →
     (Extract.ERROR,
      "Erreur non gérée dans extract_from_api : " +:+ Main.api_trace env)
     ∈ Main.log st) ∧
    (fst (Main.scraping env) = None →
     (Extract.ERROR,
      "Erreur non gérée dans extract_by_scraping : "
      +:+ Main.scraping_trace env) ∈ Main.log st) ∧
    (∀ entry, entry ∈ Main.extraction_report st →
              Main.report_line entry ∈ Main.log st) ∧
    (∃ lines, Main.log st = l ++ lines).
Proof.
  intros env fs l st api d. subst st. unfold Main.main. cbv zeta.
  match goal with
  | |- context [Batch.extract_from_files ?p ?c ?s ?k ?l0] =>
      destruct (extract_from_files_data p c s k l0) as [lines1 ->]
  end.
  match goal with
  | |- context [Main.save_all env "fichier_" ?data ?st0] =>
      destruct (save_all_fields env "fichier_" data st0) as (Hr1 & _ & k1 & Hl1);
      set (st1 := Main.save_all env "fichier_" data st0) in *
  end.
  cbn [Main.logged Main.extraction_report Main.log fold_left fst snd] in Hr1, Hl1.
  destruct (extract_from_api_log (Main.fetch env) 3 (Main.log st1))
    as [lines2 ->].
  fold api.
  set (st2 := match api with
              | Some api_data => _
              | None => _
              end).
  assert (H2 : Main.extraction_report st2
               = Main.extraction_report st1
                 ++ match api with
                    | Some df => [("api_open_beauty_facts", Extract.len df)]
                    | None => []
                    end
               ∧ (∃ k, Main.log st2 = Main.log st1 ++ k)
               ∧ (api = None →
                  (Extract.ERROR,
                   "Erreur non gérée dans extract_from_api : "
                   +:+ Main.api_trace env) ∈ Main.log st2)).
  { subst st2. destruct api as [api_data|].
    - match goal with
      | |- context [Main.save_raw env ?n ?df ?s0] =>
          destruct (save_raw_fields env n df s0) as (Hr & _ & _ & k & Hl)
      end.
      cbn [Main.reported Main.extraction_report Main.log Main.logged] in *.
      rewrite Hr, Hl, Hr1. split; [reflexivity|]. split; [|done].
      rewrite <- app_assoc. eauto.
    - cbn [Main.logged Main.extraction_report Main.log].
      rewrite app_nil_r. split; [done|]. split.
      + rewrite <- app_assoc. eauto.
      + intros _. set_solver. }
  destruct H2 as (Hr2 & [k2 Hl2] & He2). clearbody st2.
  set (st3 := match Main.scraping env with
              | (Some scraping_data, lines) => _
              | (None, lines) => _
              end).
  assert (H3 : Main.extraction_report st3
               = Main.extraction_report st2
                 ++ match fst (Main.scraping env) with
                    | Some df => [("scraping_wikipedia", Extract.len df)]
                    | None => []
                    end
               ∧ (∃ k, Main.log st3 = Main.log st2 ++ k)
               ∧ (fst (Main.scraping env) = None →
                  (Extract.ERROR,
                   "Erreur non gérée dans extract_by_scraping : "
                   +:+ Main.scraping_trace env) ∈ Main.log st3)).
  { subst st3. destruct (Main.scraping env) as [[scraping_data|] lines3];
      cbn [fst].
    - match goal with
      | |- context [Main.save_raw env ?n ?df ?s0] =>
          destruct (save_raw_fields env n df s0) as (Hr & _ & _ & k & Hl)
      end.
      cbn [Main.reported Main.extraction_report Main.log Main.logged] in *.
      rewrite Hr, Hl, Hr2, Hr1. split.
      + destruct api; reflexivity.
      + split; [|done]. rewrite <- app_assoc. eauto.
    - cbn [Main.logged Main.extraction_report Main.log].
      rewrite app_nil_r. split; [done|]. split; [eauto|].
      intros _. set_solver. }
  destruct H3 as (Hr3 & [k3 Hl3] & He3). clearbody st3.
  match goal with
  | |- context [Batch.extract_from_database ?t ?db ?l0] =>
      destruct (extract_from_database_data t db l0) as [lines4 ->]
  end.
  match goal with
  | |- context [Main.save_all env "" ?data ?st0] =>
      destruct (save_all_fields env "" data st0) as (Hr4 & _ & k4 & Hl4);
      set (st4 := Main.save_all env "" data st0) in *
  end.
  cbn [Main.logged Main.extraction_report Main.log fold_left fst snd] in Hr4, Hl4.
  clearbody st4. cbn [Main.extraction_report Main.log].
  assert (Hrep : Main.extraction_report st4
    = [("fichier_cosing", Extract.len (Batch.frame_of (Main.cosing env)));
       ("fichier_sephora", Extract.len (Batch.frame_of (Main.sephora env)));
       ("fichier_skincare", Extract.len (Batch.frame_of (Main.skincare env)))]
      ++ match api with
         | Some df => [("api_open_beauty_facts", Extract.len df)]
         | None => []
         end
      ++ match fst (Main.scraping env) with
         | Some df => [("scraping_wikipedia", Extract.len df)]
         | None => []
         end
      ++ [("db_sephora", Extract.len (Main.kept d (Batch.read_sephora d)));
          ("db_skincare", Extract.len (Main.kept d (Batch.read_skincare d)))]).
  { rewrite Hr4, Hr3, Hr2, Hr1.
    destruct api, (fst (Main.scraping env)); reflexivity. }
  split; [exact Hrep|].
  assert (Hkeep : ∀ x, x ∈ Main.log st2 → x ∈ Main.log st4).
  { intros x Hx. rewrite Hl4, Hl3. set_solver. }
  split; [|split; [|split]].
  - intros Hapi. apply elem_of_app. left. apply Hkeep. by apply He2.
  - intros Hs. apply elem_of_app. left. rewrite Hl4. set_solver.
  - intros entry Hentry. apply elem_of_app. right.
    apply elem_of_app. right. apply elem_of_app. left.
    by apply list_elem_of_fmap_2.
  - rewrite Hl4, Hl3, Hl2, Hl1. rewrite <- !app_assoc. eauto.
Qed.

(** X18. What a run of [main] does to RAW_DIR and to the clock: every
    path of RAW_DIR holds what it held before, or is the path of a
    snapshot, named after one of the seven sources and a reading of the
    clock, and holds a frame that is not empty; so no file is removed. The
    clock is read once at the start, once at the end and once for each
    frame that is not empty, so at most nine times, and at most that many
    files less two are added. When every extractor returns an empty frame
    or raises, the files are left exactly as they were. *)
Theorem main_writes_snapshots_only :
  ∀ (env : Main.run) (fs : Extract.files) (l : Extract.log),
    let st := Main.main env fs l in
    Main.readings st
    = (2 + length (List.filter (fun df => negb (Extract.empty df))
                     (Main.frames env)))%nat ∧
    (Main.readings st ≤ 9)%nat ∧
    (size (Main.files st) + 2 ≤ size fs + Main.readings st)%nat ∧
    (∀ p, Main.files st !! p = fs !! p ∨
          Main.snapshot env (Main.readings st - 1) p ∧
          ∃ df, Main.files st !! p = Some df ∧ Extract.empty df = false) ∧
    (Forall (fun df => Extract.empty df = true) (Main.frames env) →
     Main.files st = fs).
Proof.
  intros env fs l st.
  assert (Hmain :
    Main.readings st
    = (2 + length (List.filter (fun df => negb (Extract.empty df))
                     (Main.frames env)))%nat ∧
    ∃ st4, Main.snapshots_only env fs st4 ∧
           Main.files st = Main.files st4 ∧
           Main.readings st = S (Main.readings st4)).
  { subst st. unfold Main.main. cbv zeta.
    match goal with
    | |- context [Batch.extract_from_files ?p ?c ?s ?k ?l0] =>
        destruct (extract_from_files_data p c s k l0) as [lines1 ->]
    end.
    match goal with
    | |- context [Main.save_all env "fichier_" ?data ?st0] =>
        destruct (save_all_fields env "fichier_" data st0) as (_ & Hk1 & _);
        assert (Hs1 : Main.snapshots_only env fs
                        (Main.save_all env "fichier_" data st0));
        [apply save_all_snapshots;
         [repeat constructor; cbn; set_solver
         |split; [cbn; lia|]; split; [cbn; lia|]; intros p; by left]|];
        set (st1 := Main.save_all env "fichier_" data st0) in *
    end.
    cbn [Main.logged Main.readings map snd] in Hk1. clearbody st1.
    destruct (extract_from_api_log (Main.fetch env) 3 (Main.log st1))
      as [lines2 ->].
    set (api := fst (Extract.extract_from_api (Main.fetch env) 3 [])).
    set (st2 := match api with
                | Some api_data => _
                | None => _
                end).
    assert (H2 : Main.snapshots_only env fs st2 ∧
                 Main.readings st2
                 = (Main.readings st1
                    + length (List.filter (fun df => negb (Extract.empty df))
                                (option_list api)))%nat).
    { subst st2. destruct api as [api_data|].
      - match goal with
        | |- context [Main.save_raw env ?n ?df ?s0] =>
            destruct (save_raw_fields env n df s0) as (_ & Hk & _);
            pose proof (save_raw_snapshots env fs n df s0) as Hs
        end.
        split; [apply Hs; [set_solver|exact Hs1]|].
        cbn [Main.reported Main.readings Main.logged option_list List.filter]
          in *.
        rewrite Hk. clear Hk. cbn.
        destruct (Extract.empty api_data); cbn; lia.
      - split; [exact Hs1|]. cbn. lia. }
    destruct H2 as [Hs2 Hk2]. clearbody st2.
    set (st3 := match Main.scraping env with
                | (Some scraping_data, lines) => _
                | (None, lines) => _
                end).
    assert (H3 : Main.snapshots_only env fs st3 ∧
                 Main.readings st3
                 = (Main.readings st2
                    + length (List.filter (fun df => negb (Extract.empty df))
                                (option_list (fst (Main.scraping env)))))%nat).
    { subst st3. destruct (Main.scraping env) as [[scraping_data|] lines3];
        cbn [fst].
      - match goal with
        | |- context [Main.save_raw env ?n ?df ?s0] =>
            destruct (save_raw_fields env n df s0) as (_ & Hk & _);
            pose proof (save_raw_snapshots env fs n df s0) as Hs
        end.
        split; [apply Hs; [set_solver|exact Hs2]|].
        cbn [Main.reported Main.readings Main.logged option_list List.filter]
          in *.
        rewrite Hk. clear Hk. cbn.
        destruct (Extract.empty scraping_data); cbn; lia.
      - split; [exact Hs2|]. cbn. lia. }
    destruct H3 as [Hs3 Hk3]. clearbody st3.
    match goal with
    | |- context [Batch.extract_from_database ?t ?db ?l0] =>
        destruct (extract_from_database_data t db l0) as [lines4 ->]
    end.
    match goal with
    | |- context [Main.save_all env "" ?data ?st0] =>
        destruct (save_all_fields env "" data st0) as (_ & Hk4 & _);
        assert (Hs4 : Main.snapshots_only env fs (Main.save_all env "" data st0));
        [apply save_all_snapshots;
         [repeat constructor; cbn; set_solver|exact Hs3]|];
        set (st4 := Main.save_all env "" data st0) in *
    end.
    cbn [Main.logged Main.readings map snd] in Hk4.
    clearbody st4. cbn [Main.readings Main.files].
    split; [|by exists st4].
    rewrite Hk4, Hk3, Hk2, Hk1. unfold Main.frames. fold api.
    rewrite !List.filter_app, !length_app. cbn [Main.readings]. lia. }
  destruct Hmain as (Hk & st4 & (H1 & Hsize & Hfiles) & Hf & Hk4).
  assert (Hle : (length (List.filter (fun df => negb (Extract.empty df))
                           (Main.frames env)) ≤ 7)%nat).
  { etrans; [apply List.filter_length_le|]. unfold Main.frames.
    rewrite !length_app.
    destruct (fst (Extract.extract_from_api _ _ _)), (fst (Main.scraping env));
      cbn; lia. }
  split; [exact Hk|]. split; [lia|]. split; [rewrite Hf, Hk4; lia|]. split.
  - intros p. rewrite Hf, Hk4.
    replace (S (Main.readings st4) - 1)%nat with (Main.readings st4) by lia.
    by apply Hfiles.
  - intros Hall. apply map_eq. intros p. rewrite Hf.
    destruct (Hfiles p) as [Hp|[(name & k & _ & Hk' & _) _]]; [done|].
    exfalso.
    assert (Hnone : List.filter (fun df => negb (Extract.empty df))
                      (Main.frames env) = []).
    { clear -Hall. induction Hall as [|df dfs Hdf _ IH]; [done|].
      cbn. by rewrite Hdf. }
    rewrite Hnone in Hk. cbn in Hk. lia.
Qed.

Lemma main_witness :
  Forall (fun df => Extract.empty df = true) (Main.frames Cases.quiet_run) ∧
  Main.files (Main.main Cases.quiet_run ∅ []) = ∅.
Proof.
  assert (H : Forall (fun df => Extract.empty df = true)
                (Main.frames Cases.quiet_run)) by (repeat constructor).
  split; [exact H|].
  exact (proj2 (proj2 (proj2 (proj2
           (main_writes_snapshots_only Cases.quiet_run ∅ [])))) H).
Defined.

Example bad_run_report :
  Main.extraction_report (Main.main Cases.bad_run ∅ [])
  = [("fichier_cosing", 0%nat); ("fichier_sephora", 1%nat);
     ("fichier_skincare", 0%nat); ("scraping_wikipedia", 0%nat);
     ("db_sephora", 0%nat); ("db_skincare", 0%nat)] ∧
  dom (Main.files (Main.main Cases.bad_run ∅ []))
  = {["data/raw/sephora_20261103_203001.csv"]} ∧
  Main.report_line ("fichier_sephora", 1%nat)
  = (Extract.INFO,
     "  ✓  fichier_sephora......................... 1 lignes").
Proof. split; [by vm_compute|]. split; [|by vm_compute]. by vm_compute. Qed.
